(** * Signed requests to the Tuya cloud: a shallow embedding of [src/utils/tuya.ts]

    The development follows the TypeScript source function by function.
    JavaScript values are an inductive type, objects are association lists
    in insertion order, [async] functions are computations in a state and
    exception monad whose state holds the clock, the object heap and the
    trace of observable events (requests sent, bodies parsed, log lines).

    A string is the sequence of the UTF-8 bytes of a well-formed text.
    The engine holds the same text as UTF-16 code units and compares
    strings unit by unit; [code_units] gives the units of a string.  The
    string methods whose result depends on the Unicode tables ([trim],
    [toLowerCase], [replaceAll] with [\s]) are methods of a class, of
    which the statements assume only what the engine does on ASCII text.

    A number is an integer that the engine holds exactly and prints with
    all its digits: [VNum n] stands for a number of the engine when
    [n] is a safe integer, between [-(2^53 - 1)] and [2^53 - 1].  Numbers
    with a fraction, and integers beyond that range, which the engine
    rounds and prints with an exponent from [10^21] on, are not values of
    the model; the statements that depend on the text of a number say so.

    Functions of the runtime and of the [qs] and [node:crypto] packages that
    the source calls but does not define (SHA-256, HMAC, [JSON.parse],
    [qs.parse], [qs.stringify], [decodeURIComponent], [Date.now], [fetch])
    are variables of the sections below. *)

From Stdlib Require Import ZArith Ascii String.
From Stdlib.Strings Require Import Byte.
From stdpp Require Import base strings list sorting pretty.

Set Warnings "-register-all,-clear-no-such-hyp".

(** ** JavaScript values *)

Inductive value : Type :=
  | VUndef
  | VNull
  | VBool (b : bool)
  | VNum (n : Z)
  | VStr (s : string)
  | VArr (vs : list value)
  | VObj (ps : list (string * value))
  | VFun (name : string).

(** An object is the list of its own properties in insertion order. *)
Abbreviation obj := (list (string * value)).

Fixpoint assoc {A} (k : string) (l : list (string * A)) : option A :=
  match l with
  | [] => None
  | (k', x) :: l' => if decide (k' = k) then Some x else assoc k l'
  end.

(** [o[k]] on own properties. *)
Definition obj_get (k : string) (o : obj) : value :=
  default VUndef (assoc k o).

(** [o[k] = v]: an existing property keeps its place, a new one goes last.
    Property names are those of data properties; the accessor [__proto__]
    is not one of them. *)
Fixpoint obj_set (k : string) (v : value) (o : obj) : obj :=
  match o with
  | [] => [(k, v)]
  | (k', x) :: o' =>
      if decide (k' = k) then (k, v) :: o' else (k', x) :: obj_set k v o'
  end.

Fixpoint digits_value (acc : N) (s : string) : option N :=
  match s with
  | EmptyString => Some acc
  | String c s' =>
      match Ascii.is_nat c with
      | Some d => digits_value (10 * acc + N.of_nat d) s'
      | None => None
      end
  end.

(** A property key is an array index when it is the canonical decimal
    spelling of an integer below [2^32 - 1]. *)
Definition array_index (k : string) : option N :=
  match k with
  | EmptyString => None
  | _ =>
      match digits_value 0 k with
      | Some n =>
          if decide (pretty n = k ∧ (n < 4294967295)%N) then Some n else None
      | None => None
      end
  end.

Definition is_array_index (k : string) : bool :=
  bool_decide (is_Some (array_index k)).

(** [Object.keys(o)]: array indices in ascending numeric order, then the
    other keys in insertion order. *)
Definition Object_keys (o : obj) : list string :=
  (pretty <$> merge_sort N.le (omap array_index o.*1))
  ++ filter (λ k, array_index k = None) o.*1.

(** [Object.assign(target, source)]. *)
Definition Object_assign (target source : obj) : obj :=
  foldl (λ t k, obj_set k (obj_get k source) t) target (Object_keys source).

(** ** Conversions *)

Definition truthy (v : value) : bool :=
  match v with
  | VUndef | VNull => false
  | VBool b => b
  | VNum n => negb (n =? 0)%Z
  | VStr s => negb (String.eqb s "")
  | VArr _ | VObj _ | VFun _ => true
  end.

(** [a || b]. *)
Definition js_or (a b : value) : value := if truthy a then a else b.

Definition join (sep : string) (l : list string) : string :=
  match l with
  | [] => ""
  | s :: l' => foldl (λ acc x, acc +:+ sep +:+ x) s l'
  end.

(** [String(v)], also the conversion of template literals and of [+].  A
    number is printed with all its digits, as the engine prints a safe
    integer. *)
Fixpoint toString (v : value) : string :=
  match v with
  | VUndef => "undefined"
  | VNull => "null"
  | VBool true => "true"
  | VBool false => "false"
  | VNum n => pretty n
  | VStr s => s
  | VArr vs =>
      join ","
        ((fix elems (l : list value) : list string :=
            match l with
            | [] => []
            | x :: l' =>
                match x with
                | VUndef | VNull => ""
                | _ => toString x
                end :: elems l'
            end) vs)
  | VObj _ => "[object Object]"
  | VFun name => "function " +:+ name +:+ "() { [native code] }"
  end.

Definition dquote : string := String "034"%char "".
Definition backslash : string := String "092"%char "".

Definition hex_lower (n : N) : ascii :=
  match n with
  | 0 => "0" | 1 => "1" | 2 => "2" | 3 => "3" | 4 => "4" | 5 => "5"
  | 6 => "6" | 7 => "7" | 8 => "8" | 9 => "9" | 10 => "a" | 11 => "b"
  | 12 => "c" | 13 => "d" | 14 => "e" | _ => "f"
  end%char%N.

Definition json_escape_char (c : ascii) : string :=
  let n := N_of_ascii c in
  if decide (n = 34)%N then backslash +:+ dquote
  else if decide (n = 92)%N then backslash +:+ backslash
  else if decide (n = 8)%N then backslash +:+ "b"
  else if decide (n = 12)%N then backslash +:+ "f"
  else if decide (n = 10)%N then backslash +:+ "n"
  else if decide (n = 13)%N then backslash +:+ "r"
  else if decide (n = 9)%N then backslash +:+ "t"
  else if decide (n < 32)%N then
    backslash +:+ "u00"
    +:+ String (hex_lower (n / 16)) (String (hex_lower (n mod 16)) "")
  else String c "".

Fixpoint json_escape (s : string) : string :=
  match s with
  | EmptyString => ""
  | String c s' => json_escape_char c +:+ json_escape s'
  end.

Definition json_quote (s : string) : string :=
  dquote +:+ json_escape s +:+ dquote.

(** [JSON.stringify(v)]; [None] is the engine's [undefined].  Numbers are
    printed as by [toString]. *)
Fixpoint JSON_stringify (v : value) : option string :=
  match v with
  | VUndef | VFun _ => None
  | VNull => Some "null"
  | VBool true => Some "true"
  | VBool false => Some "false"
  | VNum n => Some (pretty n)
  | VStr s => Some (json_quote s)
  | VArr vs =>
      Some ("[" +:+ join ","
        ((fix elems (l : list value) : list string :=
            match l with
            | [] => []
            | x :: l' => default "null" (JSON_stringify x) :: elems l'
            end) vs) +:+ "]")
  | VObj ps =>
      let members :=
        (fix go (l : obj) : list (string * option string) :=
           match l with
           | [] => []
           | (k, x) :: l' => (k, JSON_stringify x) :: go l'
           end) ps in
      Some ("{" +:+ join ","
        (omap (λ k, s ← mjoin (assoc k members);
                    Some (json_quote k +:+ ":" +:+ s)) (Object_keys ps))
        +:+ "}")
  end.


(** ** Strings *)

Definition newline : string := String "010"%char "".

Definition ascii_upper (c : ascii) : ascii :=
  let n := N_of_ascii c in
  if decide (97 ≤ n ≤ 122)%N then ascii_of_N (n - 32) else c.

Definition ascii_lower (c : ascii) : ascii :=
  let n := N_of_ascii c in
  if decide (65 ≤ n ≤ 90)%N then ascii_of_N (n + 32) else c.

Fixpoint string_map (f : ascii → ascii) (s : string) : string :=
  match s with
  | EmptyString => ""
  | String c s' => String (f c) (string_map f s')
  end.

(** [toUpperCase] on the hexadecimal digits it is applied to. *)
Definition toUpperCase : string → string := string_map ascii_upper.

(** *** The order of [Array.prototype.sort]

    Without a comparator, [sort] compares strings by their UTF-16 code
    units.  The units are read off the UTF-8 bytes: one unit for a
    sequence of one, two or three bytes, a pair of surrogates for a
    sequence of four.  A byte that begins no complete sequence stands for
    itself; there is none in a well-formed text. *)

(** The six payload bits of a continuation byte. *)
Definition continuation (c : ascii) : N := (N_of_ascii c mod 64)%N.

Fixpoint code_units (s : string) : list N :=
  match s with
  | EmptyString => []
  | String a s1 =>
      let n := N_of_ascii a in
      if decide (n < 192)%N then n :: code_units s1
      else
        match s1 with
        | EmptyString => [n]
        | String b s2 =>
            if decide (n < 224)%N then
              (n mod 32 * 64 + continuation b)%N :: code_units s2
            else
              match s2 with
              | EmptyString => n :: code_units s1
              | String c s3 =>
                  if decide (n < 240)%N then
                    ((n mod 16 * 64 + continuation b) * 64
                     + continuation c)%N :: code_units s3
                  else
                    match s3 with
                    | EmptyString => n :: code_units s1
                    | String d s4 =>
                        let point :=
                          (((n mod 8 * 64 + continuation b) * 64
                            + continuation c) * 64 + continuation d)%N in
                        let x := (point - 65536)%N in
                        (55296 + x / 1024)%N :: (56320 + x mod 1024)%N
                        :: code_units s4
                    end
              end
        end
  end.

(** The lexicographic order on sequences of units; a proper prefix comes
    first. *)
Fixpoint units_leb (l1 l2 : list N) : bool :=
  match l1, l2 with
  | [], _ => true
  | _ :: _, [] => false
  | x :: l1', y :: l2' =>
      if decide (x = y) then units_leb l1' l2' else bool_decide (x < y)%N
  end.

Definition code_unit_le (a b : string) : Prop :=
  units_leb (code_units a) (code_units b) = true.

#[global] Instance code_unit_le_dec : RelDecision code_unit_le :=
  λ a b, decide (units_leb (code_units a) (code_units b) = true).

(** [s.split(c)] for a one-character separator. *)
Fixpoint split (c : ascii) (s : string) : list string :=
  match s with
  | EmptyString => [""]
  | String x s' =>
      if decide (x = c) then "" :: split c s'
      else match split c s' with
           | [] => [String x ""]
           | piece :: rest => String x piece :: rest
           end
  end.

(** [digest('hex')]: two lower-case digits per byte. *)
Definition hex_of_byte (b : Byte.byte) : string :=
  let n := Byte.to_N b in
  String (hex_lower (n / 16)) (String (hex_lower (n mod 16)) "").

Fixpoint hex (bs : list Byte.byte) : string :=
  match bs with
  | [] => ""
  | b :: bs' => hex_of_byte b +:+ hex bs'
  end.

(** ** Exceptions *)

Record exn := Exn { exn_name : string; exn_message : string }.

Definition Error (msg : string) : exn := Exn "Error" msg.
Definition TypeError (msg : string) : exn := Exn "TypeError" msg.

(** [Error.prototype.toString], which [`${error}`] calls. *)
Definition exn_toString (e : exn) : string :=
  if decide (exn_name e = "") then exn_message e
  else if decide (exn_message e = "") then exn_name e
  else exn_name e +:+ ": " +:+ exn_message e.

Inductive result (A : Type) : Type :=
  | Ok (a : A)
  | Throw (e : exn).
Arguments Ok {A} a.
Arguments Throw {A} e.

(** [v[k]] for the property names the source reads from parsed JSON, none
    of which a primitive, an array or [Object.prototype] defines. *)
Definition get_prop (k : string) (v : value) : result value :=
  match v with
  | VUndef | VNull =>
      Throw (TypeError ("Cannot read properties of " +:+ toString v
                        +:+ " (reading '" +:+ k +:+ "')"))
  | VObj o => Ok (obj_get k o)
  | _ => Ok VUndef
  end.

(** ** The world: clock, heap, trace *)

Record Request := {
  req_url : string;
  req_method : option string;
  req_headers : obj;
  req_body : option string
}.

Record Response := {
  status : Z;
  text : string
}.

(** [response.ok]. *)
Definition ok (r : Response) : bool :=
  bool_decide (200 ≤ status r ≤ 299)%Z.

(** What the outside sees: a request sent by [fetch], the text of a response
    handed to the JSON parser by [response.json()], a line of
    [console.log]. *)
Inductive event : Type :=
  | EFetch (r : Request)
  | EJson (text : string)
  | ELogError (e : exn)
  | ELogValue (v : value).

Abbreviation loc := nat.

Record World := {
  clock_reads : nat;
  heap : list obj;
  trace : list event
}.

Definition M (A : Type) : Type := World → result A * World.

Definition ret {A} (a : A) : M A := λ w, (Ok a, w).

Definition throw {A} (e : exn) : M A := λ w, (Throw e, w).

Definition bind {A B} (c : M A) (k : A → M B) : M B :=
  λ w, match c w with
       | (Ok a, w') => k a w'
       | (Throw e, w') => (Throw e, w')
       end.

Definition try_catch {A} (c : M A) (handler : exn → M A) : M A :=
  λ w, match c w with
       | (Ok a, w') => (Ok a, w')
       | (Throw e, w') => handler e w'
       end.

Definition lift {A} (r : result A) : M A := λ w, (r, w).

#[global] Instance result_ret : MRet result := λ A a, Ok a.
#[global] Instance result_bind : MBind result :=
  λ A B f r, match r with Ok a => f a | Throw e => Throw e end.

Notation "'let!' x ':=' c 'in' k" := (bind c (λ x, k))
  (at level 10, x pattern, c at level 100, k at level 200).

Definition emit (e : event) : M unit :=
  λ w, (Ok tt, {| clock_reads := clock_reads w; heap := heap w;
                  trace := trace w ++ [e] |}).

(** [{...}]: a fresh object. *)
Definition alloc (o : obj) : M loc :=
  λ w, (Ok (length (heap w)),
        {| clock_reads := clock_reads w; heap := heap w ++ [o];
           trace := trace w |}).

Definition read (l : loc) : M obj :=
  λ w, (Ok (default [] (heap w !! l)), w).

Definition modify (l : loc) (f : obj → obj) : M unit :=
  λ w, (Ok tt,
        {| clock_reads := clock_reads w;
           heap := alter f l (heap w);
           trace := trace w |}).

(** ** The program *)

Record Creds := {
  accessKey : string;
  baseUrl : string;
  secretKey : string
}.

Record Env := {
  KITCHEN_DEVICE_ID : value;
  DINNING_DEVICE_ID : value;
  LIVINGROOM_DEVICE_ID : value;
  BEDROOM_DEVICE_ID : value
}.

(** What an object literal inherits from [Object.prototype]: methods, and
    [__proto__], which reads the prototype, an object with no enumerable
    property of its own. *)
Definition Object_prototype (k : string) : value :=
  if decide (k = "__proto__") then VObj []
  else if decide (k ∈ ["constructor"; "hasOwnProperty"; "isPrototypeOf";
                       "propertyIsEnumerable"; "toLocaleString"; "toString";
                       "valueOf"; "__defineGetter__"; "__defineSetter__";
                       "__lookupGetter__"; "__lookupSetter__"])
  then VFun k
  else VUndef.

(** [o[k]] for an arbitrary key of an object literal. *)
Definition obj_lookup (k : string) (o : obj) : value :=
  match assoc k o with
  | Some v => v
  | None => Object_prototype k
  end.

(** The runtime the program runs on. *)
Class Runtime := {
  (** [crypto.createHash('sha256').update(s).digest()]. *)
  sha256 : string → list Byte.byte;
  (** [crypto.createHmac('sha256', key).update(s, 'utf8').digest()]. *)
  hmac_sha256 : string → string → list Byte.byte;
  (** [JSON.parse], which throws a [SyntaxError] on malformed text. *)
  JSON_parse : string → result value;
  (** [qs.parse]; the argument is [undefined] when the path has no [?]. *)
  qs_parse : option string → obj;
  qs_stringify : obj → string;
  (** [decodeURIComponent], which throws a [URIError] on a bad escape. *)
  decodeURIComponent : string → result string;
  (** The value of the [n]-th reading of the clock. *)
  now : nat → Z;
  (** The outcome of a request, given everything that happened before:
      a response, or the exception [fetch] rejects with. *)
  network : list event → Request → result Response
}.

Section Program.

Context `{Runtime}.

Definition Date_now : M Z :=
  λ w, (Ok (now (clock_reads w)),
        {| clock_reads := S (clock_reads w); heap := heap w;
           trace := trace w |}).

Definition fetch (r : Request) : M Response :=
  λ w, (network (trace w) r,
        {| clock_reads := clock_reads w; heap := heap w;
           trace := trace w ++ [EFetch r] |}).

(** [response.json()]. *)
Definition response_json (r : Response) : M value :=
  let! _ := emit (EJson (text r)) in
  lift (JSON_parse (text r)).

Definition encryptStr (str secret : string) : M string :=
  ret (toUpperCase (hex (hmac_sha256 secret str))).

Definition token_path : string := "/v1.0/token?grant_type=1".

Definition getToken (creds : Creds) : M value :=
  let method := "GET" in
  let! millis := Date_now in
  let timestamp := pretty millis in
  let signUrl := token_path in
  let contentHash := hex (sha256 "") in
  let stringToSign := join newline [method; contentHash; ""; signUrl] in
  let signStr := accessKey creds +:+ timestamp +:+ stringToSign in
  let! sign := encryptStr signStr (secretKey creds) in
  let headers :=
    [("t", VStr timestamp); ("sign_method", VStr "HMAC-SHA256");
     ("client_id", VStr (accessKey creds)); ("sign", VStr sign)] in
  let! response :=
    fetch {| req_url := baseUrl creds +:+ token_path;
             req_method := None;
             req_headers := headers;
             req_body := None |} in
  let! res := response_json response in
  let! success := lift (get_prop "success" res) in
  if negb (truthy success) then
    let! msg := lift (get_prop "msg" res) in
    throw (Error ("Fetch failed: " +:+ toString msg))
  else
    let! result := lift (get_prop "result" res) in
    let! access_token :=
      match result with
      | VUndef | VNull => ret VUndef
      | _ => lift (get_prop "access_token" result)
      end in
    ret (js_or access_token (VStr "NO TOKEN")).

(** [keys.forEach((i) => (sortedQuery[i] = query[i]))], [query] being
    read through its reference at every step. *)
Fixpoint copy_sorted (query : loc) (keys : list string) (sortedQuery : obj)
  : M obj :=
  match keys with
  | [] => ret sortedQuery
  | i :: keys' =>
      let! q := read query in
      copy_sorted query keys' (obj_set i (obj_get i q) sortedQuery)
  end.

(** The argument of [createHash(...).update], which rejects [undefined]. *)
Definition update_arg (s : option string) : result string :=
  match s with
  | Some s => Ok s
  | None =>
      Throw (TypeError "The 'data' argument must be of type string")
  end.

(** [query] is a reference, since the function writes to the object;
    [body] is only read, and is the content of an object that is not the
    one [query] refers to, as in every call of the repository. *)
Definition getRequestSign (creds : Creds) (path method : string)
    (headers : obj) (query : option loc) (body : option obj) : M obj :=
  let! query := match query with Some l => ret l | None => alloc [] end in
  let body := default [] body in
  let! millis := Date_now in
  let t := pretty millis in
  let pieces := split "?" path in
  let uri := default "" (pieces !! 0%nat) in
  let pathQuery := pieces !! 1%nat in
  let! token := getToken creds in
  let! _ := modify query (λ q, Object_assign q (qs_parse pathQuery)) in
  let queryMerged := query in
  let! merged := read queryMerged in
  let! sortedQuery :=
    copy_sorted query (merge_sort code_unit_le (Object_keys merged)) [] in
  let! querystring := lift (decodeURIComponent (qs_stringify sortedQuery)) in
  let url :=
    if truthy (VStr querystring) then uri +:+ "?" +:+ querystring
    else uri in
  let! contentHash :=
    if negb (String.eqb method "GET") then
      let! data := lift (update_arg (JSON_stringify (VObj body))) in
      ret (hex (sha256 data))
    else ret (hex (sha256 "")) in
  let stringToSign := join newline [method; contentHash; ""; url] in
  let signStr :=
    accessKey creds +:+ toString token +:+ t +:+ stringToSign in
  let! sign := encryptStr signStr (secretKey creds) in
  ret [("t", VStr t); ("path", VStr url);
       ("client_id", VStr (accessKey creds)); ("sign", VStr sign);
       ("sign_method", VStr "HMAC-SHA256"); ("access_token", token)].

Definition authenticatedCall (creds : Creds) (method endpoint : string)
    (query : option loc) (body : option obj) : M value :=
  let! reqHeaders := getRequestSign creds endpoint method [] query body in
  let options_body :=
    match body with
    | Some b =>
        if String.eqb method "POST" then JSON_stringify (VObj b) else None
    | None => None
    end in
  try_catch
    (let! response :=
       fetch {| req_url := baseUrl creds +:+ endpoint;
                req_method := Some method;
                req_headers := reqHeaders;
                req_body := options_body |} in
     if negb (ok response) then
       throw (Error ("HTTP Error. Status " +:+ pretty (status response)))
     else
       let! result := response_json response in
       let! success := lift (get_prop "success" result) in
       if negb (truthy success) then
         let! msg := lift (get_prop "msg" result) in
         let! code := lift (get_prop "code" result) in
         throw (Error ("Error message: " +:+ toString msg
                       +:+ ". Error code: " +:+ toString code))
       else ret result)
    (λ error,
       let! _ := emit (ELogError error) in
       throw (Error (exn_toString error))).

(** [v === s] for a string literal [s]. *)
Definition strict_eq_str (v : value) (s : string) : bool :=
  match v with
  | VStr x => String.eqb x s
  | _ => false
  end.

(** The callback of [result.forEach] in [getDeviceStatus]; [status] is
    the record under construction. *)
Definition status_step (status : obj) (c : value) : result obj :=
  code ← get_prop "code" c;
  if strict_eq_str code "switch_led" then
    value ← get_prop "value" c;
    Ok (Object_assign status [("onOff", value)])
  else if strict_eq_str code "bright_value_v2" then
    value ← get_prop "value" c;
    Ok (Object_assign status [("brightness", value)])
  else if strict_eq_str code "temp_value_v2" then
    value ← get_prop "value" c;
    Ok (Object_assign status [("temp", value)])
  else if strict_eq_str code "colour_data_v2" then
    value ← get_prop "value" c;
    color ← JSON_parse (toString value);
    Ok (Object_assign status [("color", color)])
  else Ok status.

Fixpoint forEach_status (cs : list value) (status : obj) : result obj :=
  match cs with
  | [] => Ok status
  | c :: cs' => status' ← status_step status c; forEach_status cs' status'
  end.

Definition getDeviceStatus (creds : Creds) (deviceId : string) : M obj :=
  let endpoint := "/v1.0/devices/" +:+ deviceId +:+ "/status" in
  let method := "GET" in
  let! envelope := authenticatedCall creds method endpoint None None in
  let! result := lift (get_prop "result" envelope) in
  match result with
  | VArr cs => lift (forEach_status cs [])
  | VUndef | VNull =>
      throw (TypeError ("Cannot read properties of " +:+ toString result
                        +:+ " (reading 'forEach')"))
  | _ => throw (TypeError "result.forEach is not a function")
  end.

(** The value of a property initialised with [JSON.stringify(...)]. *)
Definition opt_value (s : option string) : value :=
  match s with
  | Some s => VStr s
  | None => VUndef
  end.

Definition turnOnOff (creds : Creds) (deviceId : string) (onOff : bool)
  : M (option string) :=
  let method := "POST" in
  let endpoint := "/v1.0/devices/" +:+ deviceId +:+ "/commands" in
  let commands :=
    VArr [VObj [("code", VStr "switch_led"); ("value", VBool onOff)]] in
  let body := [("commands", opt_value (JSON_stringify commands))] in
  let! query := alloc [] in
  let! result :=
    authenticatedCall creds method endpoint (Some query) (Some body) in
  let! _ := emit (ELogValue result) in
  ret (JSON_stringify
         (VObj [("message",
                 VStr ("The light is now "
                       +:+ (if onOff then "on" else "off")));
                ("deviceId", VStr deviceId);
                ("currentState", VBool onOff)])).

(** The three components are whatever the caller passes: the types of the
    source are erased when it runs, and nothing here checks them. *)
Definition changeColor (creds : Creds) (deviceId : string) (h s v : value)
  : M (option string) :=
  let method := "POST" in
  let endpoint := "/v1.0/devices/" +:+ deviceId +:+ "/commands" in
  let commands :=
    VArr [VObj [("code", VStr "colour_data_v2");
                ("value",
                 opt_value (JSON_stringify
                   (VObj [("h", h); ("s", s); ("v", v)])))]]
  in
  let body := [("commands", opt_value (JSON_stringify commands))] in
  let! query := alloc [] in
  let! envelope :=
    authenticatedCall creds method endpoint (Some query) (Some body) in
  let! result := lift (get_prop "result" envelope) in
  ret (JSON_stringify
         (VObj [("message", VStr "The color has changed");
                ("deviceId", VStr deviceId);
                ("currentState",
                 VStr ("h: " +:+ toString h +:+ ", s: " +:+ toString s
                       +:+ ", v: " +:+ toString v))])).

End Program.

Definition getDeviceId (roomName : string) (env : Env) : M (option string) :=
  let devices :=
    [("bedroom", BEDROOM_DEVICE_ID env);
     ("livingroom", LIVINGROOM_DEVICE_ID env);
     ("diningroom", DINNING_DEVICE_ID env);
     ("kitchen", KITCHEN_DEVICE_ID env)] in
  ret (JSON_stringify (obj_lookup roomName devices)).

(** The string methods of the engine that the tool layer calls.  What
    they do depends on the Unicode tables of the engine, so they are
    methods of a class. *)
Class StringMethods := {
  (** [s.trim()]. *)
  trim : string → string;
  (** [s.toLowerCase()]. *)
  toLowerCase : string → string;
  (** [s.replaceAll(/\s/g, '')]. *)
  replaceAll_whitespace : string → string
}.

(** The [execute] function of the [getDeviceId] tool. *)
Definition getDeviceId_execute `{StringMethods} (roomName : string)
    (env : Env) : M (option string) :=
  let roomName := replaceAll_whitespace (toLowerCase (trim roomName)) in
  let! result := getDeviceId roomName env in
  let! _ :=
    emit (ELogValue (VStr ("Room: " +:+ roomName +:+ ", DeviceID: "
                           +:+ toString (opt_value result)))) in
  ret result.

(** ** The runtime the program is run against

    [node:crypto]'s SHA-256 (FIPS 180-4) and HMAC (RFC 2104) on byte
    strings, with 32-bit words as integers and their wrap-around explicit. *)

Module SHA256.

Local Open Scope Z_scope.

Definition wrap (x : Z) : Z := x mod 2 ^ 32.
Definition add (x y : Z) : Z := wrap (x + y).
Definition rotr (n x : Z) : Z :=
  Z.lor (Z.shiftr x n) (wrap (Z.shiftl x (32 - n))).
Definition not32 (x : Z) : Z := Z.lxor x 0xFFFFFFFF.

Definition Ch (x y z : Z) : Z :=
  Z.lxor (Z.land x y) (Z.land (not32 x) z).
Definition Maj (x y z : Z) : Z :=
  Z.lxor (Z.lxor (Z.land x y) (Z.land x z)) (Z.land y z).
Definition bsig0 (x : Z) : Z :=
  Z.lxor (Z.lxor (rotr 2 x) (rotr 13 x)) (rotr 22 x).
Definition bsig1 (x : Z) : Z :=
  Z.lxor (Z.lxor (rotr 6 x) (rotr 11 x)) (rotr 25 x).
Definition ssig0 (x : Z) : Z :=
  Z.lxor (Z.lxor (rotr 7 x) (rotr 18 x)) (Z.shiftr x 3).
Definition ssig1 (x : Z) : Z :=
  Z.lxor (Z.lxor (rotr 17 x) (rotr 19 x)) (Z.shiftr x 10).

Definition round_constants : list Z :=
  [0x428A2F98; 0x71374491; 0xB5C0FBCF; 0xE9B5DBA5;
   0x3956C25B; 0x59F111F1; 0x923F82A4; 0xAB1C5ED5;
   0xD807AA98; 0x12835B01; 0x243185BE; 0x550C7DC3;
   0x72BE5D74; 0x80DEB1FE; 0x9BDC06A7; 0xC19BF174;
   0xE49B69C1; 0xEFBE4786; 0x0FC19DC6; 0x240CA1CC;
   0x2DE92C6F; 0x4A7484AA; 0x5CB0A9DC; 0x76F988DA;
   0x983E5152; 0xA831C66D; 0xB00327C8; 0xBF597FC7;
   0xC6E00BF3; 0xD5A79147; 0x06CA6351; 0x14292967;
   0x27B70A85; 0x2E1B2138; 0x4D2C6DFC; 0x53380D13;
   0x650A7354; 0x766A0ABB; 0x81C2C92E; 0x92722C85;
   0xA2BFE8A1; 0xA81A664B; 0xC24B8B70; 0xC76C51A3;
   0xD192E819; 0xD6990624; 0xF40E3585; 0x106AA070;
   0x19A4C116; 0x1E376C08; 0x2748774C; 0x34B0BCB5;
   0x391C0CB3; 0x4ED8AA4A; 0x5B9CCA4F; 0x682E6FF3;
   0x748F82EE; 0x78A5636F; 0x84C87814; 0x8CC70208;
   0x90BEFFFA; 0xA4506CEB; 0xBEF9A3F7; 0xC67178F2].

Definition initial_state : list Z :=
  [0x6A09E667; 0xBB67AE85; 0x3C6EF372; 0xA54FF53A;
   0x510E527F; 0x9B05688C; 0x1F83D9AB; 0x5BE0CD19].

Definition bytes_of_string (s : string) : list Z :=
  (λ c, Z.of_N (N_of_ascii c)) <$> list_ascii_of_string s.

(** The message, a one bit, zeros up to 56 modulo 64, and the length in
    bits on eight bytes. *)
Definition pad (msg : list Z) : list Z :=
  let len := Z.of_nat (length msg) in
  let zeros := Z.to_nat ((55 - len) mod 64) in
  msg ++ [0x80] ++ replicate zeros 0
      ++ ((λ i, (len * 8 / 2 ^ (8 * i)) mod 256) <$> [7; 6; 5; 4; 3; 2; 1; 0]).

Fixpoint words (bs : list Z) : list Z :=
  match bs with
  | a :: b :: c :: d :: bs' =>
      (((a * 256 + b) * 256 + c) * 256 + d) :: words bs'
  | _ => []
  end.

Definition at_ (w : list Z) (i : nat) : Z := default 0 (w !! i).

(** The message schedule: sixteen words of the block, then forty-eight
    derived ones. *)
Fixpoint schedule (n : nat) (w : list Z) : list Z :=
  match n with
  | O => w
  | S n' =>
      let t := length w in
      schedule n'
        (w ++ [add (add (ssig1 (at_ w (t - 2))) (at_ w (t - 7)))
                   (add (ssig0 (at_ w (t - 15))) (at_ w (t - 16)))])
  end.

Definition round (s : list Z) (kw : Z * Z) : list Z :=
  match s with
  | [a; b; c; d; e; f; g; h] =>
      let t1 := add (add (add h (bsig1 e)) (add (Ch e f g) kw.1)) kw.2 in
      let t2 := add (bsig0 a) (Maj a b c) in
      [add t1 t2; a; b; c; add d t1; e; f; g]
  | _ => s
  end.

Definition compress (s : list Z) (block : list Z) : list Z :=
  let w := schedule 48 (words block) in
  zip_with add s (foldl round s (zip round_constants w)).

Fixpoint blocks (fuel : nat) (s : list Z) (bs : list Z) : list Z :=
  match fuel, bs with
  | S fuel', _ :: _ => blocks fuel' (compress s (take 64 bs)) (drop 64 bs)
  | _, _ => s
  end.

Definition word_bytes (w : Z) : list Z :=
  [w / 2 ^ 24; (w / 2 ^ 16) mod 256; (w / 2 ^ 8) mod 256; w mod 256].

Definition digest (msg : list Z) : list Z :=
  let padded := pad msg in
  blocks (length padded) initial_state padded ≫= word_bytes.

Definition to_byte (z : Z) : Byte.byte :=
  default Byte.x00 (Byte.of_N (Z.to_N z)).

Definition sha256 (s : string) : list Byte.byte :=
  to_byte <$> digest (bytes_of_string s).

(** HMAC: a key longer than a block is hashed, then padded with zeros. *)
Definition hmac_sha256 (key msg : string) : list Byte.byte :=
  let k := bytes_of_string key in
  let k := if decide (64 < length k)%nat then digest k else k in
  let k := k ++ replicate (64 - length k) 0 in
  let inner := digest ((Z.lxor 0x36 <$> k) ++ bytes_of_string msg) in
  to_byte <$> digest ((Z.lxor 0x5C <$> k) ++ inner).

End SHA256.


(** [JSON.parse] on texts whose numbers are integers without fraction or
    exponent and whose [\u] escapes denote ASCII characters. *)

Module Json.

Definition SyntaxError (msg : string) : exn := Exn "SyntaxError" msg.

Definition is_json_space (c : ascii) : bool :=
  let n := N_of_ascii c in
  bool_decide (n = 32 ∨ n = 9 ∨ n = 10 ∨ n = 13)%N.

Fixpoint skip_ws (s : string) : string :=
  match s with
  | String c s' => if is_json_space c then skip_ws s' else s
  | EmptyString => ""
  end.

Definition hex_value (c : ascii) : option N :=
  let n := N_of_ascii c in
  if decide (48 ≤ n ≤ 57)%N then Some (n - 48)%N
  else if decide (97 ≤ n ≤ 102)%N then Some (n - 87)%N
  else if decide (65 ≤ n ≤ 70)%N then Some (n - 55)%N
  else None.

Definition unescape (c : ascii) : option ascii :=
  let n := N_of_ascii c in
  if decide (n = 34 ∨ n = 92 ∨ n = 47)%N then Some c
  else if decide (c = "b"%char) then Some "008"%char
  else if decide (c = "f"%char) then Some "012"%char
  else if decide (c = "n"%char) then Some "010"%char
  else if decide (c = "r"%char) then Some "013"%char
  else if decide (c = "t"%char) then Some "009"%char
  else None.

(** The characters of a string literal after its opening quote, and the
    text that follows the closing one. *)
Fixpoint string_literal (s : string) : option (string * string) :=
  match s with
  | EmptyString => None
  | String c s' =>
      let n := N_of_ascii c in
      if decide (n = 34)%N then Some ("", s')
      else if decide (n < 32)%N then None
      else if decide (n = 92)%N then
        match s' with
        | String "u" (String a (String b (String x (String y s'')))) =>
            match hex_value a, hex_value b, hex_value x, hex_value y with
            | Some 0%N, Some 0%N, Some hi, Some lo =>
                if decide (hi < 8)%N then
                  '(t, rest) ← string_literal s'';
                  Some (String (ascii_of_N (16 * hi + lo)) t, rest)
                else None
            | _, _, _, _ => None
            end
        | String e s'' =>
            d ← unescape e;
            '(t, rest) ← string_literal s'';
            Some (String d t, rest)
        | EmptyString => None
        end
      else
        '(t, rest) ← string_literal s';
        Some (String c t, rest)
  end.

Fixpoint digits (s : string) : string * string :=
  match s with
  | String c s' =>
      match Ascii.is_nat c with
      | Some _ => let '(d, rest) := digits s' in (String c d, rest)
      | None => ("", s)
      end
  | EmptyString => ("", "")
  end.

Definition ends_number (rest : string) : bool :=
  match rest with
  | String c _ =>
      negb (bool_decide (c = "."%char ∨ c = "e"%char ∨ c = "E"%char))
  | EmptyString => true
  end.

Definition unsigned (s : string) : option (Z * string) :=
  let '(d, rest) := digits s in
  match d with
  | EmptyString => None
  | String "0" (String _ _) => None
  | _ =>
      if ends_number rest then
        n ← digits_value 0 d; Some (Z.of_N n, rest)
      else None
  end.

Definition number (s : string) : option (Z * string) :=
  match s with
  | String "-" s' => '(n, rest) ← unsigned s'; Some ((- n)%Z, rest)
  | _ => unsigned s
  end.

Fixpoint literal (word s : string) : option string :=
  match word, s with
  | EmptyString, _ => Some s
  | String a word', String b s' =>
      if decide (a = b) then literal word' s' else None
  | _, _ => None
  end.

Definition is_quote (c : ascii) : bool := bool_decide (N_of_ascii c = 34%N).

Fixpoint parse_value (fuel : nat) (s : string) {struct fuel}
  : option (value * string) :=
  match fuel with
  | O => None
  | S n =>
      match skip_ws s with
      | EmptyString => None
      | String c rest =>
          if decide (c = "{"%char) then
            match skip_ws rest with
            | String "}" r => Some (VObj [], r)
            | _ => parse_members n rest []
            end
          else if decide (c = "["%char) then
            match skip_ws rest with
            | String "]" r => Some (VArr [], r)
            | _ => parse_elements n rest []
            end
          else if is_quote c then
            '(t, r) ← string_literal rest; Some (VStr t, r)
          else if decide (c = "t"%char) then
            r ← literal "rue" rest; Some (VBool true, r)
          else if decide (c = "f"%char) then
            r ← literal "alse" rest; Some (VBool false, r)
          else if decide (c = "n"%char) then
            r ← literal "ull" rest; Some (VNull, r)
          else
            '(z, r) ← number (String c rest); Some (VNum z, r)
      end
  end
with parse_elements (fuel : nat) (s : string) (acc : list value)
  {struct fuel} : option (value * string) :=
  match fuel with
  | O => None
  | S n =>
      '(v, rest) ← parse_value n s;
      match skip_ws rest with
      | String "," r => parse_elements n r (acc ++ [v])
      | String "]" r => Some (VArr (acc ++ [v]), r)
      | _ => None
      end
  end
with parse_members (fuel : nat) (s : string) (acc : obj)
  {struct fuel} : option (value * string) :=
  match fuel with
  | O => None
  | S n =>
      match skip_ws s with
      | String c rest =>
          if is_quote c then
            '(k, rest1) ← string_literal rest;
            match skip_ws rest1 with
            | String ":" rest2 =>
                '(v, rest3) ← parse_value n rest2;
                match skip_ws rest3 with
                | String "," r => parse_members n r (obj_set k v acc)
                | String "}" r => Some (VObj (obj_set k v acc), r)
                | _ => None
                end
            | _ => None
            end
          else None
      | EmptyString => None
      end
  end.

Definition parse (text : string) : result value :=
  match parse_value (2 * String.length text + 2) text with
  | Some (v, rest) =>
      match skip_ws rest with
      | EmptyString => Ok v
      | _ => Throw (SyntaxError "Unexpected non-whitespace character after JSON")
      end
  | None => Throw (SyntaxError "Unexpected token in JSON")
  end.

End Json.


(** Percent-escapes, and the [qs] package with its default options on flat
    queries: keys without brackets, values that are primitives. *)

Module Qs.

Definition URIError (msg : string) : exn := Exn "URIError" msg.

Definition hex_upper (n : N) : ascii := ascii_upper (hex_lower n).

Definition unreserved (c : ascii) : bool :=
  let n := N_of_ascii c in
  bool_decide ((48 ≤ n ≤ 57) ∨ (65 ≤ n ≤ 90) ∨ (97 ≤ n ≤ 122)
               ∨ n = 45 ∨ n = 46 ∨ n = 95 ∨ n = 126)%N.

Fixpoint encode (s : string) : string :=
  match s with
  | EmptyString => ""
  | String c s' =>
      if unreserved c then String c (encode s')
      else
        let n := N_of_ascii c in
        String "%" (String (hex_upper (n / 16))
                      (String (hex_upper (n mod 16)) (encode s')))
  end.

(** [decodeURIComponent], byte by byte. *)
Fixpoint decodeURIComponent (s : string) : result string :=
  match s with
  | EmptyString => Ok ""
  | String "%" (String a (String b s')) =>
      match Json.hex_value a, Json.hex_value b with
      | Some hi, Some lo =>
          t ← decodeURIComponent s';
          Ok (String (ascii_of_N (16 * hi + lo)) t)
      | _, _ => Throw (URIError "URI malformed")
      end
  | String "%" _ => Throw (URIError "URI malformed")
  | String c s' => t ← decodeURIComponent s'; Ok (String c t)
  end.

Definition plus_to_space (c : ascii) : ascii :=
  if decide (c = "+"%char) then " "%char else c.

(** The decoder of [qs.parse]: [+] is a space, and a text that does not
    decode is kept as it is. *)
Definition decode (s : string) : string :=
  let s := string_map plus_to_space s in
  match decodeURIComponent s with
  | Ok t => t
  | Throw _ => s
  end.

(** The text before the first [=], and the text after it if there is one. *)
Fixpoint cut (s : string) : string * option string :=
  match s with
  | EmptyString => ("", None)
  | String c s' =>
      if decide (c = "="%char) then ("", Some s')
      else let '(k, v) := cut s' in (String c k, v)
  end.

Definition combine (old new : value) : value :=
  match old with
  | VArr vs => VArr (vs ++ [new])
  | _ => VArr [old; new]
  end.

Definition add_pair (o : obj) (piece : string) : obj :=
  let '(k, v) := cut piece in
  let key := decode k in
  let val := VStr (decode (default "" v)) in
  if decide (key = "") then o
  else match assoc key o with
       | Some old => obj_set key (combine old val) o
       | None => obj_set key val o
       end.

Definition parse (s : option string) : obj :=
  match s with
  | None => []
  | Some s => foldl add_pair [] (split "&" s)
  end.

Definition pair (o : obj) (k : string) : option string :=
  match obj_get k o with
  | VUndef | VFun _ | VArr _ | VObj _ => None
  | VNull => Some (encode k +:+ "=")
  | v => Some (encode k +:+ "=" +:+ encode (toString v))
  end.

Definition stringify (o : obj) : string :=
  join "&" (omap (pair o) (Object_keys o)).

End Qs.

(** A cloud that answers the [n]-th request with the [n]-th entry of a
    script, and fails to connect once the script is over. *)
Fixpoint requests_so_far (tr : list event) : nat :=
  match tr with
  | [] => 0
  | EFetch _ :: tr' => S (requests_so_far tr')
  | _ :: tr' => requests_so_far tr'
  end.

Definition scripted (script : list (result Response))
  : list event → Request → result Response :=
  λ tr _, default (Throw (TypeError "fetch failed"))
                  (script !! requests_so_far tr).

Definition json_response (code : Z) (v : value) : Response :=
  {| status := code; text := default "" (JSON_stringify v) |}.

(** The string methods on ASCII text: white space is tab, line feed,
    vertical tab, form feed, carriage return and space, and the letters
    with a lower-case form are [A] to [Z].  Other bytes are left as they
    are, which is not what the engine does with the text they encode. *)

Definition ascii_whitespace (c : ascii) : bool :=
  let n := N_of_ascii c in
  bool_decide ((9 ≤ n ≤ 13)%N ∨ n = 32%N).

Fixpoint ascii_trimStart (s : string) : string :=
  match s with
  | EmptyString => ""
  | String c s' => if ascii_whitespace c then ascii_trimStart s' else s
  end.

(** Drops the white space that nothing but white space follows. *)
Fixpoint ascii_trimEnd (s : string) : string :=
  match s with
  | EmptyString => ""
  | String c s' =>
      match ascii_trimEnd s' with
      | EmptyString => if ascii_whitespace c then "" else String c ""
      | t => String c t
      end
  end.

Definition ascii_trim (s : string) : string :=
  ascii_trimEnd (ascii_trimStart s).

Definition ascii_toLowerCase : string → string := string_map ascii_lower.

Fixpoint ascii_strip (s : string) : string :=
  match s with
  | EmptyString => ""
  | String c s' =>
      if ascii_whitespace c then ascii_strip s'
      else String c (ascii_strip s')
  end.

Module Sample.

Definition creds : Creds :=
  {| accessKey := "ak"; baseUrl := "https://openapi.example";
     secretKey := "sk" |}.

Definition env : Env :=
  {| KITCHEN_DEVICE_ID := VStr "dev-kitchen";
     DINNING_DEVICE_ID := VStr "dev-dining";
     LIVINGROOM_DEVICE_ID := VStr "dev-living";
     BEDROOM_DEVICE_ID := VStr "dev-bedroom" |}.

Definition clock (n : nat) : Z := 1700000000000 + Z.of_nat n.

Definition world0 : World :=
  {| clock_reads := 0; heap := []; trace := [] |}.

Definition token_ok : Response :=
  json_response 200
    (VObj [("result", VObj [("access_token", VStr "tok-1");
                            ("expire_time", VNum 7200);
                            ("refresh_token", VStr "ref-1");
                            ("uid", VStr "u1")]);
           ("success", VBool true); ("t", VNum 1700000000123);
           ("tid", VStr "abc")]).

Definition token_refused : Response :=
  json_response 200
    (VObj [("code", VNum 1004); ("msg", VStr "invalid signature");
           ("success", VBool false); ("t", VNum 1700000000123);
           ("tid", VStr "abc")]).

Definition command_ok : Response :=
  json_response 200
    (VObj [("result", VBool true); ("success", VBool true);
           ("t", VNum 1700000000456); ("tid", VStr "def")]).

Definition command_failed : Response :=
  json_response 200
    (VObj [("code", VNum 2008); ("msg", VStr "command or value not support");
           ("success", VBool false); ("t", VNum 1700000000456);
           ("tid", VStr "def")]).

Definition server_error : Response :=
  {| status := 500; text := "<html>Internal Server Error</html>" |}.

(** A token envelope whose access token is the empty string. *)
Definition token_empty : Response :=
  json_response 200
    (VObj [("result", VObj [("access_token", VStr "");
                            ("expire_time", VNum 7200)]);
           ("success", VBool true)]).

(** A caller's heap holding the explicit query [{b: 2, a: 1}]. *)
Definition world_query : World :=
  {| clock_reads := 0; heap := [[("b", VNum 2); ("a", VNum 1)]];
     trace := [] |}.

(** The same with the keys ["10"] and ["9"]. *)
Definition world_indices : World :=
  {| clock_reads := 0; heap := [[("10", VNum 2); ("9", VNum 1)]];
     trace := [] |}.

(** The string methods above. *)
Definition strings : StringMethods :=
  {| trim := ascii_trim;
     toLowerCase := ascii_toLowerCase;
     replaceAll_whitespace := ascii_strip |}.

(** The runtime above, with a scripted cloud. *)
Definition runtime (script : list (result Response)) : Runtime :=
  {| sha256 := SHA256.sha256;
     hmac_sha256 := SHA256.hmac_sha256;
     JSON_parse := Json.parse;
     qs_parse := Qs.parse;
     qs_stringify := Qs.stringify;
     decodeURIComponent := Qs.decodeURIComponent;
     now := clock;
     network := scripted script |}.

End Sample.

(** ** Vocabulary of the statements *)

(** Setting a family of keys, each to a value that depends on the key only. *)
Definition set_all (f : string → value) (ks : list string) (o : obj) : obj :=
  foldl (λ t k, obj_set k (f k) t) o ks.

(** The sixteen upper-case hexadecimal digits. *)
Definition upper_hex_digit (n : N) : ascii :=
  match n with
  | 0 => "0" | 1 => "1" | 2 => "2" | 3 => "3" | 4 => "4" | 5 => "5"
  | 6 => "6" | 7 => "7" | 8 => "8" | 9 => "9" | 10 => "A" | 11 => "B"
  | 12 => "C" | 13 => "D" | 14 => "E" | _ => "F"
  end%char%N.

(** Upper-case hexadecimal encoding: two digits per byte, the high half
    first. *)
Fixpoint upper_hex (bs : list Byte.byte) : string :=
  match bs with
  | [] => ""
  | b :: bs' =>
      String (upper_hex_digit (Byte.to_N b / 16))
        (String (upper_hex_digit (Byte.to_N b mod 16)) (upper_hex bs'))
  end.

Definition is_upper_hex_digit (c : ascii) : Prop :=
  let n := N_of_ascii c in (48 ≤ n ≤ 57 ∨ 65 ≤ n ≤ 70)%N.

(** The three kinds of failure, as the [Error] objects that reach the
    caller. *)
Definition AuthError (msg : value) : exn :=
  Error ("Fetch failed: " +:+ toString msg).

Definition HttpError (status : Z) : exn :=
  Error ("Error: HTTP Error. Status " +:+ pretty status).

Definition ApiError (code msg : value) : exn :=
  Error ("Error: Error message: " +:+ toString msg
         +:+ ". Error code: " +:+ toString code).

(** The world after one more reading of the clock. *)
Definition tick (w : World) : World :=
  {| clock_reads := S (clock_reads w); heap := heap w; trace := trace w |}.

(** The world after more events. *)
Definition log_events (evs : list event) (w : World) : World :=
  {| clock_reads := clock_reads w; heap := heap w; trace := trace w ++ evs |}.

(** [result.access_token] of a token envelope, [undefined] without it. *)
Definition access_token_of (envelope : obj) : value :=
  match obj_get "result" envelope with
  | VObj r => obj_get "access_token" r
  | _ => VUndef
  end.

Section Requests.

Context `{Runtime}.

(** The request [getToken] sends when the clock reads [millis]. *)
Definition token_request (creds : Creds) (millis : Z) : Request :=
  {| req_url := baseUrl creds +:+ token_path;
     req_method := None;
     req_headers :=
       [("t", VStr (pretty millis));
        ("sign_method", VStr "HMAC-SHA256");
        ("client_id", VStr (accessKey creds));
        ("sign",
         VStr (upper_hex
                 (hmac_sha256 (secretKey creds)
                    (accessKey creds +:+ pretty millis
                     +:+ join newline
                           ["GET"; hex (sha256 ""); ""; token_path]))))];
     req_body := None |}.

End Requests.

(** The object [getRequestSign] works on: the caller's, or a fresh one. *)
Definition enter (query : option loc) (w : World) : loc * World :=
  match query with
  | Some l => (l, w)
  | None =>
      (length (heap w),
       {| clock_reads := clock_reads w; heap := heap w ++ [[]];
          trace := trace w |})
  end.

(** The world after [Object.assign(query, parsed)]. *)
Definition assign_at (l : loc) (parsed : obj) (w : World) : World :=
  {| clock_reads := clock_reads w;
     heap := alter (λ q, Object_assign q parsed) l (heap w);
     trace := trace w |}.

(** The object at a reference. *)
Definition deref (l : loc) (w : World) : obj := default [] (heap w !! l).

(** The keys of the merged query in sorted order, each with the value the
    merged query holds for it. *)
Definition canonical_query (merged : obj) : obj :=
  set_all (λ k, obj_get k merged)
    (merge_sort code_unit_le (Object_keys merged)) [].

Definition canonical_url (uri querystring : string) : string :=
  if decide (querystring = "") then uri else uri +:+ "?" +:+ querystring.

(** The part of the path before its first [?], and the part between the
    first and the second [?] if there is one. *)
Definition path_uri (path : string) : string :=
  default "" (split "?" path !! 0%nat).
Definition path_query (path : string) : option string :=
  split "?" path !! 1%nat.

Section Signing.

Context `{Runtime}.

Definition content_hash (method : string) (body : option obj) : string :=
  if decide (method = "GET") then hex (sha256 "")
  else hex (sha256 (default "" (JSON_stringify (VObj (default [] body))))).

Definition string_to_sign (method contentHash url : string) : string :=
  join newline [method; contentHash; ""; url].

(** The upper-case hexadecimal HMAC of
    [accessKey + token + t + stringToSign] under [secretKey]. *)
Definition signature (creds : Creds) (token : value) (t stringToSign : string)
  : string :=
  upper_hex
    (hmac_sha256 (secretKey creds)
       (accessKey creds +:+ toString token +:+ t +:+ stringToSign)).

Definition signed_headers (creds : Creds) (method : string)
    (body : option obj) (token : value) (t url : string) : obj :=
  [("t", VStr t); ("path", VStr url);
   ("client_id", VStr (accessKey creds));
   ("sign",
    VStr (signature creds token t
            (string_to_sign method (content_hash method body) url)));
   ("sign_method", VStr "HMAC-SHA256"); ("access_token", token)].

(** What [getRequestSign] does once the token request has been
    answered. *)
Definition sign_with (creds : Creds) (path method : string)
    (body : option obj) (l : loc) (t : string)
    (answer : result value * World) : result obj * World :=
  match answer with
  | (Throw e, w2) => (Throw e, w2)
  | (Ok token, w2) =>
      let w3 := assign_at l (qs_parse (path_query path)) w2 in
      match decodeURIComponent
              (qs_stringify (canonical_query (deref l w3))) with
      | Throw e => (Throw e, w3)
      | Ok querystring =>
          (Ok (signed_headers creds method body token t
                 (canonical_url (path_uri path) querystring)), w3)
      end
  end.

End Signing.

(** The request [authenticatedCall] sends once the headers are signed. *)
Definition call_request (creds : Creds) (method endpoint : string)
    (reqHeaders : obj) (body : option obj) : Request :=
  {| req_url := baseUrl creds +:+ endpoint;
     req_method := Some method;
     req_headers := reqHeaders;
     req_body :=
       match body with
       | Some b =>
           if String.eqb method "POST" then JSON_stringify (VObj b) else None
       | None => None
       end |}.

Definition commands_endpoint (deviceId : string) : string :=
  "/v1.0/devices/" +:+ deviceId +:+ "/commands".


(** The value of a successful run, [None] after a throw. *)
Definition returned {A} (r : result A * World) : option A :=
  match r.1 with
  | Ok a => Some a
  | Throw _ => None
  end.

(** The field of the status record that a platform code is decoded into. *)
Definition field_of_code (code : value) : option string :=
  if strict_eq_str code "switch_led" then Some "onOff"
  else if strict_eq_str code "bright_value_v2" then Some "brightness"
  else if strict_eq_str code "temp_value_v2" then Some "temp"
  else if strict_eq_str code "colour_data_v2" then Some "color"
  else None.

(** What is stored in a field: the value as it comes, except the colour,
    which is JSON text and is parsed. *)
Definition decoded_value `{Runtime} (field : string) (v : value)
  : result value :=
  if decide (field = "color") then JSON_parse (toString v) else Ok v.

(** The element [{code, value}] of a status list. *)
Definition status_pair (code : string) (v : value) : obj :=
  [("code", VStr code); ("value", v)].

(** The text [{"h":10,"s":500,"v":800}]. *)
Definition hsv_text : string :=
  "{" +:+ dquote +:+ "h" +:+ dquote +:+ ":10,"
  +:+ dquote +:+ "s" +:+ dquote +:+ ":500,"
  +:+ dquote +:+ "v" +:+ dquote +:+ ":800}".

Definition hsv : value := VObj [("h", VNum 10); ("s", VNum 500); ("v", VNum 800)].

(** The normalisation of the [getDeviceId] tool. *)
Definition normalize `{StringMethods} (roomName : string) : string :=
  replaceAll_whitespace (toLowerCase (trim roomName)).

(** A text of ASCII characters only. *)
Definition ascii_text (s : string) : Prop :=
  Forall (λ c, (N_of_ascii c < 128)%N) (list_ascii_of_string s).

(** What is known of the string methods of the engine: on ASCII text they
    are the ASCII ones. *)
Definition ascii_methods `{StringMethods} : Prop :=
  ∀ s, ascii_text s →
    trim s = ascii_trim s
    ∧ toLowerCase s = ascii_toLowerCase s
    ∧ replaceAll_whitespace s = ascii_strip s.

(** The integers that the engine holds exactly and prints with all their
    digits. *)
Definition safe_integer (n : Z) : Prop :=
  (- 9007199254740991 ≤ n ≤ 9007199254740991)%Z.

Definition room_names : list string :=
  ["bedroom"; "livingroom"; "diningroom"; "kitchen"].

(** The table [getDeviceId] builds from the environment. *)
Definition devices (env : Env) : obj :=
  [("bedroom", BEDROOM_DEVICE_ID env);
   ("livingroom", LIVINGROOM_DEVICE_ID env);
   ("diningroom", DINNING_DEVICE_ID env);
   ("kitchen", KITCHEN_DEVICE_ID env)].

(** The texts handed to the JSON parser, and the addresses requested, in
    the order of a trace. *)
Definition parsed_texts (tr : list event) : list string :=
  omap (λ e, match e with EJson t => Some t | _ => None end) tr.

Definition requested_urls (tr : list event) : list string :=
  omap (λ e, match e with EFetch r => Some (req_url r) | _ => None end) tr.

(** A status list in which the switch occurs twice. *)
Definition status_switched_twice : list obj :=
  [status_pair "switch_led" (VBool true);
   status_pair "bright_value_v2" (VNum 10);
   status_pair "switch_led" (VBool false)].

(** The response of the platform that carries a status list. *)
Definition status_response (cs : list obj) : Response :=
  json_response 200
    (VObj [("result", VArr (VObj <$> cs)); ("success", VBool true)]).

(** Two keys beyond ASCII: the fullwidth tilde U+FF5E, in the basic plane,
    and the face U+1F600, beyond it. *)
Definition fullwidth_tilde : string :=
  String "239" (String "189" (String "158" "")).

Definition grinning_face : string :=
  String "240" (String "159" (String "152" (String "128" ""))).


(** ** Vocabulary of the further properties *)

(** A runtime with another network. *)
Definition with_network (rt : Runtime)
    (net : list event → Request → result Response) : Runtime :=
  {| sha256 := @sha256 rt;
     hmac_sha256 := @hmac_sha256 rt;
     JSON_parse := @JSON_parse rt;
     qs_parse := @qs_parse rt;
     qs_stringify := @qs_stringify rt;
     decodeURIComponent := @decodeURIComponent rt;
     now := @now rt;
     network := net |}.

(** What [getToken] makes of the parsed body of the token response. *)
Definition token_of_envelope (res : value) : result value :=
  success ← get_prop "success" res;
  if negb (truthy success) then
    msg ← get_prop "msg" res;
    Throw (AuthError msg)
  else
    result ← get_prop "result" res;
    access_token ←
      match result with
      | VUndef | VNull => Ok VUndef
      | _ => get_prop "access_token" result
      end;
    Ok (js_or access_token (VStr "NO TOKEN")).

(** What [authenticatedCall] makes of the parsed body of a 2xx response,
    before the [catch] block. *)
Definition envelope_outcome (res : value) : result value :=
  success ← get_prop "success" res;
  if negb (truthy success) then
    msg ← get_prop "msg" res;
    code ← get_prop "code" res;
    Throw (Error ("Error message: " +:+ toString msg
                  +:+ ". Error code: " +:+ toString code))
  else Ok res.

(** The [catch] block of [authenticatedCall]: the exception is logged and
    thrown again as a plain [Error]. *)
Definition rethrown (r : result value) (w : World) : result value * World :=
  match r with
  | Ok v => (Ok v, w)
  | Throw e => (Throw (Error (exn_toString e)), log_events [ELogError e] w)
  end.

(** A parsed body that is no object and not [null]. *)
Definition not_an_object (v : value) : Prop :=
  match v with
  | VBool _ | VNum _ | VStr _ | VArr _ | VFun _ => True
  | VUndef | VNull | VObj _ => False
  end.

(** The fields of a status record. *)
Definition status_fields : list string :=
  ["onOff"; "brightness"; "temp"; "color"].

(** The text [{"h":H,"s":S,"v":V}] of a colour with integer components. *)
Definition hsv_json (h s v : Z) : string :=
  "{" +:+ json_quote "h" +:+ ":" +:+ pretty h +:+ ","
  +:+ json_quote "s" +:+ ":" +:+ pretty s +:+ ","
  +:+ json_quote "v" +:+ ":" +:+ pretty v +:+ "}".

(** The colour record with integer components. *)
Definition hsv_record (h s v : Z) : value :=
  VObj [("h", VNum h); ("s", VNum s); ("v", VNum v)].

(** Values that [JSON.stringify] writes without loss: no [undefined] and no
    function anywhere, and objects whose keys are distinct and are not
    array indices. *)
Fixpoint json_clean (v : value) : bool :=
  match v with
  | VUndef | VFun _ => false
  | VNull | VBool _ | VNum _ | VStr _ => true
  | VArr vs =>
      (fix all (l : list value) : bool :=
         match l with
         | [] => true
         | x :: l' => json_clean x && all l'
         end) vs
  | VObj ps =>
      bool_decide (NoDup ps.*1)
      && bool_decide (Forall (λ k, array_index k = None) ps.*1)
      && (fix all (l : obj) : bool :=
            match l with
            | [] => true
            | (_, x) :: l' => json_clean x && all l'
            end) ps
  end.

(** The fuel the reference parser needs for the text of a value: one unit
    for each value and one for each member or element. *)
Fixpoint json_size (v : value) : nat :=
  match v with
  | VArr vs =>
      S ((fix sum (l : list value) : nat :=
            match l with
            | [] => 0
            | x :: l' => S (json_size x) + sum l'
            end) vs)
  | VObj ps =>
      S ((fix sum (l : obj) : nat :=
            match l with
            | [] => 0
            | (_, x) :: l' => S (json_size x) + sum l'
            end) ps)
  | _ => 1
  end.

(** The text of a value, [null] standing for what has none. *)
Definition json_text (v : value) : string := default "null" (JSON_stringify v).

(** A member [key:value] of the text of an object. *)
Definition member_text (p : string * value) : string :=
  json_quote p.1 +:+ ":" +:+ json_text p.2.

Definition elements_size (vs : list value) : nat :=
  foldr (λ x n, S (json_size x) + n) 0 vs.

Definition members_size (ps : obj) : nat :=
  foldr (λ p n, S (json_size p.2) + n) 0 ps.

(** The characters a JSON text can start with. *)
Definition value_heads : list ascii :=
  ["{"; "["; "034"; "t"; "f"; "n";
   "-"; "0"; "1"; "2"; "3"; "4"; "5"; "6"; "7"; "8"; "9"]%char.

(** What follows the first string of a joined list. *)
Definition join_tail (sep : string) (l : list string) : string :=
  foldr (λ x acc, sep +:+ x +:+ acc) "" l.

(** The command lists of [turnOnOff] and of [changeColor]. *)
Definition switch_commands (onOff : bool) : list value :=
  [VObj [("code", VStr "switch_led"); ("value", VBool onOff)]].

Definition colour_commands (h s v : Z) : list value :=
  [VObj [("code", VStr "colour_data_v2");
         ("value", opt_value (JSON_stringify (hsv_record h s v)))]].

(** The request body both build around their command list. *)
Definition commands_body (commands : list value) : obj :=
  [("commands", opt_value (JSON_stringify (VArr commands)))].

(** The records whose text the two return. *)
Definition switch_confirmation (deviceId : string) (onOff : bool) : value :=
  VObj [("message",
         VStr ("The light is now " +:+ (if onOff then "on" else "off")));
        ("deviceId", VStr deviceId);
        ("currentState", VBool onOff)].

Definition colour_confirmation (deviceId : string) (h s v : Z) : value :=
  VObj [("message", VStr "The color has changed");
        ("deviceId", VStr deviceId);
        ("currentState",
         VStr ("h: " +:+ pretty h +:+ ", s: " +:+ pretty s
               +:+ ", v: " +:+ pretty v))].

Definition status_endpoint (deviceId : string) : string :=
  "/v1.0/devices/" +:+ deviceId +:+ "/status".

(** A status response that echoes a switch command and a colour command. *)
Definition echo_response (onOff : bool) (h s v : Z) : Response :=
  json_response 200
    (VObj [("result", VArr (switch_commands onOff ++ colour_commands h s v));
           ("success", VBool true)]).

(** The two commands the client can send to a device, the colour with
    integer components. *)
Inductive device_command : Type :=
  | Switch (onOff : bool)
  | Colour (h s v : Z).

Definition commands_of (c : device_command) : list value :=
  match c with
  | Switch onOff => switch_commands onOff
  | Colour h s v => colour_commands h s v
  end.

Definition run_command `{Runtime} (creds : Creds) (deviceId : string)
    (c : device_command) : M (option string) :=
  match c with
  | Switch onOff => turnOnOff creds deviceId onOff
  | Colour h s v => changeColor creds deviceId (VNum h) (VNum s) (VNum v)
  end.

(** A command whose numbers are safe integers. *)
Definition safe_command (c : device_command) : Prop :=
  match c with
  | Switch _ => True
  | Colour h s v => safe_integer h ∧ safe_integer s ∧ safe_integer v
  end.

(** A status response whose second pair holds a colour that is no JSON. *)
Definition status_broken : Response :=
  json_response 200
    (VObj [("result",
            VArr [VObj (status_pair "switch_led" (VBool true));
                  VObj (status_pair "colour_data_v2" (VStr "{h:1"));
                  VObj (status_pair "bright_value_v2" (VNum 10))]);
           ("success", VBool true)]).

(** A 2xx response whose body is the given text. *)
Definition text_response (body : string) : Response :=
  {| status := 200; text := body |}.

(** The object a run returned, the empty one if it returned none. *)
Definition returned_object (r : result value * World) : obj :=
  match r.1 with
  | Ok (VObj o) => o
  | _ => []
  end.

(** The platform accepts the request and reports that nothing was done. *)
Definition command_no_effect : Response :=
  json_response 200 (VObj [("result", VBool false); ("success", VBool true)]).

(** A device identifier with a quotation mark and a backslash in it. *)
Definition odd_device : string := "dev" +:+ dquote +:+ backslash +:+ "1".

(** What may follow the digits of a number: no further digit, and none of
    the characters that continue a fraction or an exponent. *)
Definition ends_digits (rest : string) : Prop :=
  match rest with
  | String c _ =>
      Ascii.is_nat c = None ∧ c ≠ "."%char ∧ c ≠ "e"%char ∧ c ≠ "E"%char
  | EmptyString => True
  end.

(** * Properties *)

(** ** Objects *)

Lemma assoc_None {A} k (l : list (string * A)) :
  assoc k l = None ↔ k ∉ l.*1.
Proof.
  induction l as [|[k' x] l IH]; simpl.
  - split; [intros _; apply not_elem_of_nil | done].
  - destruct (decide (k' = k)) as [->|Hne].
    + split; [done | intros H; destruct H; left].
    + rewrite IH. rewrite not_elem_of_cons. naive_solver.
Qed.

Lemma assoc_is_Some {A} k (l : list (string * A)) :
  is_Some (assoc k l) ↔ k ∈ l.*1.
Proof.
  rewrite <- not_eq_None_Some, assoc_None.
  destruct (decide (k ∈ l.*1)); naive_solver.
Qed.


Lemma obj_get_set_eq k v o : obj_get k (obj_set k v o) = v.
Proof.
  unfold obj_get.
  induction o as [|[k' x] o IH]; simpl; repeat case_decide; simplify_eq/=;
    repeat case_decide; simplify_eq/=; done.
Qed.

Lemma obj_get_set_ne k k' v o :
  k ≠ k' → obj_get k' (obj_set k v o) = obj_get k' o.
Proof.
  intros Hne. unfold obj_get.
  induction o as [|[k0 x] o IH]; simpl; repeat case_decide; simplify_eq/=;
    repeat case_decide; simplify_eq/=; done.
Qed.

Lemma obj_set_keys_in k v o : k ∈ o.*1 → (obj_set k v o).*1 = o.*1.
Proof.
  induction o as [|[k' x] o IH]; simpl; intros Hin.
  - by apply elem_of_nil in Hin.
  - case_decide; simplify_eq/=; [done|].
    apply elem_of_cons in Hin as [?|Hin]; [done|]. by rewrite IH.
Qed.

Lemma obj_set_keys_notin k v o : k ∉ o.*1 → (obj_set k v o).*1 = o.*1 ++ [k].
Proof.
  induction o as [|[k' x] o IH]; simpl; intros Hnin; [done|].
  apply not_elem_of_cons in Hnin as [Hne Hnin].
  case_decide; simplify_eq/=. by rewrite IH.
Qed.

Lemma obj_set_keys k v o :
  (obj_set k v o).*1 = if decide (k ∈ o.*1) then o.*1 else o.*1 ++ [k].
Proof.
  case_decide; [by apply obj_set_keys_in | by apply obj_set_keys_notin].
Qed.

Lemma obj_set_elem_of k k' v o :
  k' ∈ (obj_set k v o).*1 ↔ k' = k ∨ k' ∈ o.*1.
Proof.
  rewrite obj_set_keys. destruct (decide (k ∈ o.*1)).
  - naive_solver.
  - rewrite elem_of_app, list_elem_of_singleton. naive_solver.
Qed.

Lemma obj_set_NoDup k v o : NoDup o.*1 → NoDup (obj_set k v o).*1.
Proof.
  intros Hnd. rewrite obj_set_keys. destruct (decide (k ∈ o.*1)); [done|].
  apply NoDup_app. split_and!; [done | | apply NoDup_singleton].
  intros x Hx Hx'. apply list_elem_of_singleton in Hx' as ->. done.
Qed.

Lemma array_index_pretty k n : array_index k = Some n → pretty n = k.
Proof.
  unfold array_index. destruct k; [done|].
  destruct (digits_value _ _); [|done].
  case_decide; naive_solver.
Qed.

Lemma elem_of_Object_keys k o : k ∈ Object_keys o ↔ k ∈ o.*1.
Proof.
  unfold Object_keys. rewrite elem_of_app, list_elem_of_fmap, list_elem_of_filter.
  setoid_rewrite merge_sort_Permutation. setoid_rewrite list_elem_of_omap.
  split.
  - intros [(n & -> & k' & Hk' & Hn)|[_ H]]; [|done].
    by rewrite (array_index_pretty _ _ Hn).
  - intros Hk. destruct (array_index k) as [n|] eqn:Hn.
    + left. exists n. split; [by rewrite (array_index_pretty _ _ Hn)|].
      by exists k.
    + by right.
Qed.

Lemma Object_keys_plain o :
  Forall (λ k, array_index k = None) o.*1 → Object_keys o = o.*1.
Proof.
  unfold Object_keys. generalize (o.*1). intros ks Hks.
  assert (omap array_index ks = []) as ->.
  { induction Hks as [|k ks Hk _ IH]; simpl; [done|]. by rewrite Hk. }
  simpl. induction Hks as [|k ks Hk _ IH]; [done|].
  rewrite filter_cons_True by done. by rewrite IH.
Qed.


Lemma set_all_get_notin f ks o k :
  k ∉ ks → obj_get k (set_all f ks o) = obj_get k o.
Proof.
  unfold set_all. revert o. induction ks as [|k' ks IH]; simpl; intros o Hk.
  - done.
  - apply not_elem_of_cons in Hk as [Hne Hk].
    rewrite IH by done. by apply obj_get_set_ne.
Qed.

Lemma set_all_get_in f ks o k : k ∈ ks → obj_get k (set_all f ks o) = f k.
Proof.
  revert o. induction ks as [|k' ks IH]; intros o Hin.
  - by apply elem_of_nil in Hin.
  - destruct (decide (k ∈ ks)) as [Hks|Hks]; [by apply (IH _ Hks)|].
    apply elem_of_cons in Hin as [->|Hin]; [|done].
    change (set_all f (k' :: ks) o) with (set_all f ks (obj_set k' (f k') o)).
    rewrite set_all_get_notin by done. apply obj_get_set_eq.
Qed.

Lemma set_all_elem_of f ks o k :
  k ∈ (set_all f ks o).*1 ↔ k ∈ ks ∨ k ∈ o.*1.
Proof.
  unfold set_all. revert o. induction ks as [|k' ks IH]; simpl; intros o.
  - rewrite elem_of_nil. tauto.
  - rewrite IH, obj_set_elem_of, elem_of_cons. tauto.
Qed.



Lemma Object_assign_set_all target source :
  Object_assign target source
  = set_all (λ k, obj_get k source) (Object_keys source) target.
Proof. reflexivity. Qed.

Lemma Object_assign_get target source k :
  obj_get k (Object_assign target source)
  = if decide (k ∈ source.*1) then obj_get k source else obj_get k target.
Proof.
  rewrite Object_assign_set_all. case_decide as Hk.
  - apply (set_all_get_in (λ k, obj_get k source)). by apply elem_of_Object_keys.
  - apply set_all_get_notin. by rewrite elem_of_Object_keys.
Qed.

Lemma Object_assign_elem_of target source k :
  k ∈ (Object_assign target source).*1 ↔ k ∈ source.*1 ∨ k ∈ target.*1.
Proof.
  by rewrite Object_assign_set_all, set_all_elem_of, elem_of_Object_keys.
Qed.


Lemma Object_assign_single target k v :
  array_index k = None →
  Object_assign target [(k, v)] = obj_set k v target.
Proof.
  intros Hk. unfold Object_assign.
  rewrite Object_keys_plain by (repeat constructor; done).
  simpl. unfold obj_get. simpl. by rewrite decide_True.
Qed.


Lemma obj_get_notin k o : k ∉ o.*1 → obj_get k o = VUndef.
Proof. intros Hk. unfold obj_get. by rewrite (proj2 (assoc_None k o) Hk). Qed.

(** ** Sorting keys *)











(** ** Running computations *)

Lemma bind_Ok {A B} (c : M A) (k : A → M B) w a w' :
  c w = (Ok a, w') → bind c k w = k a w'.
Proof. unfold bind. by intros ->. Qed.

Lemma bind_Throw {A B} (c : M A) (k : A → M B) w e w' :
  c w = (Throw e, w') → bind c k w = (Throw e, w').
Proof. unfold bind. by intros ->. Qed.

Lemma bind_inv_Ok {A B} (c : M A) (k : A → M B) w b w' :
  bind c k w = (Ok b, w') →
  ∃ a w1, c w = (Ok a, w1) ∧ k a w1 = (Ok b, w').
Proof.
  unfold bind. destruct (c w) as [[a|e] w1]; [|done].
  intros H. by exists a, w1.
Qed.

(** ** Hexadecimal *)

Lemma upper_of_hex_lower n : ascii_upper (hex_lower n) = upper_hex_digit n.
Proof.
  destruct n as [|p]; [reflexivity|].
  do 5 (try destruct p as [p|p|]); reflexivity.
Qed.

Lemma toUpperCase_hex bs : toUpperCase (hex bs) = upper_hex bs.
Proof.
  induction bs as [|b bs IH]; [reflexivity|].
  change (toUpperCase (hex (b :: bs)))
    with (String (ascii_upper (hex_lower (Byte.to_N b / 16)))
            (String (ascii_upper (hex_lower (Byte.to_N b mod 16)))
               (toUpperCase (hex bs)))).
  rewrite !upper_of_hex_lower, IH. reflexivity.
Qed.

Lemma upper_hex_digit_range n : is_upper_hex_digit (upper_hex_digit n).
Proof.
  unfold is_upper_hex_digit.
  destruct n as [|p]; [cbn; lia|].
  do 5 (try destruct p as [p|p|]); cbn; lia.
Qed.

Lemma upper_hex_length bs : String.length (upper_hex bs) = 2 * length bs.
Proof. induction bs as [|b bs IH]; simpl; [done|]. rewrite IH. lia. Qed.

Lemma upper_hex_digits bs :
  Forall is_upper_hex_digit (list_ascii_of_string (upper_hex bs)).
Proof.
  induction bs as [|b bs IH]; simpl; [constructor|].
  constructor; [apply upper_hex_digit_range|].
  constructor; [apply upper_hex_digit_range | exact IH].
Qed.

(** ** The token acquirer and the request signer *)

Section Runs.

Context `{Runtime}.

Lemma getToken_run creds w resp e :
  network (trace w) (token_request creds (now (clock_reads w))) = Ok resp →
  JSON_parse (text resp) = Ok (VObj e) →
  getToken creds w
  = (if truthy (obj_get "success" e)
     then Ok (js_or (access_token_of e) (VStr "NO TOKEN"))
     else Throw (AuthError (obj_get "msg" e)),
     log_events
       [EFetch (token_request creds (now (clock_reads w)));
        EJson (text resp)] (tick w)).
Proof.
  intros Hnet Hparse.
  cbv beta zeta delta
    [getToken Date_now encryptStr fetch response_json emit lift bind ret
     throw].
  cbv beta iota zeta. rewrite toUpperCase_hex.
  cbv beta iota zeta delta [token_request] in Hnet.
  cbn [clock_reads trace heap].
  rewrite Hnet. cbv beta iota. cbn [trace heap clock_reads].
  rewrite Hparse. cbv beta iota. cbn [get_prop].
  cbv beta iota.
  unfold log_events, tick, token_request, AuthError, access_token_of.
  cbn [trace heap clock_reads]. rewrite <- app_assoc.
  destruct (truthy (obj_get "success" e)); cbn [negb]; [|reflexivity].
  destruct (obj_get "result" e); reflexivity.
Qed.



Lemma copy_sorted_run l keys acc w :
  copy_sorted l keys acc w
  = (Ok (set_all (λ k, obj_get k (deref l w)) keys acc), w).
Proof.
  revert acc. induction keys as [|k keys IH]; intros acc; [reflexivity|].
  cbn [copy_sorted]. unfold bind, read at 1. cbv beta iota. apply IH.
Qed.

Lemma getRequestSign_run creds path method headers query body w :
  getRequestSign creds path method headers query body w
  = let '(l, w0) := enter query w in
    sign_with creds path method body l (pretty (now (clock_reads w0)))
      (getToken creds (tick w0)).
Proof.
  unfold getRequestSign.
  assert ((match query with Some l => ret l | None => alloc [] end) w
          = (Ok (enter query w).1, (enter query w).2)) as Henter.
  { destruct query; reflexivity. }
  rewrite (bind_Ok _ _ _ _ _ Henter).
  destruct (enter query w) as [l w0]. cbn [fst snd].
  unfold bind at 1. unfold Date_now at 1. cbv beta iota zeta.
  fold (tick w0).
  unfold bind at 1. unfold sign_with.
  destruct (getToken creds (tick w0)) as [[token|e] w2]; [|reflexivity].
  unfold bind at 1. unfold modify at 1. cbv beta iota.
  fold (assign_at l (qs_parse (split "?" path !! 1%nat)) w2).
  fold (path_query path).
  set (w3 := assign_at l (qs_parse (path_query path)) w2).
  unfold bind at 1. unfold read at 1. cbv beta iota. fold (deref l w3).
  unfold bind at 1. rewrite copy_sorted_run. cbv beta iota.
  fold (canonical_query (deref l w3)).
  unfold bind at 1. unfold lift at 1.
  destruct (decodeURIComponent _) as [querystring|e]; [|reflexivity].
  cbv beta iota.
  assert ((if truthy (VStr querystring)
           then default "" (split "?" path !! 0%nat) +:+ "?" +:+ querystring
           else default "" (split "?" path !! 0%nat))
          = canonical_url (path_uri path) querystring) as ->.
  { unfold canonical_url, path_uri. by destruct querystring. }
  assert ((if negb (method =? "GET")%string
           then
             let! data :=
               lift (update_arg (JSON_stringify (VObj (default [] body))))
             in ret (hex (sha256 data))
           else ret (hex (sha256 ""))) w3
          = (Ok (content_hash method body), w3)) as Hhash.
  { unfold content_hash.
    destruct (String.eqb_spec method "GET") as [->|Hne]; cbn [negb].
    - by rewrite decide_True.
    - rewrite decide_False by done. reflexivity. }
  rewrite (bind_Ok _ _ _ _ _ Hhash).
  unfold bind, encryptStr, ret. rewrite toUpperCase_hex. reflexivity.
Qed.

(** Acquiring a token reads the clock once and adds events; it does not
    touch the heap. *)
Lemma getToken_world creds w :
  ∃ evs, (getToken creds w).2 = log_events evs (tick w).
Proof.
  cbv beta zeta delta
    [getToken Date_now encryptStr fetch response_json emit lift bind ret
     throw].
  cbv beta iota zeta. cbn [clock_reads trace heap].
  destruct (network _ _) as [resp|e0]; cbv beta iota;
    [|by eexists [_]].
  cbn [clock_reads trace heap]. rewrite <- app_assoc.
  destruct (JSON_parse _) as [res|e1]; cbv beta iota; [|by eexists [_; _]].
  destruct (get_prop "success" res) as [success|e2]; cbv beta iota;
    [|by eexists [_; _]].
  destruct (negb (truthy success)).
  - destruct (get_prop "msg" res); by eexists [_; _].
  - destruct (get_prop "result" res) as [r|e3]; [|by eexists [_; _]].
    cbv beta iota.
    destruct r; cbn; by eexists [_; _].
Qed.

Lemma getRequestSign_token_Throw creds path method headers l body w e w' :
  getToken creds (tick w) = (Throw e, w') →
  getRequestSign creds path method headers (Some l) body w = (Throw e, w').
Proof.
  intros Htoken. rewrite getRequestSign_run. cbn [enter].
  by rewrite Htoken.
Qed.

(** A refused token leaves the caller's objects as they were. *)
Lemma getRequestSign_token_Throw_heap creds path method headers l body w e w' :
  getToken creds (tick w) = (Throw e, w') →
  heap (getRequestSign creds path method headers (Some l) body w).2 = heap w.
Proof.
  intros Htoken.
  rewrite (getRequestSign_token_Throw _ _ _ _ _ _ _ _ _ Htoken). cbn [snd].
  destruct (getToken_world creds (tick w)) as [evs Hw].
  rewrite Htoken in Hw. cbn [snd] in Hw. by rewrite Hw.
Qed.

Lemma authenticatedCall_heap creds method endpoint query body w hdrs w1 :
  getRequestSign creds endpoint method [] query body w = (Ok hdrs, w1) →
  heap (authenticatedCall creds method endpoint query body w).2 = heap w1.
Proof.
  intros Hsign. unfold authenticatedCall. rewrite (bind_Ok _ _ _ _ _ Hsign).
  unfold try_catch, bind at 1, fetch at 1.
  destruct (network _ _) as [resp|e0]; cbv beta iota; [|reflexivity].
  destruct (negb (ok resp)); [reflexivity|].
  unfold bind at 1, response_json, bind at 1, emit at 1, lift at 1.
  cbv beta iota.
  destruct (JSON_parse _) as [res|e1]; cbv beta iota; [|reflexivity].
  unfold bind at 1, lift at 1.
  destruct (get_prop "success" res) as [success|e2]; cbv beta iota;
    [|reflexivity].
  destruct (negb (truthy success)); [|reflexivity].
  unfold bind at 1, lift at 1.
  destruct (get_prop "msg" res); cbv beta iota; [|reflexivity].
  unfold bind at 1, lift at 1.
  destruct (get_prop "code" res); reflexivity.
Qed.

End Runs.

(** ** Decoding a status list *)

Section Status.

Context `{Runtime}.

Lemma status_step_obj status o :
  status_step status (VObj o)
  = match field_of_code (obj_get "code" o) with
    | Some field =>
        v ← decoded_value field (obj_get "value" o);
        Ok (obj_set field v status)
    | None => Ok status
    end.
Proof.
  unfold status_step, field_of_code. cbn [get_prop mbind result_bind].
  destruct (strict_eq_str (obj_get "code" o) "switch_led").
  { by rewrite Object_assign_single. }
  destruct (strict_eq_str (obj_get "code" o) "bright_value_v2").
  { by rewrite Object_assign_single. }
  destruct (strict_eq_str (obj_get "code" o) "temp_value_v2").
  { by rewrite Object_assign_single. }
  destruct (strict_eq_str (obj_get "code" o) "colour_data_v2"); [|done].
  unfold decoded_value. rewrite decide_True by done.
  destruct (JSON_parse _); [|done].
  cbn [mbind result_bind]. by rewrite Object_assign_single.
Qed.

Lemma status_step_plain status code field v :
  field_of_code (VStr code) = Some field →
  field ≠ "color" →
  status_step status (VObj (status_pair code v))
  = Ok (obj_set field v status).
Proof.
  intros Hfield Hne. rewrite status_step_obj.
  change (obj_get "code" (status_pair code v)) with (VStr code).
  change (obj_get "value" (status_pair code v)) with v.
  rewrite Hfield. unfold decoded_value. by rewrite decide_False.
Qed.

Lemma status_step_colour status v :
  status_step status (VObj (status_pair "colour_data_v2" v))
  = (color ← JSON_parse (toString v); Ok (obj_set "color" color status)).
Proof. by rewrite status_step_obj. Qed.

Lemma forEach_status_app cs1 cs2 status :
  forEach_status (cs1 ++ cs2) status
  = status' ← forEach_status cs1 status; forEach_status cs2 status'.
Proof.
  revert status. induction cs1 as [|c cs1 IH]; intros status; [done|].
  cbn [app forEach_status]. destruct (status_step status c); [|done].
  cbn [mbind result_bind]. apply IH.
Qed.

Lemma status_step_keys status o status' field :
  status_step status (VObj o) = Ok status' →
  field ∈ status'.*1
  ↔ field ∈ status.*1 ∨ field_of_code (obj_get "code" o) = Some field.
Proof.
  rewrite status_step_obj.
  destruct (field_of_code (obj_get "code" o)) as [f|].
  - destruct (decoded_value f _) as [v|]; [|done].
    cbn [mbind result_bind]. intros [= <-].
    rewrite obj_set_elem_of. naive_solver.
  - intros [= <-]. naive_solver.
Qed.

Lemma status_step_get_other status o status' field :
  status_step status (VObj o) = Ok status' →
  field_of_code (obj_get "code" o) ≠ Some field →
  obj_get field status' = obj_get field status.
Proof.
  rewrite status_step_obj.
  destruct (field_of_code (obj_get "code" o)) as [f|].
  - destruct (decoded_value f _) as [v|]; [|done].
    cbn [mbind result_bind]. intros [= <-] Hne.
    apply obj_get_set_ne. congruence.
  - by intros [= <-].
Qed.

Lemma forEach_status_keys cs status status' field :
  forEach_status (VObj <$> cs) status = Ok status' →
  field ∈ status'.*1
  ↔ field ∈ status.*1
    ∨ ∃ o, o ∈ cs ∧ field_of_code (obj_get "code" o) = Some field.
Proof.
  revert status. induction cs as [|o cs IH]; intros status.
  - intros [= <-]. split; [by left|]. intros [?|(o & Ho & _)]; [done|].
    by apply elem_of_nil in Ho.
  - cbn [fmap list_fmap forEach_status].
    destruct (status_step status (VObj o)) as [s1|] eqn:Hstep; [|done].
    cbn [mbind result_bind]. intros Hrest.
    rewrite (IH _ Hrest), (status_step_keys _ _ _ _ Hstep).
    setoid_rewrite elem_of_cons. naive_solver.
Qed.

Lemma forEach_status_get_other cs status status' field :
  forEach_status (VObj <$> cs) status = Ok status' →
  (∀ o, o ∈ cs → field_of_code (obj_get "code" o) ≠ Some field) →
  obj_get field status' = obj_get field status.
Proof.
  revert status. induction cs as [|o cs IH]; intros status.
  - by intros [= <-].
  - cbn [fmap list_fmap forEach_status].
    destruct (status_step status (VObj o)) as [s1|] eqn:Hstep; [|done].
    cbn [mbind result_bind]. intros Hrest Hother.
    rewrite (IH _ Hrest) by (intros o' Ho'; apply Hother; by right).
    apply (status_step_get_other _ _ _ _ Hstep), Hother. left.
Qed.

End Status.

(** ** Room names *)

Lemma is_whitespace_lower c : ascii_whitespace (ascii_lower c) = ascii_whitespace c.
Proof. destruct c as [[] [] [] [] [] [] [] []]; reflexivity. Qed.

Lemma ascii_lower_idemp c : ascii_lower (ascii_lower c) = ascii_lower c.
Proof. destruct c as [[] [] [] [] [] [] [] []]; reflexivity. Qed.

Lemma strip_lower_trimStart s :
  ascii_strip (ascii_toLowerCase (ascii_trimStart s))
  = ascii_strip (ascii_toLowerCase s).
Proof.
  induction s as [|c s IH]; [done|].
  cbn [ascii_trimStart]. destruct (ascii_whitespace c) eqn:Hc; [|done].
  rewrite IH. cbn [ascii_toLowerCase string_map ascii_strip].
  by rewrite is_whitespace_lower, Hc.
Qed.

Lemma strip_lower_trimEnd s :
  ascii_strip (ascii_toLowerCase (ascii_trimEnd s))
  = ascii_strip (ascii_toLowerCase s).
Proof.
  induction s as [|c s IH]; [done|].
  cbn [ascii_trimEnd]. cbn [ascii_toLowerCase string_map ascii_strip].
  fold (ascii_toLowerCase s). rewrite <- IH.
  destruct (ascii_trimEnd s) as [|c' t].
  - destruct (ascii_whitespace c) eqn:Hc.
    + cbn. by rewrite is_whitespace_lower, Hc.
    + cbn. by rewrite is_whitespace_lower, Hc.
  - reflexivity.
Qed.

Lemma strip_lower_trim s :
  ascii_strip (ascii_toLowerCase (ascii_trim s))
  = ascii_strip (ascii_toLowerCase s).
Proof.
  unfold ascii_trim. by rewrite strip_lower_trimEnd, strip_lower_trimStart.
Qed.

Lemma ascii_text_cons c s :
  ascii_text (String c s) ↔ (N_of_ascii c < 128)%N ∧ ascii_text s.
Proof.
  unfold ascii_text. cbn [list_ascii_of_string].
  apply (Forall_cons (λ x, (N_of_ascii x < 128)%N)).
Qed.

Lemma ascii_text_trimStart s : ascii_text s → ascii_text (ascii_trimStart s).
Proof.
  induction s as [|c s IH]; [done|]. intros Hs. cbn [ascii_trimStart].
  destruct (ascii_whitespace c); [|done].
  apply IH. by apply ascii_text_cons in Hs as [_ ?].
Qed.

Lemma ascii_text_trimEnd s : ascii_text s → ascii_text (ascii_trimEnd s).
Proof.
  induction s as [|c s IH]; [done|].
  intros [Hc Hs]%ascii_text_cons. cbn [ascii_trimEnd].
  specialize (IH Hs). destruct (ascii_trimEnd s) as [|c' t].
  - destruct (ascii_whitespace c); [done|]. by apply ascii_text_cons.
  - by apply ascii_text_cons.
Qed.

Lemma ascii_lower_ascii c :
  (N_of_ascii c < 128)%N → (N_of_ascii (ascii_lower c) < 128)%N.
Proof. destruct c as [[] [] [] [] [] [] [] []]; vm_compute; done. Qed.

Lemma ascii_text_toLowerCase s :
  ascii_text s → ascii_text (ascii_toLowerCase s).
Proof.
  induction s as [|c s IH]; [done|].
  intros [Hc Hs]%ascii_text_cons.
  cbn [ascii_toLowerCase string_map]. apply ascii_text_cons.
  split; [by apply ascii_lower_ascii | by apply IH].
Qed.

Lemma ascii_text_strip s : ascii_text s → ascii_text (ascii_strip s).
Proof.
  induction s as [|c s IH]; [done|].
  intros [Hc Hs]%ascii_text_cons. cbn [ascii_strip].
  destruct (ascii_whitespace c); [by apply IH|].
  apply ascii_text_cons. split; [done | by apply IH].
Qed.

Lemma ascii_text_app a b : ascii_text a → ascii_text b → ascii_text (a +:+ b).
Proof.
  intros Ha Hb. induction a as [|c a IH]; [done|].
  apply ascii_text_cons in Ha as [Hc Ha].
  change (String c a +:+ b) with (String c (a +:+ b)).
  apply ascii_text_cons. split; [done | by apply IH].
Qed.

(** On an ASCII name the normalisation is the ASCII one, and the trimming
    adds nothing to the removal of white space. *)
Lemma normalize_ascii `{StringMethods} s :
  ascii_methods → ascii_text s →
  normalize s = ascii_strip (ascii_toLowerCase s).
Proof.
  intros Hm Hs. unfold normalize.
  destruct (Hm s Hs) as (-> & _ & _).
  assert (ascii_text (ascii_trim s)) as Ht
    by by apply ascii_text_trimEnd, ascii_text_trimStart.
  destruct (Hm _ Ht) as (_ & -> & _).
  destruct (Hm _ (ascii_text_toLowerCase _ Ht)) as (_ & _ & ->).
  apply strip_lower_trim.
Qed.

Lemma ascii_methods_sample : @ascii_methods Sample.strings.
Proof. intros s _. done. Qed.

Lemma strip_whitespace_clean s :
  Forall (λ c, ascii_whitespace c = false ∧ ascii_lower c = c)
    (list_ascii_of_string (ascii_strip (ascii_toLowerCase s))).
Proof.
  induction s as [|c s IH]; [constructor|].
  cbn [ascii_toLowerCase string_map ascii_strip]. fold (ascii_toLowerCase s).
  destruct (ascii_whitespace (ascii_lower c)) eqn:Hc; [done|].
  cbn [list_ascii_of_string]. constructor; [|done].
  split; [done | apply ascii_lower_idemp].
Qed.

Lemma obj_lookup_unknown env k :
  k ∉ room_names → k ≠ "__proto__" →
  JSON_stringify (obj_lookup k (devices env)) = None.
Proof.
  unfold room_names. rewrite !not_elem_of_cons.
  intros (H1 & H2 & H3 & H4 & _) Hproto.
  unfold obj_lookup, devices. cbn [assoc].
  rewrite !decide_False by done. unfold Object_prototype.
  rewrite decide_False by done. by case_decide.
Qed.

(** ** Percent-escapes *)

Lemma decode_encode_char c rest :
  Qs.decodeURIComponent (Qs.encode (String c "") +:+ rest)
  = (t ← Qs.decodeURIComponent rest; Ok (String c t)).
Proof. destruct c as [[] [] [] [] [] [] [] []]; reflexivity. Qed.

Lemma encode_cons c s :
  Qs.encode (String c s) = Qs.encode (String c "") +:+ Qs.encode s.
Proof.
  cbn [Qs.encode]. by destruct (Qs.unreserved c).
Qed.

(** Decoding undoes the encoding of [qs.stringify]. *)
Lemma decodeURIComponent_encode s :
  Qs.decodeURIComponent (Qs.encode s) = Ok s.
Proof.
  induction s as [|c s IH]; [reflexivity|].
  by rewrite encode_cons, decode_encode_char, IH.
Qed.

(** ** The signer *)

(** C8. For every message and secret, [encryptStr] returns the upper-case
    hexadecimal encoding of the HMAC-SHA256 digest of the message keyed by
    the secret: it never throws, it leaves the world as it found it, and
    its result depends on the two strings only, so that running it again
    gives the same signature. *)
Theorem encryptStr_upper_hex_of_hmac `{Runtime}
    (message secret : string) (w : World) :
  encryptStr message secret w
    = (Ok (upper_hex (hmac_sha256 secret message)), w)
  ∧ (∀ w', (encryptStr message secret w').1 = (encryptStr message secret w).1)
  ∧ String.length (upper_hex (hmac_sha256 secret message))
    = 2 * length (hmac_sha256 secret message)
  ∧ Forall is_upper_hex_digit
      (list_ascii_of_string (upper_hex (hmac_sha256 secret message))).
Proof.
  unfold encryptStr, ret. rewrite toUpperCase_hex.
  split_and!; [reflexivity | reflexivity | apply upper_hex_length
              | apply upper_hex_digits].
Qed.

(** RFC 4231, test case 2, through the signer. *)
Example encryptStr_rfc4231 :
  (@encryptStr (Sample.runtime []) "what do ya want for nothing?" "Jefe"
     Sample.world0).1
  = Ok "5BDCC146BF60754E6A042426089575C75A003F089D2739839DEC58B964EC3843".
Proof. vm_compute. reflexivity. Qed.

Example sha256_empty :
  hex (SHA256.sha256 "")
  = "e3b0c44298fc1c149afbf4c8996fb92427ae41e4649b934ca495991b7852b855".
Proof. vm_compute. reflexivity. Qed.

Example sha256_abc :
  hex (SHA256.sha256 "abc")
  = "ba7816bf8f01cfea414140de5dae2223b00361a396177a9cb410ff61f20015ad".
Proof. vm_compute. reflexivity. Qed.


(** ** The token acquirer *)

Section Token.

Context `{Runtime}.

(** C4, amended. When the token endpoint answers with an envelope whose
    [success] is the boolean [b], [getToken] fails exactly when [b] is
    false, with the error that carries the platform's message; when [b] is
    true it returns [result.access_token] if that is a non-empty string,
    and the sentinel "NO TOKEN" if the token is absent or empty. *)
Theorem getToken_token_or_sentinel creds w resp e (b : bool) :
  network (trace w) (token_request creds (now (clock_reads w))) = Ok resp →
  JSON_parse (text resp) = Ok (VObj e) →
  obj_get "success" e = VBool b →
  ((∃ x, (getToken creds w).1 = Throw x) ↔ b = false)
  ∧ (b = false →
     (getToken creds w).1 = Throw (AuthError (obj_get "msg" e)))
  ∧ (b = true → ∀ s, access_token_of e = VStr s → s ≠ "" →
     (getToken creds w).1 = Ok (VStr s))
  ∧ (b = true → access_token_of e = VUndef ∨ access_token_of e = VStr "" →
     (getToken creds w).1 = Ok (VStr "NO TOKEN")).
Proof.
  intros Hnet Hparse Hsuccess.
  rewrite (getToken_run _ _ _ _ Hnet Hparse), Hsuccess. cbn [truthy fst].
  split_and!.
  - destruct b; split; try done. intros [x Hx]. done.
    intros _. by eexists.
  - by intros ->.
  - intros -> s -> Hs. unfold js_or. cbn [truthy].
    by destruct s.
  - intros -> [-> | ->]; reflexivity.
Qed.

End Token.

(** ** The request signer *)

Section Signer.

Context `{Runtime}.

(** C9. When [getRequestSign] returns, the object the caller passed as
    [query] has been changed in place: it holds every key parsed from the
    query string of the path, with the parsed value (which replaces the
    caller's on a collision), next to the caller's other keys; no other
    object has changed.  [authenticatedCall] passes its own [query] on and
    leaves the heap as [getRequestSign] left it, so its caller sees the
    change. *)
Theorem getRequestSign_mutates_query
    creds path method headers l body w reqHeaders w' q :
  heap w !! l = Some q →
  getRequestSign creds path method headers (Some l) body w
    = (Ok reqHeaders, w') →
  let parsed := qs_parse (path_query path) in
  heap w' !! l = Some (Object_assign q parsed)
  ∧ (∀ k, k ∈ parsed.*1 →
       k ∈ (Object_assign q parsed).*1
       ∧ obj_get k (Object_assign q parsed) = obj_get k parsed)
  ∧ (∀ k, k ∉ parsed.*1 →
       (k ∈ (Object_assign q parsed).*1 ↔ k ∈ q.*1)
       ∧ obj_get k (Object_assign q parsed) = obj_get k q)
  ∧ (∀ l', l' ≠ l → heap w' !! l' = heap w !! l')
  ∧ heap (authenticatedCall creds method path (Some l) body w).2 !! l
    = Some (Object_assign q parsed).
Proof.
  intros Hq Hsign parsed.
  assert (heap w' = alter (λ q, Object_assign q parsed) l (heap w)) as Hheap.
  { rewrite getRequestSign_run in Hsign. cbn [enter] in Hsign.
    destruct (getToken_world creds (tick w)) as [evs Hw2].
    destruct (getToken creds (tick w)) as [[token|e] w2]; [|done].
    cbn [snd] in Hw2. subst w2. cbn [sign_with] in Hsign.
    destruct (decodeURIComponent _); [|done].
    by injection Hsign as _ <-. }
  split_and!.
  - rewrite Hheap, list_lookup_alter_eq, Hq. reflexivity.
  - intros k Hk. split; [apply Object_assign_elem_of; by left|].
    rewrite Object_assign_get. by rewrite decide_True.
  - intros k Hk. split; [rewrite Object_assign_elem_of; tauto|].
    rewrite Object_assign_get. by rewrite decide_False.
  - intros l' Hl'. rewrite Hheap. by apply list_lookup_alter_ne.
  - change (getRequestSign creds path method [] (Some l) body w
            = (Ok reqHeaders, w')) in Hsign.
    rewrite (authenticatedCall_heap _ _ _ _ _ _ _ _ Hsign).
    rewrite Hheap, list_lookup_alter_eq, Hq. reflexivity.
Qed.


(** C3. In the headers [getRequestSign] returns, [sign] is the upper-case
    hexadecimal HMAC under [secretKey] of
    [accessKey + token + timestamp + stringToSign], where the timestamp is
    the clock reading returned as [t], the token is the one returned as
    [access_token], and [stringToSign] joins method, content hash, the
    empty string and the canonical URL returned as [path] with line feeds.
    The content hash is the SHA-256 of the empty string when the method is
    GET, whatever the body and the query, and the SHA-256 of the JSON text
    of the body for every other method. *)
Theorem getRequestSign_signature
    creds path method headers query body w reqHeaders w' :
  getRequestSign creds path method headers query body w
    = (Ok reqHeaders, w') →
  let contentHash :=
    if decide (method = "GET") then hex (sha256 "")
    else hex (sha256 (default "" (JSON_stringify (VObj (default [] body)))))
  in
  let timestamp := pretty (now (clock_reads w)) in
  (∃ url,
     obj_get "t" reqHeaders = VStr timestamp
     ∧ obj_get "path" reqHeaders = VStr url
     ∧ obj_get "client_id" reqHeaders = VStr (accessKey creds)
     ∧ obj_get "sign_method" reqHeaders = VStr "HMAC-SHA256"
     ∧ obj_get "sign" reqHeaders
       = VStr (upper_hex
                 (hmac_sha256 (secretKey creds)
                    (accessKey creds
                     +:+ toString (obj_get "access_token" reqHeaders)
                     +:+ timestamp
                     +:+ join newline [method; contentHash; ""; url]))))
  ∧ (method = "GET" → contentHash = hex (sha256 ""))
  ∧ (method ≠ "GET" → ∀ b, body = Some b →
     ∃ json, JSON_stringify (VObj b) = Some json
             ∧ contentHash = hex (sha256 json)).
Proof.
  intros Hsign contentHash timestamp.
  rewrite getRequestSign_run in Hsign.
  assert (clock_reads (enter query w).2 = clock_reads w) as Hclock
    by by destruct query.
  destruct (enter query w) as [l w0]. cbn [snd] in Hclock.
  rewrite Hclock in Hsign. fold timestamp in Hsign.
  destruct (getToken creds (tick w0)) as [[token|e] w2]; [|done].
  cbn [sign_with] in Hsign.
  destruct (decodeURIComponent _) as [querystring|e]; [|done].
  injection Hsign as <- _. split_and!.
  - eexists. split_and!; reflexivity.
  - intros ->. reflexivity.
  - intros Hne b ->. unfold contentHash. rewrite decide_False by done.
    eexists. split; reflexivity.
Qed.

End Signer.

(** ** The authenticated client *)

Section Client.

Context `{Runtime}.

(** C1, amended. Once the headers are signed and the platform has
    answered, a status outside 200..299 makes [authenticatedCall] fail with
    the error whose message is "Error: HTTP Error. Status" and the status,
    the body not being parsed (the only events are the request and the log
    line); a status inside makes it parse the envelope and return it when
    [success] is true, and fail with the error whose message carries [msg]
    and [code] when it is false.  Both failures are plain [Error] objects of
    the same name: they are told apart by their messages, which never
    coincide; the status can be read back from the first, and the text of
    the original error is kept in the one that surfaces. *)
Theorem authenticatedCall_outcome
    creds method endpoint query body w reqHeaders w1 resp :
  getRequestSign creds endpoint method [] query body w
    = (Ok reqHeaders, w1) →
  network (trace w1) (call_request creds method endpoint reqHeaders body)
    = Ok resp →
  let req := call_request creds method endpoint reqHeaders body in
  (¬ (200 ≤ status resp ≤ 299)%Z →
     authenticatedCall creds method endpoint query body w
     = (Throw (HttpError (status resp)),
        log_events
          [EFetch req;
           ELogError
             (Error ("HTTP Error. Status " +:+ pretty (status resp)))] w1))
  ∧ ((200 ≤ status resp ≤ 299)%Z →
     ∀ e (b : bool),
       JSON_parse (text resp) = Ok (VObj e) →
       obj_get "success" e = VBool b →
       authenticatedCall creds method endpoint query body w
       = if b
         then (Ok (VObj e), log_events [EFetch req; EJson (text resp)] w1)
         else (Throw (ApiError (obj_get "code" e) (obj_get "msg" e)),
               log_events
                 [EFetch req; EJson (text resp);
                  ELogError
                    (Error ("Error message: " +:+ toString (obj_get "msg" e)
                            +:+ ". Error code: "
                            +:+ toString (obj_get "code" e)))] w1))
  ∧ (∀ s code msg,
       exn_name (HttpError s) = "Error"
       ∧ exn_name (ApiError code msg) = "Error"
       ∧ HttpError s ≠ ApiError code msg)
  ∧ (∀ s s', HttpError s = HttpError s' → s = s')
  ∧ (∀ m, m ≠ "" →
          exn_message (Error (exn_toString (Error m))) = "Error: " +:+ m).
Proof.
  intros Hsign Hnet req.
  assert (authenticatedCall creds method endpoint query body w
          = try_catch
              (let! response := fetch req in
               if negb (ok response) then
                 throw (Error ("HTTP Error. Status "
                               +:+ pretty (status response)))
               else
                 let! result := response_json response in
                 let! success := lift (get_prop "success" result) in
                 if negb (truthy success) then
                   let! msg := lift (get_prop "msg" result) in
                   let! code := lift (get_prop "code" result) in
                   throw (Error ("Error message: " +:+ toString msg
                                 +:+ ". Error code: " +:+ toString code))
                 else ret result)
              (λ error,
                 let! _ := emit (ELogError error) in
                 throw (Error (exn_toString error))) w1) as ->.
  { unfold authenticatedCall. by rewrite (bind_Ok _ _ _ _ _ Hsign). }
  assert (fetch req w1 = (Ok resp, log_events [EFetch req] w1)) as Hfetch.
  { unfold fetch. subst req. by rewrite Hnet. }
  unfold try_catch. rewrite (bind_Ok _ _ _ _ _ Hfetch).
  split_and!.
  - intros Hstatus. unfold ok. rewrite bool_decide_eq_false_2 by done.
    cbn [negb]. unfold throw at 1, bind, emit, throw, log_events.
    cbn [trace heap clock_reads]. rewrite <- app_assoc. reflexivity.
  - intros Hstatus e b Hparse Hsuccess. unfold ok.
    rewrite bool_decide_eq_true_2 by done. cbn [negb].
    unfold bind at 1, response_json, bind at 1, emit at 1, lift at 1.
    cbv beta iota. cbn [trace heap clock_reads log_events].
    rewrite Hparse.
    cbv beta iota. unfold bind at 1, lift at 1. cbn [get_prop].
    rewrite Hsuccess. cbv beta iota. destruct b; cbn [truthy negb].
    + unfold ret, log_events. cbn [trace heap clock_reads].
      by rewrite <- app_assoc.
    + unfold bind, lift, throw, emit, log_events.
      cbn [trace heap clock_reads get_prop]. by rewrite <- !app_assoc.
  - intros s code msg. split_and!; [reflexivity | reflexivity |].
    unfold HttpError, ApiError, Error. simpl. discriminate.
  - intros s s' Heq. unfold HttpError, Error in Heq.
    injection Heq as Heq. by apply (inj _), (inj pretty) in Heq.
  - intros m Hm. by destruct m.
Qed.

End Client.

(** ** Device operations *)

Section Devices.

Context `{Runtime}.

(** C5. If the token endpoint answers [success: false] with a message,
    [turnOnOff] fails with the authentication error carrying that message,
    and the token request is the only request of the whole call: nothing
    is sent to the commands endpoint. *)
Theorem turnOnOff_token_refused creds deviceId onOff w resp e msg :
  let token_req := token_request creds (now (S (clock_reads w))) in
  network (trace w) token_req = Ok resp →
  JSON_parse (text resp) = Ok (VObj e) →
  obj_get "success" e = VBool false →
  obj_get "msg" e = VStr msg →
  ∃ w',
    turnOnOff creds deviceId onOff w = (Throw (AuthError (VStr msg)), w')
    ∧ trace w' = trace w ++ [EFetch token_req; EJson (text resp)]
    ∧ (∀ r, EFetch r ∈ trace w' → EFetch r ∈ trace w ∨ r = token_req)
    ∧ req_url token_req ≠ baseUrl creds +:+ commands_endpoint deviceId.
Proof.
  intros token_req Hnet Hparse Hsuccess Hmsg.
  set (w0 := {| clock_reads := clock_reads w; heap := heap w ++ [[]];
                trace := trace w |}).
  assert (getToken creds (tick w0)
          = (Throw (AuthError (VStr msg)),
             log_events [EFetch token_req; EJson (text resp)]
               (tick (tick w0)))) as Htoken.
  { rewrite (getToken_run creds (tick w0) resp e Hnet Hparse).
    by rewrite Hsuccess, Hmsg. }
  eexists. split_and!.
  - unfold turnOnOff. unfold bind at 1, alloc at 1. cbv beta iota zeta.
    fold w0. apply bind_Throw. unfold authenticatedCall.
    apply bind_Throw. by apply getRequestSign_token_Throw.
  - reflexivity.
  - cbn [trace log_events tick w0]. intros r.
    rewrite elem_of_app, !elem_of_cons, elem_of_nil.
    intros [?|[[= ->]|[[=]|[]]]]; auto.
  - cbn [req_url token_req token_request]. intros Heq.
    apply (inj _) in Heq. discriminate.
Qed.

(** C6. [getDeviceStatus] folds the [result] list of the envelope into a
    record, starting from the empty one: [switch_led] sets [onOff],
    [bright_value_v2] sets [brightness], [temp_value_v2] sets [temp],
    [colour_data_v2] sets [color] to its value parsed as JSON, and a pair
    with any other code leaves the record as it is.  With a parser that
    reads the colour text, the list of the example decodes to
    [{onOff: true, color: {h: 10, s: 500, v: 800}}], without [brightness]
    and [temp]. *)
Theorem getDeviceStatus_decoding :
  JSON_parse hsv_text = Ok hsv →
  (∀ creds deviceId w envelope cs w1,
     authenticatedCall creds "GET"
       ("/v1.0/devices/" +:+ deviceId +:+ "/status") None None w
       = (Ok (VObj envelope), w1) →
     obj_get "result" envelope = VArr cs →
     getDeviceStatus creds deviceId w = (forEach_status cs [], w1))
  ∧ (∀ status v,
       status_step status (VObj (status_pair "switch_led" v))
       = Ok (obj_set "onOff" v status))
  ∧ (∀ status v,
       status_step status (VObj (status_pair "bright_value_v2" v))
       = Ok (obj_set "brightness" v status))
  ∧ (∀ status v,
       status_step status (VObj (status_pair "temp_value_v2" v))
       = Ok (obj_set "temp" v status))
  ∧ (∀ status v,
       status_step status (VObj (status_pair "colour_data_v2" v))
       = (color ← JSON_parse (toString v);
          Ok (obj_set "color" color status)))
  ∧ (∀ status code v,
       code ∉ ["switch_led"; "bright_value_v2"; "temp_value_v2";
               "colour_data_v2"] →
       status_step status (VObj (status_pair code v)) = Ok status)
  ∧ (∀ status o,
       field_of_code (obj_get "code" o) = None →
       status_step status (VObj o) = Ok status)
  ∧ (forEach_status
       [VObj (status_pair "switch_led" (VBool true));
        VObj (status_pair "colour_data_v2" (VStr hsv_text))] []
     = Ok [("onOff", VBool true); ("color", hsv)])
  ∧ ("brightness" ∉ [("onOff", VBool true); ("color", hsv)].*1)
  ∧ ("temp" ∉ [("onOff", VBool true); ("color", hsv)].*1).
Proof.
  intros Hhsv. split_and!.
  - intros creds deviceId w envelope cs w1 Hcall Hresult.
    unfold getDeviceStatus. rewrite (bind_Ok _ _ _ _ _ Hcall).
    unfold bind, lift at 1. cbn [get_prop]. by rewrite Hresult.
  - intros status v. by apply status_step_plain.
  - intros status v. by apply status_step_plain.
  - intros status v. by apply status_step_plain.
  - intros status v. apply status_step_colour.
  - intros status code v Hcode. rewrite status_step_obj.
    assert (field_of_code (obj_get "code" (status_pair code v)) = None)
      as ->; [|done].
    unfold field_of_code, status_pair, obj_get. cbn [assoc].
    rewrite decide_True by done. cbn [default]. unfold strict_eq_str.
    rewrite !not_elem_of_cons in Hcode.
    destruct Hcode as (H1 & H2 & H3 & H4 & _).
    unfold id. cbv beta iota.
    destruct (String.eqb_spec code "switch_led"); [done|].
    destruct (String.eqb_spec code "bright_value_v2"); [done|].
    destruct (String.eqb_spec code "temp_value_v2"); [done|].
    destruct (String.eqb_spec code "colour_data_v2"); done.
  - intros status o Hcode. by rewrite status_step_obj, Hcode.
  - cbn [forEach_status].
    rewrite (status_step_plain _ "switch_led" "onOff") by done.
    cbn [mbind result_bind]. rewrite status_step_colour.
    cbn [toString]. rewrite Hhsv. reflexivity.
  - cbn. rewrite !not_elem_of_cons. split_and!; try done.
    apply not_elem_of_nil.
  - cbn. rewrite !not_elem_of_cons. split_and!; try done.
    apply not_elem_of_nil.
Qed.

(** C10. [getDeviceStatus] decodes the list of the platform from the
    empty record, pair by pair in list order: its result on a list extended
    by one pair is its result on the list followed by the step for that
    pair, and on the empty list it is the empty record.  When it returns,
    a field is in the record exactly when some pair carries a code that
    maps to it, and its value is the decoded value of the last such
    pair. *)
Theorem getDeviceStatus_last_wins
    creds deviceId w envelope w1 (cs : list obj) :
  authenticatedCall creds "GET"
    ("/v1.0/devices/" +:+ deviceId +:+ "/status") None None w
    = (Ok (VObj envelope), w1) →
  obj_get "result" envelope = VArr (VObj <$> cs) →
  let run := getDeviceStatus creds deviceId w in
  run = (forEach_status (VObj <$> cs) [], w1)
  ∧ (cs = [] → run = (Ok [], w1))
  ∧ (∀ c w' envelope' w1',
       authenticatedCall creds "GET"
         ("/v1.0/devices/" +:+ deviceId +:+ "/status") None None w'
         = (Ok (VObj envelope'), w1') →
       obj_get "result" envelope' = VArr (VObj <$> (cs ++ [c])) →
       (getDeviceStatus creds deviceId w').1
       = (status ← run.1; status_step status (VObj c)))
  ∧ (∀ status,
       run.1 = Ok status →
       (∀ field,
          field ∈ status.*1
          ↔ ∃ o, o ∈ cs ∧ field_of_code (obj_get "code" o) = Some field)
       ∧ (∀ pre o post field,
            cs = pre ++ o :: post →
            field_of_code (obj_get "code" o) = Some field →
            (∀ o', o' ∈ post →
               field_of_code (obj_get "code" o') ≠ Some field) →
            decoded_value field (obj_get "value" o)
            = Ok (obj_get field status))).
Proof.
  intros Hcall Hresult run.
  assert (∀ w' envelope' w1' cs',
            authenticatedCall creds "GET"
              ("/v1.0/devices/" +:+ deviceId +:+ "/status") None None w'
              = (Ok (VObj envelope'), w1') →
            obj_get "result" envelope' = VArr cs' →
            getDeviceStatus creds deviceId w' = (forEach_status cs' [], w1'))
    as Hlink.
  { intros w' envelope' w1' cs' Hcall' Hresult'.
    unfold getDeviceStatus. rewrite (bind_Ok _ _ _ _ _ Hcall').
    unfold bind, lift at 1. cbn [get_prop]. by rewrite Hresult'. }
  assert (run = (forEach_status (VObj <$> cs) [], w1)) as Hrun
    by by apply (Hlink w envelope).
  split_and!.
  - exact Hrun.
  - intros ->. exact Hrun.
  - intros c w' envelope' w1' Hcall' Hresult'.
    rewrite (Hlink _ _ _ _ Hcall' Hresult'), Hrun. cbn [fst].
    rewrite fmap_app, forEach_status_app.
    destruct (forEach_status (VObj <$> cs) []) as [status|]; [|done].
    cbn [mbind result_bind fmap list_fmap forEach_status].
    by destruct (status_step status (VObj c)).
  - intros status Hfold. rewrite Hrun in Hfold. cbn [fst] in Hfold. split.
    + intros field. rewrite (forEach_status_keys _ _ _ _ Hfold).
      split; [|by right]. intros [Hin|?]; [|done].
      by apply elem_of_nil in Hin.
    + intros pre o post field -> Hfield Hlast.
      rewrite fmap_app, forEach_status_app in Hfold.
      destruct (forEach_status (VObj <$> pre) []) as [s1|]; [|done].
      cbn [mbind result_bind fmap list_fmap forEach_status] in Hfold.
      destruct (status_step s1 (VObj o)) as [s2|] eqn:Hstep; [|done].
      cbn [mbind result_bind] in Hfold.
      rewrite (forEach_status_get_other _ _ _ _ Hfold Hlast).
      rewrite status_step_obj, Hfield in Hstep.
      destruct (decoded_value field (obj_get "value" o)) as [v|]; [|done].
      cbn [mbind result_bind] in Hstep. injection Hstep as <-.
      by rewrite obj_get_set_eq.
Qed.

End Devices.

(** ** Room names *)

(** C7, amended. The tool normalises the room name with the engine's
    [trim], [toLowerCase] and [replaceAll] of white space, and looks the
    result up in the table of four entries.  A normalised name that is not
    in the table yields [undefined], no marker of its own; [__proto__]
    alone yields the text of an empty object.  On a name of ASCII
    characters the normal form is the name without its ASCII white space
    and with its letters in lower case: it holds neither white space nor an
    upper-case letter, and the trimming changes nothing the removal would
    not.  "Living Room " becomes "livingroom" and yields the JSON text of
    the configured living-room identifier. *)
Theorem getDeviceId_execute_lookup `{StringMethods}
    (roomName : string) (env : Env) (w : World) :
  let name := normalize roomName in
  (∃ line,
     getDeviceId_execute roomName env w
     = (Ok (JSON_stringify (obj_lookup name (devices env))),
        log_events [ELogValue (VStr line)] w))
  ∧ (devices env).*1 = room_names
  ∧ (name ∉ room_names → name ≠ "__proto__" →
     returned (getDeviceId_execute roomName env w) = Some None)
  ∧ (name = "__proto__" →
     returned (getDeviceId_execute roomName env w) = Some (Some "{}"))
  ∧ (ascii_methods →
     (ascii_text roomName →
      name = ascii_strip (ascii_toLowerCase roomName)
      ∧ Forall (λ c, ascii_whitespace c = false ∧ ascii_lower c = c)
          (list_ascii_of_string name))
     ∧ normalize "Living Room " = "livingroom"
     ∧ returned (getDeviceId_execute "Living Room " env w)
       = Some (JSON_stringify (LIVINGROOM_DEVICE_ID env))).
Proof.
  intros name.
  assert (∀ r, getDeviceId_execute r env w
               = (Ok (JSON_stringify (obj_lookup (normalize r) (devices env))),
                  log_events
                    [ELogValue
                       (VStr ("Room: " +:+ normalize r +:+ ", DeviceID: "
                              +:+ toString
                                    (opt_value
                                       (JSON_stringify
                                          (obj_lookup (normalize r)
                                             (devices env))))))] w))
    as Hrun by reflexivity.
  split_and!.
  - eexists. apply Hrun.
  - reflexivity.
  - intros Hname Hproto. unfold returned. rewrite Hrun. cbn [fst].
    fold name. by rewrite obj_lookup_unknown.
  - intros Hname. unfold returned. rewrite Hrun. cbn [fst].
    fold name. by rewrite Hname.
  - intros Hmethods.
    assert (normalize "Living Room " = "livingroom") as Hliving.
    { rewrite normalize_ascii; [reflexivity|done|].
      by apply (bool_decide_unpack _). }
    split_and!.
    + intros Hascii. unfold name. rewrite normalize_ascii by done.
      split; [done | apply strip_whitespace_clean].
    + exact Hliving.
    + unfold returned. rewrite Hrun, Hliving. reflexivity.
Qed.

(** ** The theorems at work on the sample runtime *)

Lemma encryptStr_upper_hex_of_hmac_witness :
  (@encryptStr (Sample.runtime []) "what do ya want for nothing?" "Jefe"
     Sample.world0).1
  = Ok (upper_hex (SHA256.hmac_sha256 "Jefe" "what do ya want for nothing?")).
Proof.
  destruct (@encryptStr_upper_hex_of_hmac (Sample.runtime [])
              "what do ya want for nothing?" "Jefe" Sample.world0) as [Hrun _].
  rewrite Hrun. reflexivity.
Defined.

(** The token endpoint answers with an empty access token: [getToken]
    returns the sentinel, not the token of the envelope. *)
Lemma getToken_empty_access_token :
  Json.parse (text Sample.token_empty)
  = Ok (VObj [("result", VObj [("access_token", VStr "");
                               ("expire_time", VNum 7200)]);
              ("success", VBool true)])
  ∧ (@getToken (Sample.runtime [Ok Sample.token_empty]) Sample.creds
       Sample.world0).1 = Ok (VStr "NO TOKEN")
  ∧ (@getToken (Sample.runtime [Ok Sample.token_empty]) Sample.creds
       Sample.world0).1 ≠ Ok (VStr "").
Proof.
  split_and!; [vm_compute; reflexivity | vm_compute; reflexivity |].
  vm_compute. discriminate.
Qed.

Lemma getToken_token_or_sentinel_witness :
  (@getToken (Sample.runtime [Ok Sample.token_ok]) Sample.creds
     Sample.world0).1 = Ok (VStr "tok-1").
Proof.
  refine (proj1 (proj2 (proj2
    (@getToken_token_or_sentinel (Sample.runtime [Ok Sample.token_ok])
       Sample.creds Sample.world0 Sample.token_ok
       [("result", VObj [("access_token", VStr "tok-1");
                         ("expire_time", VNum 7200);
                         ("refresh_token", VStr "ref-1");
                         ("uid", VStr "u1")]);
        ("success", VBool true); ("t", VNum 1700000000123);
        ("tid", VStr "abc")] true _ _ _))) eq_refl "tok-1" _ _).
  - vm_compute. reflexivity.
  - vm_compute. reflexivity.
  - reflexivity.
  - reflexivity.
  - discriminate.
Defined.


(** Array indices come first in [Object.keys], in numeric order: with the
    keys ["10"] and ["9"] the query string does not follow the sorted
    order. *)
Example getRequestSign_array_index_keys :
  let run :=
    @getRequestSign (Sample.runtime [Ok Sample.token_ok]) Sample.creds
      "/v1.0/x?c=3" "GET" [] (Some 0) None Sample.world_indices in
  merge_sort code_unit_le ["10"; "9"; "c"] = ["10"; "9"; "c"]
  ∧ (obj_get "path" <$> returned run) = Some (VStr "/v1.0/x?9=1&10=2&c=3").
Proof. split; vm_compute; reflexivity. Qed.


Lemma getRequestSign_mutates_query_witness :
  let run :=
    @getRequestSign (Sample.runtime [Ok Sample.token_ok]) Sample.creds
      "/v1.0/x?c=3" "GET" [] (Some 0) None Sample.world_query in
  heap run.2 !! 0 = Some [("b", VNum 2); ("a", VNum 1); ("c", VStr "3")].
Proof.
  intros run.
  assert (run = (Ok (default [] (returned run)), run.2)) as Hrun
    by (vm_compute; reflexivity).
  destruct (@getRequestSign_mutates_query (Sample.runtime [Ok Sample.token_ok])
              Sample.creds "/v1.0/x?c=3" "GET" [] 0 None Sample.world_query
              (default [] (returned run)) run.2
              [("b", VNum 2); ("a", VNum 1)] eq_refl Hrun)
    as (Hheap & _).
  rewrite Hheap. vm_compute. reflexivity.
Defined.

Lemma getRequestSign_signature_witness :
  let run :=
    @getRequestSign (Sample.runtime [Ok Sample.token_ok]) Sample.creds
      "/v1.0/devices/dev-1/commands" "POST" [] None
      (Some [("commands", VStr "[]")]) Sample.world0 in
  obj_get "sign" (default [] (returned run))
  = VStr (upper_hex
            (SHA256.hmac_sha256 "sk"
               ("ak" +:+ "tok-1" +:+ "1700000000000"
                +:+ join newline
                      ["POST";
                       hex (SHA256.sha256
                              ("{" +:+ dquote +:+ "commands" +:+ dquote
                               +:+ ":" +:+ dquote +:+ "[]" +:+ dquote
                               +:+ "}"));
                       ""; "/v1.0/devices/dev-1/commands"]))).
Proof.
  intros run.
  assert (run = (Ok (default [] (returned run)), run.2)) as Hrun
    by (vm_compute; reflexivity).
  destruct (@getRequestSign_signature (Sample.runtime [Ok Sample.token_ok])
              Sample.creds "/v1.0/devices/dev-1/commands" "POST" [] None
              (Some [("commands", VStr "[]")]) Sample.world0
              (default [] (returned run)) run.2 Hrun)
    as ((url & _ & Hurl & _ & _ & Hsign) & _).
  vm_compute in Hurl. injection Hurl as <-.
  rewrite Hsign. vm_compute. reflexivity.
Defined.

(** A status of 500 and a refused command: the two errors that surface are
    objects of the one type [Error]; only their messages differ. *)
Lemma authenticatedCall_errors_share_type :
  let http :=
    (@authenticatedCall
       (Sample.runtime [Ok Sample.token_ok; Ok Sample.server_error])
       Sample.creds "POST" "/v1.0/devices/dev-1/commands" None
       (Some [("commands", VStr "[]")]) Sample.world0).1 in
  let api :=
    (@authenticatedCall
       (Sample.runtime [Ok Sample.token_ok; Ok Sample.command_failed])
       Sample.creds "POST" "/v1.0/devices/dev-1/commands" None
       (Some [("commands", VStr "[]")]) Sample.world0).1 in
  http = Throw (Exn "Error" "Error: HTTP Error. Status 500")
  ∧ api = Throw (Exn "Error"
                   "Error: Error message: command or value not support. Error code: 2008")
  ∧ exn_name (Exn "Error" "Error: HTTP Error. Status 500")
    = exn_name (Exn "Error"
                  "Error: Error message: command or value not support. Error code: 2008").
Proof. split_and!; vm_compute; reflexivity. Qed.

Lemma authenticatedCall_outcome_witness :
  (@authenticatedCall
     (Sample.runtime [Ok Sample.token_ok; Ok Sample.server_error])
     Sample.creds "POST" "/v1.0/devices/dev-1/commands" None
     (Some [("commands", VStr "[]")]) Sample.world0).1
  = Throw (HttpError 500).
Proof.
  set (rt := Sample.runtime [Ok Sample.token_ok; Ok Sample.server_error]).
  set (run := @getRequestSign rt Sample.creds "/v1.0/devices/dev-1/commands"
                "POST" [] None (Some [("commands", VStr "[]")]) Sample.world0).
  assert (run = (Ok (default [] (returned run)), run.2)) as Hrun
    by (vm_compute; reflexivity).
  assert (@network rt (trace run.2)
            (call_request Sample.creds "POST" "/v1.0/devices/dev-1/commands"
               (default [] (returned run)) (Some [("commands", VStr "[]")]))
          = Ok Sample.server_error) as Hnet
    by (vm_compute; reflexivity).
  destruct (@authenticatedCall_outcome rt Sample.creds "POST"
              "/v1.0/devices/dev-1/commands" None
              (Some [("commands", VStr "[]")]) Sample.world0
              (default [] (returned run)) run.2 Sample.server_error Hrun Hnet)
    as (Hhttp & _).
  rewrite Hhttp; [reflexivity|]. cbn. lia.
Defined.

Lemma turnOnOff_token_refused_witness :
  (@turnOnOff (Sample.runtime [Ok Sample.token_refused]) Sample.creds
     "dev-1" true Sample.world0).1
  = Throw (AuthError (VStr "invalid signature")).
Proof.
  destruct (@turnOnOff_token_refused (Sample.runtime [Ok Sample.token_refused])
              Sample.creds "dev-1" true Sample.world0 Sample.token_refused
              [("code", VNum 1004); ("msg", VStr "invalid signature");
               ("success", VBool false); ("t", VNum 1700000000123);
               ("tid", VStr "abc")] "invalid signature")
    as (w' & Hrun & _).
  - vm_compute. reflexivity.
  - vm_compute. reflexivity.
  - reflexivity.
  - reflexivity.
  - rewrite Hrun. reflexivity.
Defined.

Lemma getDeviceStatus_decoding_witness :
  @forEach_status (Sample.runtime [])
    [VObj (status_pair "switch_led" (VBool true));
     VObj (status_pair "colour_data_v2" (VStr hsv_text))] []
  = Ok [("onOff", VBool true); ("color", hsv)].
Proof.
  refine (proj1 (proj2 (proj2 (proj2 (proj2 (proj2 (proj2 (proj2
    (@getDeviceStatus_decoding (Sample.runtime []) _))))))))).
  vm_compute. reflexivity.
Defined.

Lemma getDeviceStatus_last_wins_witness :
  let rt :=
    Sample.runtime
      [Ok Sample.token_ok; Ok (status_response status_switched_twice)] in
  let run := @getDeviceStatus rt Sample.creds "dev-1" Sample.world0 in
  run.1 = Ok [("onOff", VBool false); ("brightness", VNum 10)]
  ∧ @decoded_value rt "onOff" (VBool false)
    = Ok (obj_get "onOff" [("onOff", VBool false); ("brightness", VNum 10)]).
Proof.
  intros rt.
  set (call := @authenticatedCall rt Sample.creds "GET"
                 "/v1.0/devices/dev-1/status" None None Sample.world0).
  assert (call = (Ok (VObj (returned_object call)), call.2)) as Hcall
    by (vm_compute; reflexivity).
  destruct (@getDeviceStatus_last_wins rt Sample.creds "dev-1" Sample.world0
              (returned_object call) call.2 status_switched_twice Hcall)
    as (Hrun & _ & _ & Hlast).
  - vm_compute. reflexivity.
  - assert ((@getDeviceStatus rt Sample.creds "dev-1" Sample.world0).1
            = Ok [("onOff", VBool false); ("brightness", VNum 10)])
      as Hstatus.
    { rewrite Hrun. vm_compute. reflexivity. }
    destruct (Hlast _ Hstatus) as [_ Hwins].
    intros run. split; [exact Hstatus|].
    apply (Hwins [status_pair "switch_led" (VBool true);
                  status_pair "bright_value_v2" (VNum 10)]
                 (status_pair "switch_led" (VBool false)) []
                 "onOff" eq_refl eq_refl).
    intros o' Ho'. exfalso. exact (proj1 (elem_of_nil o') Ho').
Defined.

(** Keys beyond ASCII: [sort] puts the face, whose first code unit is a
    surrogate, before the fullwidth tilde, and so does the canonical URL;
    the order of the bytes is the other one. *)
Example getRequestSign_code_unit_order :
  let w :=
    {| clock_reads := 0;
       heap := [[(fullwidth_tilde, VNum 1); (grinning_face, VNum 2)]];
       trace := [] |} in
  let run :=
    @getRequestSign (Sample.runtime [Ok Sample.token_ok]) Sample.creds
      "/v1.0/x" "GET" [] (Some 0) None w in
  code_units grinning_face = [55357; 56832]%N
  ∧ code_units fullwidth_tilde = [65374]%N
  ∧ merge_sort code_unit_le [fullwidth_tilde; grinning_face]
    = [grinning_face; fullwidth_tilde]
  ∧ merge_sort String.le [fullwidth_tilde; grinning_face]
    = [fullwidth_tilde; grinning_face]
  ∧ (obj_get "path" <$> returned run)
    = Some (VStr ("/v1.0/x?" +:+ grinning_face +:+ "=2&"
                  +:+ fullwidth_tilde +:+ "=1")).
Proof. split_and!; vm_compute; reflexivity. Qed.

(** An unknown room: the tool returns [undefined]. *)
Lemma getDeviceId_unknown_room_undefined :
  @normalize Sample.strings "Garage" = "garage"
  ∧ ("garage" ∉ room_names)
  ∧ returned (@getDeviceId_execute Sample.strings "Garage" Sample.env
                Sample.world0)
    = Some None
  ∧ ¬ (∃ marker : string,
         returned (@getDeviceId_execute Sample.strings "Garage" Sample.env
                     Sample.world0)
         = Some (Some marker)).
Proof.
  split_and!.
  - reflexivity.
  - unfold room_names. rewrite !not_elem_of_cons.
    split_and!; try discriminate. apply not_elem_of_nil.
  - vm_compute. reflexivity.
  - intros [marker Hmarker]. vm_compute in Hmarker. discriminate.
Qed.

Lemma getDeviceId_execute_lookup_witness :
  returned (@getDeviceId_execute Sample.strings "Garage" Sample.env
              Sample.world0) = Some None
  ∧ returned (@getDeviceId_execute Sample.strings "Living Room " Sample.env
                Sample.world0)
    = Some (JSON_stringify (VStr "dev-living")).
Proof.
  destruct (@getDeviceId_execute_lookup Sample.strings "Garage" Sample.env
              Sample.world0) as (_ & _ & Hunknown & _ & Hascii).
  destruct (Hascii ascii_methods_sample) as (_ & _ & Hliving).
  split; [|exact Hliving].
  apply Hunknown.
  - unfold room_names. change (@normalize Sample.strings "Garage")
      with "garage".
    rewrite !not_elem_of_cons.
    split_and!; try discriminate. apply not_elem_of_nil.
  - discriminate.
Defined.

(** ** Whole runs *)

(** A status of 500 from the commands endpoint: [changeColor] fails with
    the HTTP error, and the only text parsed is the token response. *)
Example changeColor_http_500 :
  let run :=
    @changeColor (Sample.runtime [Ok Sample.token_ok; Ok Sample.server_error])
      Sample.creds "dev-1" (VNum 10) (VNum 500) (VNum 800) Sample.world0 in
  run.1 = Throw (HttpError 500)
  ∧ parsed_texts (trace run.2) = [text Sample.token_ok]
  ∧ requested_urls (trace run.2)
    = ["https://openapi.example/v1.0/token?grant_type=1";
       "https://openapi.example/v1.0/devices/dev-1/commands"].
Proof. split_and!; vm_compute; reflexivity. Qed.

(** A platform failure on the command: the API error with code and
    message. *)
Example changeColor_api_error :
  (@changeColor (Sample.runtime [Ok Sample.token_ok; Ok Sample.command_failed])
     Sample.creds "dev-1" (VNum 10) (VNum 500) (VNum 800) Sample.world0).1
  = Throw (ApiError (VNum 2008) (VStr "command or value not support")).
Proof. vm_compute. reflexivity. Qed.

(** A successful command: the token is requested first, the command
    second, and the confirmation is the JSON text of the new state. *)
Example turnOnOff_success :
  let run :=
    @turnOnOff (Sample.runtime [Ok Sample.token_ok; Ok Sample.command_ok])
      Sample.creds "dev-1" true Sample.world0 in
  returned run
  = Some (JSON_stringify
            (VObj [("message", VStr "The light is now on");
                   ("deviceId", VStr "dev-1");
                   ("currentState", VBool true)]))
  ∧ requested_urls (trace run.2)
    = ["https://openapi.example/v1.0/token?grant_type=1";
       "https://openapi.example/v1.0/devices/dev-1/commands"].
Proof. split; vm_compute; reflexivity. Qed.

(** A refused token: one request, to the token endpoint. *)
Example turnOnOff_refused_requests :
  requested_urls
    (trace (@turnOnOff (Sample.runtime [Ok Sample.token_refused])
              Sample.creds "dev-1" true Sample.world0).2)
  = ["https://openapi.example/v1.0/token?grant_type=1"].
Proof. vm_compute. reflexivity. Qed.

Example normalize_samples :
  @trim Sample.strings "  Living Room  " = "Living Room"
  ∧ @normalize Sample.strings "  Living Room  " = "livingroom"
  ∧ @normalize Sample.strings "KITCHEN" = "kitchen"
  ∧ @normalize Sample.strings "dining room" = "diningroom".
Proof. split_and!; reflexivity. Qed.

Example getDeviceId_known_rooms :
  returned (@getDeviceId_execute Sample.strings " Bed Room" Sample.env
              Sample.world0)
  = Some (JSON_stringify (VStr "dev-bedroom"))
  ∧ returned (@getDeviceId_execute Sample.strings "__proto__" Sample.env
                Sample.world0)
    = Some (Some "{}")
  ∧ returned (@getDeviceId_execute Sample.strings "constructor" Sample.env
                Sample.world0)
    = Some None.
Proof. split_and!; vm_compute; reflexivity. Qed.


(** * Further properties *)

(** ** The token acquirer *)

Section TokenRuns.

Context `{Runtime}.

Lemma getToken_eq creds w :
  getToken creds w
  = let req := token_request creds (now (clock_reads w)) in
    match network (trace w) req with
    | Throw e => (Throw e, log_events [EFetch req] (tick w))
    | Ok resp =>
        (res ← JSON_parse (text resp); token_of_envelope res,
         log_events [EFetch req; EJson (text resp)] (tick w))
    end.
Proof.
  cbv beta zeta delta
    [getToken Date_now encryptStr fetch response_json emit lift bind ret
     throw].
  cbv beta iota zeta. rewrite toUpperCase_hex.
  cbn [clock_reads trace heap].
  fold (token_request creds (now (clock_reads w))).
  destruct (network _ _) as [resp|e0]; cbv beta iota; [|reflexivity].
  cbn [clock_reads trace heap]. unfold log_events, tick.
  cbn [clock_reads trace heap]. rewrite <- app_assoc. cbn [app].
  destruct (JSON_parse _) as [res|e1]; cbv beta iota; [|reflexivity].
  cbn [mbind result_bind]. unfold token_of_envelope.
  destruct (get_prop "success" res) as [success|e2]; cbv beta iota;
    [|reflexivity].
  cbn [mbind result_bind].
  destruct (negb (truthy success)).
  - destruct (get_prop "msg" res); reflexivity.
  - destruct (get_prop "result" res) as [r|e3]; [|reflexivity].
    cbn [mbind result_bind]. cbv beta iota.
    destruct r; cbn; try reflexivity.
    all: destruct (obj_get "access_token" _); reflexivity.
Qed.

(** X1. Whatever happens, [getToken] reads the clock once and sends one
    request, the token request: no method, no body, the four headers, to
    the token path under the base address.  It parses at most the text
    of the answer and leaves the heap alone. *)
Theorem getToken_one_request creds w :
  let req := token_request creds (now (clock_reads w)) in
  ∃ evs,
    (getToken creds w).2 = log_events (EFetch req :: evs) (tick w)
    ∧ requested_urls evs = []
    ∧ length (parsed_texts evs) ≤ 1
    ∧ heap (getToken creds w).2 = heap w
    ∧ clock_reads (getToken creds w).2 = S (clock_reads w)
    ∧ req_method req = None
    ∧ req_body req = None
    ∧ req_url req = baseUrl creds +:+ "/v1.0/token?grant_type=1"
    ∧ (req_headers req).*1 = ["t"; "sign_method"; "client_id"; "sign"]
    ∧ obj_get "t" (req_headers req) = VStr (pretty (now (clock_reads w))).
Proof.
  intros req. rewrite getToken_eq. cbv zeta. fold req.
  destruct (network (trace w) req) as [resp|e].
  - exists [EJson (text resp)]. cbn. split_and!; reflexivity || lia.
  - exists []. cbn. split_and!; reflexivity || lia.
Qed.

(** X2. The failures of [getToken] that are not the platform's refusal
    surface as they are: the exception [fetch] rejects with, the exception
    of the JSON parser on a body that is no JSON, a [TypeError] on the body
    [null].  A body that parses to anything but an object, or to an object
    whose [success] is missing or falsy, fails with the message built
    from its [msg], "Fetch failed: undefined" when there is none. *)
Theorem getToken_failures creds w :
  let req := token_request creds (now (clock_reads w)) in
  (∀ e, network (trace w) req = Throw e →
     getToken creds w = (Throw e, log_events [EFetch req] (tick w)))
  ∧ (∀ resp e,
       network (trace w) req = Ok resp →
       JSON_parse (text resp) = Throw e →
       getToken creds w
       = (Throw e, log_events [EFetch req; EJson (text resp)] (tick w)))
  ∧ (∀ resp,
       network (trace w) req = Ok resp →
       JSON_parse (text resp) = Ok VNull →
       ∃ m, (getToken creds w).1 = Throw (TypeError m))
  ∧ (∀ resp v,
       network (trace w) req = Ok resp →
       JSON_parse (text resp) = Ok v →
       not_an_object v →
       (getToken creds w).1 = Throw (Error "Fetch failed: undefined"))
  ∧ (∀ resp e,
       network (trace w) req = Ok resp →
       JSON_parse (text resp) = Ok (VObj e) →
       truthy (obj_get "success" e) = false →
       (getToken creds w).1 = Throw (AuthError (obj_get "msg" e))).
Proof.
  intros req. split_and!.
  - intros e Hnet. rewrite getToken_eq. cbv zeta. fold req. by rewrite Hnet.
  - intros resp e Hnet Hparse. rewrite getToken_eq. cbv zeta. fold req.
    by rewrite Hnet, Hparse.
  - intros resp Hnet Hparse. rewrite getToken_eq. cbv zeta. fold req.
    rewrite Hnet, Hparse. by eexists.
  - intros resp v Hnet Hparse Hv. rewrite getToken_eq. cbv zeta. fold req.
    rewrite Hnet, Hparse. by destruct v.
  - intros resp e Hnet Hparse Hsuccess. rewrite getToken_eq. cbv zeta. fold req.
    rewrite Hnet, Hparse. cbn [fst mbind result_bind].
    unfold token_of_envelope. cbn [get_prop mbind result_bind].
    by rewrite Hsuccess.
Qed.

End TokenRuns.

(** X3. [getToken] does not look at the status of the token response: two
    networks that answer the token request with the same text give the
    same result and the same world, whatever the two statuses. *)
Theorem getToken_ignores_status (rt : Runtime) creds w net1 net2 r1 r2 :
  let req := @token_request rt creds (@now rt (clock_reads w)) in
  net1 (trace w) req = Ok r1 →
  net2 (trace w) req = Ok r2 →
  text r1 = text r2 →
  @getToken (with_network rt net1) creds w
  = @getToken (with_network rt net2) creds w.
Proof.
  intros req Hnet1 Hnet2 Htext.
  rewrite !getToken_eq.
  change (@token_request (with_network rt net1) creds
            (@now (with_network rt net1) (clock_reads w))) with req.
  change (@token_request (with_network rt net2) creds
            (@now (with_network rt net2) (clock_reads w))) with req.
  change (@network (with_network rt net1)) with net1.
  change (@network (with_network rt net2)) with net2.
  cbv zeta. rewrite Hnet1, Hnet2, Htext. reflexivity.
Qed.

(** ** Traces *)

Lemma requested_urls_app tr1 tr2 :
  requested_urls (tr1 ++ tr2) = requested_urls tr1 ++ requested_urls tr2.
Proof. unfold requested_urls. apply omap_app. Qed.

Lemma parsed_texts_app tr1 tr2 :
  parsed_texts (tr1 ++ tr2) = parsed_texts tr1 ++ parsed_texts tr2.
Proof. unfold parsed_texts. apply omap_app. Qed.

(** ** The authenticated client *)

Section ClientRuns.

Context `{Runtime}.

Lemma authenticatedCall_signed creds method endpoint query body w hdrs w1 :
  getRequestSign creds endpoint method [] query body w = (Ok hdrs, w1) →
  authenticatedCall creds method endpoint query body w
  = let req := call_request creds method endpoint hdrs body in
    match network (trace w1) req with
    | Throw e => rethrown (Throw e) (log_events [EFetch req] w1)
    | Ok resp =>
        if ok resp then
          rethrown (res ← JSON_parse (text resp); envelope_outcome res)
            (log_events [EFetch req; EJson (text resp)] w1)
        else
          rethrown
            (Throw (Error ("HTTP Error. Status " +:+ pretty (status resp))))
            (log_events [EFetch req] w1)
    end.
Proof.
  intros Hsign. unfold authenticatedCall. rewrite (bind_Ok _ _ _ _ _ Hsign).
  fold (call_request creds method endpoint hdrs body). cbv zeta.
  set (req := call_request creds method endpoint hdrs body).
  unfold try_catch, bind at 1, fetch at 1.
  destruct (network (trace w1) req) as [resp|e0]; cbv beta iota;
    [|reflexivity].
  destruct (ok resp); cbn [negb]; [|reflexivity].
  unfold bind at 1, response_json, bind at 1, emit at 1, lift at 1.
  cbv beta iota. cbn [trace heap clock_reads].
  assert ({| clock_reads := clock_reads w1; heap := heap w1;
             trace := (trace w1 ++ [EFetch req]) ++ [EJson (text resp)] |}
          = log_events [EFetch req; EJson (text resp)] w1) as ->.
  { unfold log_events. by rewrite <- app_assoc. }
  destruct (JSON_parse (text resp)) as [res|e1]; cbv beta iota;
    [|reflexivity].
  cbn [mbind result_bind]. unfold envelope_outcome.
  unfold bind at 1, lift at 1.
  destruct (get_prop "success" res) as [success|e2]; cbv beta iota;
    [|reflexivity].
  cbn [mbind result_bind]. destruct (negb (truthy success)); [|reflexivity].
  unfold bind at 1, lift at 1.
  destruct (get_prop "msg" res) as [msg|e3]; cbv beta iota; [|reflexivity].
  cbn [mbind result_bind]. unfold bind at 1, lift at 1.
  destruct (get_prop "code" res) as [code|e4]; reflexivity.
Qed.

Lemma authenticatedCall_unsigned creds method endpoint query body w e w1 :
  getRequestSign creds endpoint method [] query body w = (Throw e, w1) →
  authenticatedCall creds method endpoint query body w = (Throw e, w1).
Proof. intros Hsign. unfold authenticatedCall. by apply bind_Throw. Qed.

Lemma getRequestSign_token_failure creds path method headers query body w e w' :
  getToken creds (tick (enter query w).2) = (Throw e, w') →
  getRequestSign creds path method headers query body w = (Throw e, w').
Proof.
  intros Htoken. rewrite getRequestSign_run.
  destruct (enter query w) as [l w0]. cbn [snd] in Htoken.
  by rewrite Htoken.
Qed.

Lemma getRequestSign_Ok_inv creds path method headers query body w hdrs w' :
  getRequestSign creds path method headers query body w = (Ok hdrs, w') →
  ∃ token w2 querystring,
    getToken creds (tick (enter query w).2) = (Ok token, w2)
    ∧ w' = assign_at (enter query w).1 (qs_parse (path_query path)) w2
    ∧ decodeURIComponent
        (qs_stringify (canonical_query (deref (enter query w).1 w')))
      = Ok querystring
    ∧ hdrs = signed_headers creds method body token
               (pretty (now (clock_reads w)))
               (canonical_url (path_uri path) querystring).
Proof.
  intros Hsign. rewrite getRequestSign_run in Hsign.
  assert (clock_reads (enter query w).2 = clock_reads w) as Hclock
    by by destruct query.
  destruct (enter query w) as [l w0]. cbn [fst snd] in *.
  rewrite Hclock in Hsign.
  destruct (getToken creds (tick w0)) as [[token|e] w2]; [|done].
  cbn [sign_with] in Hsign.
  destruct (decodeURIComponent _) as [querystring|e] eqn:Hdecode; [|done].
  injection Hsign as <- <-. by exists token, w2, querystring.
Qed.

Lemma authenticatedCall_sends creds method endpoint query body w hdrs w1 :
  getRequestSign creds endpoint method [] query body w = (Ok hdrs, w1) →
  ∃ evs,
    trace (authenticatedCall creds method endpoint query body w).2
    = trace w1 ++ EFetch (call_request creds method endpoint hdrs body) :: evs
    ∧ requested_urls evs = [].
Proof.
  intros Hsign.
  rewrite (authenticatedCall_signed _ _ _ _ _ _ _ _ Hsign). cbv zeta.
  set (req := call_request creds method endpoint hdrs body).
  destruct (network (trace w1) req) as [resp|e0].
  - destruct (ok resp).
    + destruct (JSON_parse (text resp)) as [res|e1];
        cbn [mbind result_bind].
      * destruct (envelope_outcome res) as [v|e2].
        -- exists [EJson (text resp)]. by split.
        -- exists [EJson (text resp); ELogError e2]. cbn.
           split; [|done]. by rewrite <- app_assoc.
      * exists [EJson (text resp); ELogError e1]. cbn.
        split; [|done]. by rewrite <- app_assoc.
    + eexists [ELogError _]. cbn. split; [|done].
      by rewrite <- app_assoc.
  - exists [ELogError e0]. cbn. split; [|done].
    by rewrite <- app_assoc.
Qed.

End ClientRuns.

Section ClientProperties.

Context `{Runtime}.

(** X4. When the acquisition of the token throws, for whatever reason,
    each device operation throws that very exception, not wrapped and not
    logged.  The token request is the only request of the call, and the
    heap has gained the empty query object and nothing else. *)
Theorem token_failure_propagates creds deviceId onOff h s v w e w' :
  let w0 := (enter None w).2 in
  getToken creds (tick w0) = (Throw e, w') →
  getDeviceStatus creds deviceId w = (Throw e, w')
  ∧ turnOnOff creds deviceId onOff w = (Throw e, w')
  ∧ changeColor creds deviceId h s v w = (Throw e, w')
  ∧ requested_urls (trace w')
    = requested_urls (trace w) ++ [baseUrl creds +:+ token_path]
  ∧ heap w' = heap w ++ [[]]
  ∧ Forall (λ ev, ∀ x, ev ≠ ELogError x) (drop (length (trace w)) (trace w')).
Proof.
  intros w0 Htoken.
  assert (∃ evs, w' = log_events
                        (EFetch (token_request creds (now (S (clock_reads w))))
                         :: evs) (tick (tick w0))
                 ∧ (evs = [] ∨ ∃ t, evs = [EJson t])) as (evs & -> & Hevs).
  { rewrite getToken_eq in Htoken. cbv zeta in Htoken.
    destruct (network _ _) as [resp|e0]; injection Htoken as _ <-.
    - exists [EJson (text resp)]. split; [done|]. right. by eexists.
    - exists []. split; [done|]. by left. }
  split_and!.
  - unfold getDeviceStatus. apply bind_Throw.
    apply authenticatedCall_unsigned.
    by apply getRequestSign_token_failure.
  - unfold turnOnOff. unfold bind at 1, alloc at 1. cbv beta iota zeta.
    apply bind_Throw. apply authenticatedCall_unsigned.
    by apply getRequestSign_token_failure.
  - unfold changeColor. unfold bind at 1, alloc at 1. cbv beta iota zeta.
    apply bind_Throw. apply authenticatedCall_unsigned.
    by apply getRequestSign_token_failure.
  - cbn [trace log_events tick w0 enter snd].
    rewrite requested_urls_app.
    destruct Hevs as [-> | [t ->]]; reflexivity.
  - reflexivity.
  - cbn [trace log_events tick w0 enter snd].
    rewrite drop_app_length.
    destruct Hevs as [-> | [t ->]]; by repeat constructor.
Qed.

(** X5. Once the headers are signed, every failure of [authenticatedCall]
    is logged and surfaces as a plain [Error] whose message is the text of
    the exception that caused it: the rejection of [fetch], the exception
    of the JSON parser on a 2xx body that is no JSON, the [TypeError] on
    the body [null].  A call that returns has logged no error. *)
Theorem authenticatedCall_failures_wrapped
    creds method endpoint query body w reqHeaders w1 :
  getRequestSign creds endpoint method [] query body w
    = (Ok reqHeaders, w1) →
  let req := call_request creds method endpoint reqHeaders body in
  let run := authenticatedCall creds method endpoint query body w in
  (∀ e, run.1 = Throw e →
     ∃ cause evs,
       e = Error (exn_toString cause)
       ∧ trace run.2 = trace w1 ++ EFetch req :: evs ++ [ELogError cause]
       ∧ requested_urls evs = [])
  ∧ (∀ v, run.1 = Ok v →
       ∃ t, trace run.2 = trace w1 ++ [EFetch req; EJson t])
  ∧ (∀ cause, network (trace w1) req = Throw cause →
       run.1 = Throw (Error (exn_toString cause)))
  ∧ (∀ resp cause,
       network (trace w1) req = Ok resp → ok resp = true →
       JSON_parse (text resp) = Throw cause →
       run.1 = Throw (Error (exn_toString cause)))
  ∧ (∀ resp,
       network (trace w1) req = Ok resp → ok resp = true →
       JSON_parse (text resp) = Ok VNull →
       ∃ m, run.1 = Throw (Error ("TypeError: " +:+ m))).
Proof.
  intros Hsign req run. unfold run.
  rewrite (authenticatedCall_signed _ _ _ _ _ _ _ _ Hsign). cbv zeta.
  fold req. split_and!.
  - intros e.
    destruct (network (trace w1) req) as [resp|e0].
    + destruct (ok resp).
      * destruct (JSON_parse (text resp)) as [res|e1];
          cbn [mbind result_bind].
        -- destruct (envelope_outcome res) as [v|e2]; [done|].
           cbn. intros [= <-]. exists e2, [EJson (text resp)].
           split_and!; [done| |done]. by rewrite <- app_assoc.
        -- cbn. intros [= <-]. exists e1, [EJson (text resp)].
           split_and!; [done| |done]. by rewrite <- app_assoc.
      * cbn. intros [= <-]. eexists _, []. split_and!; [done| |done].
        by rewrite <- app_assoc.
    + cbn. intros [= <-]. exists e0, []. split_and!; [done| |done].
      by rewrite <- app_assoc.
  - intros v.
    destruct (network (trace w1) req) as [resp|e0]; [|done].
    destruct (ok resp); [|done].
    destruct (JSON_parse (text resp)) as [res|e1]; cbn [mbind result_bind];
      [|done].
    destruct (envelope_outcome res) as [v'|e2]; [|done].
    intros _. by exists (text resp).
  - intros cause ->. reflexivity.
  - intros resp cause -> -> ->. reflexivity.
  - intros resp -> -> ->. by eexists.
Qed.

(** X6. When [getRequestSign] returns, it has read the clock twice and
    sent one request, the token request.  The timestamp [t] of the signed
    headers is the first reading, taken before the token is asked for;
    the token request carries the second.  The headers are the six of the
    source, in its order, and [access_token] is what [getToken] returned. *)
Theorem getRequestSign_effects
    creds path method headers query body w reqHeaders w' :
  getRequestSign creds path method headers query body w
    = (Ok reqHeaders, w') →
  let token_req := token_request creds (now (S (clock_reads w))) in
  clock_reads w' = 2 + clock_reads w
  ∧ (∃ t, trace w' = trace w ++ [EFetch token_req; EJson t])
  ∧ obj_get "t" reqHeaders = VStr (pretty (now (clock_reads w)))
  ∧ obj_get "t" (req_headers token_req)
    = VStr (pretty (now (S (clock_reads w))))
  ∧ reqHeaders.*1
    = ["t"; "path"; "client_id"; "sign"; "sign_method"; "access_token"]
  ∧ (getToken creds (tick (enter query w).2)).1
    = Ok (obj_get "access_token" reqHeaders).
Proof.
  intros Hsign token_req.
  destruct (getRequestSign_Ok_inv _ _ _ _ _ _ _ _ _ Hsign)
    as (token & w2 & querystring & Htoken & -> & _ & ->).
  assert (clock_reads (enter query w).2 = clock_reads w
          ∧ trace (enter query w).2 = trace w) as [Hclock Htrace]
    by by destruct query.
  assert ((getToken creds (tick (enter query w).2)).1 = Ok token) as Hfst
    by by rewrite Htoken.
  rewrite getToken_eq in Htoken. cbv zeta in Htoken.
  cbn [tick clock_reads trace] in Htoken. rewrite Hclock, Htrace in Htoken.
  fold token_req in Htoken.
  destruct (network (trace w) token_req) as [resp|e0]; [|done].
  injection Htoken as Htoken <-.
  cbn [assign_at log_events tick clock_reads trace].
  rewrite Hclock, Htrace. split_and!; try reflexivity; [|exact Hfst].
  by exists (text resp).
Qed.

(** X7. The request [authenticatedCall] sends after signing goes to the
    base address followed by the endpoint as the caller wrote it, with the
    caller's method and the signed headers.  It has a body exactly when the
    method is POST and a body was passed, and the body is then its JSON
    text.  It is the only request sent after the signing, and neither the
    heap nor the clock is touched after the signing. *)
Theorem authenticatedCall_request
    creds method endpoint query body w reqHeaders w1 :
  getRequestSign creds endpoint method [] query body w
    = (Ok reqHeaders, w1) →
  let run := authenticatedCall creds method endpoint query body w in
  ∃ req evs,
    trace run.2 = trace w1 ++ EFetch req :: evs
    ∧ requested_urls evs = []
    ∧ req_url req = baseUrl creds +:+ endpoint
    ∧ req_method req = Some method
    ∧ req_headers req = reqHeaders
    ∧ (∀ json,
         req_body req = Some json
         ↔ method = "POST"
           ∧ ∃ b, body = Some b ∧ JSON_stringify (VObj b) = Some json)
    ∧ heap run.2 = heap w1
    ∧ clock_reads run.2 = clock_reads w1.
Proof.
  intros Hsign run. unfold run.
  rewrite (authenticatedCall_signed _ _ _ _ _ _ _ _ Hsign). cbv zeta.
  set (req := call_request creds method endpoint reqHeaders body).
  assert (∀ json,
            req_body req = Some json
            ↔ method = "POST"
              ∧ ∃ b, body = Some b ∧ JSON_stringify (VObj b) = Some json)
    as Hbody.
  { intros json. unfold req, call_request. cbn [req_body].
    destruct body as [b|].
    - destruct (String.eqb_spec method "POST") as [->|Hne].
      + split; [intros Hb; split; [done|]; by exists b|].
        by intros (_ & b' & [= <-] & Hb).
      + split; [done|]. by intros [? _].
    - split; [done|]. by intros (_ & b & ? & _). }
  exists req.
  destruct (network (trace w1) req) as [resp|e0].
  - destruct (ok resp).
    + destruct (JSON_parse (text resp)) as [res|e1];
        cbn [mbind result_bind].
      * destruct (envelope_outcome res) as [v|e2].
        -- exists [EJson (text resp)]. by split_and!.
        -- exists [EJson (text resp); ELogError e2]. cbn.
           split_and!; try done. by rewrite <- app_assoc.
      * exists [EJson (text resp); ELogError e1]. cbn.
        split_and!; try done. by rewrite <- app_assoc.
    + eexists [ELogError _]. cbn. split_and!; try done.
      by rewrite <- app_assoc.
  - exists [ELogError e0]. cbn. split_and!; try done.
    by rewrite <- app_assoc.
Qed.

(** X8. What is signed and what is sent can differ.  For a method other
    than GET and POST, or for POST without a body, the request that
    [authenticatedCall] sends after the signing has no body, while the
    signature in its headers covers the SHA-256 of the JSON text of the
    body, which is the text of the empty object when no body was
    passed. *)
Theorem signed_body_not_sent
    creds method endpoint query body w reqHeaders w1 :
  getRequestSign creds endpoint method [] query body w
    = (Ok reqHeaders, w1) →
  method ≠ "GET" →
  method ≠ "POST" ∨ body = None →
  let run := authenticatedCall creds method endpoint query body w in
  let json := default "" (JSON_stringify (VObj (default [] body))) in
  ∃ req evs url,
    trace run.2 = trace w1 ++ EFetch req :: evs
    ∧ requested_urls evs = []
    ∧ req_method req = Some method
    ∧ req_body req = None
    ∧ obj_get "path" (req_headers req) = VStr url
    ∧ obj_get "sign" (req_headers req)
      = VStr (upper_hex
                (hmac_sha256 (secretKey creds)
                   (accessKey creds
                    +:+ toString (obj_get "access_token" (req_headers req))
                    +:+ pretty (now (clock_reads w))
                    +:+ join newline
                          [method; hex (sha256 json); ""; url])))
    ∧ (body = None → json = "{}").
Proof.
  intros Hsign Hget Hpost run json.
  destruct (authenticatedCall_sends _ _ _ _ _ _ _ _ Hsign)
    as (evs & Htrace & Hevs).
  destruct (getRequestSign_Ok_inv _ _ _ _ _ _ _ _ _ Hsign)
    as (token & w2 & querystring & _ & _ & _ & ->).
  eexists _, evs, _. split_and!.
  - exact Htrace.
  - exact Hevs.
  - reflexivity.
  - unfold call_request. cbn [req_body]. destruct body as [b|]; [|done].
    destruct Hpost as [Hpost|?]; [|done].
    by destruct (String.eqb_spec method "POST").
  - reflexivity.
  - unfold call_request. cbn [req_headers].
    unfold signed_headers, signature, string_to_sign, content_hash.
    rewrite decide_False by done. reflexivity.
  - by intros ->.
Qed.

End ClientProperties.

(** ** Splitting the path *)

Lemma split_no_separator c s :
  c ∉ list_ascii_of_string s → split c s = [s].
Proof.
  induction s as [|x s IH]; [done|]. cbn [list_ascii_of_string split].
  intros Hc. apply not_elem_of_cons in Hc as [Hne Hc].
  destruct (decide (x = c)) as [?|_]; [congruence|]. by rewrite IH.
Qed.

Lemma split_at_separator c s rest :
  c ∉ list_ascii_of_string s →
  split c (s +:+ String c rest) = s :: split c rest.
Proof.
  induction s as [|x s IH].
  - intros _. change ("" +:+ String c rest) with (String c rest).
    cbn [split]. by destruct (decide (c = c)).
  - change (String x s +:+ String c rest)
      with (String x (s +:+ String c rest)).
    cbn [list_ascii_of_string split].
    intros Hc. apply not_elem_of_cons in Hc as [Hne Hc].
    destruct (decide (x = c)) as [?|_]; [congruence|]. by rewrite IH.
Qed.

Section Frame.

Context `{Runtime}.

Lemma getRequestSign_heap creds path method headers query body w :
  let run := getRequestSign creds path method headers query body w in
  heap run.2 = heap (enter query w).2
  ∨ heap run.2
    = alter (λ q, Object_assign q (qs_parse (path_query path)))
        (enter query w).1 (heap (enter query w).2).
Proof.
  intros run. unfold run. rewrite getRequestSign_run.
  destruct (enter query w) as [l w0]. cbn [fst snd].
  destruct (getToken_one_request creds (tick w0))
    as (evs & _ & _ & _ & Hheap & _).
  destruct (getToken creds (tick w0)) as [[token|e] w2]; cbn [snd] in Hheap.
  - right. cbn [sign_with].
    destruct (decodeURIComponent _); cbn [snd assign_at heap];
      by rewrite Hheap.
  - left. cbn [sign_with snd]. by rewrite Hheap.
Qed.

Lemma authenticatedCall_heap_eq creds method endpoint query body w :
  heap (authenticatedCall creds method endpoint query body w).2
  = heap (getRequestSign creds endpoint method [] query body w).2.
Proof.
  destruct (getRequestSign creds endpoint method [] query body w)
    as [[hdrs|e] w1] eqn:Hsign.
  - by rewrite (authenticatedCall_heap _ _ _ _ _ _ _ _ Hsign).
  - by rewrite (authenticatedCall_unsigned _ _ _ _ _ _ _ _ Hsign).
Qed.

(** X9. [getRequestSign] sees of the path only the text before its first
    [?] and the text between the first and the second: a path without [?]
    is its own uri and has no query, and whatever follows a second [?]
    changes neither the headers nor the world. *)
Theorem getRequestSign_path_pieces
    creds method headers query body w (a b c : string) :
  "?"%char ∉ list_ascii_of_string a →
  "?"%char ∉ list_ascii_of_string b →
  path_uri a = a
  ∧ path_query a = None
  ∧ path_uri (a +:+ "?" +:+ b) = a
  ∧ path_query (a +:+ "?" +:+ b) = Some b
  ∧ getRequestSign creds (a +:+ "?" +:+ b +:+ "?" +:+ c) method headers
      query body w
    = getRequestSign creds (a +:+ "?" +:+ b) method headers query body w.
Proof.
  intros Ha Hb.
  assert (split "?" a = [a]) as Hsplit_a by by apply split_no_separator.
  assert (split "?" (a +:+ "?" +:+ b) = [a; b]) as Hsplit_ab.
  { change (a +:+ "?" +:+ b) with (a +:+ String "?" b).
    rewrite split_at_separator by done. by rewrite split_no_separator. }
  assert (∃ rest, split "?" (a +:+ "?" +:+ b +:+ "?" +:+ c) = a :: b :: rest)
    as [rest Hsplit_abc].
  { change (a +:+ "?" +:+ b +:+ "?" +:+ c)
      with (a +:+ String "?" (b +:+ String "?" c)).
    rewrite !split_at_separator by done. by eexists. }
  split_and!.
  - unfold path_uri. by rewrite Hsplit_a.
  - unfold path_query. by rewrite Hsplit_a.
  - unfold path_uri. by rewrite Hsplit_ab.
  - unfold path_query. by rewrite Hsplit_ab.
  - rewrite !getRequestSign_run. unfold sign_with, path_uri, path_query.
    by rewrite Hsplit_ab, Hsplit_abc.
Qed.

(** X10. The only object a call can change is the query object.  With a
    query of the caller, the heap keeps its size and every other object;
    without one, and in the three device operations, the heap gains one
    object and every object of the caller is as before.  This holds
    however the call ends. *)
Theorem calls_change_only_the_query
    creds method endpoint query body deviceId onOff h s v w :
  let run := authenticatedCall creds method endpoint query body w in
  match query with
  | Some l =>
      length (heap run.2) = length (heap w)
      ∧ ∀ l', l' ≠ l → heap run.2 !! l' = heap w !! l'
  | None => ∃ o, heap run.2 = heap w ++ [o]
  end
  ∧ (∃ o, heap (getDeviceStatus creds deviceId w).2 = heap w ++ [o])
  ∧ (∃ o, heap (turnOnOff creds deviceId onOff w).2 = heap w ++ [o])
  ∧ (∃ o, heap (changeColor creds deviceId h s v w).2 = heap w ++ [o]).
Proof.
  intros run.
  assert (∀ method endpoint body,
            ∃ o, heap (authenticatedCall creds method endpoint None body w).2
                 = heap w ++ [o]) as Hnone.
  { intros m ep b. rewrite authenticatedCall_heap_eq.
    destruct (getRequestSign_heap creds ep m [] None b w) as [-> | ->];
      cbn [enter fst snd heap].
    - by eexists.
    - rewrite alter_app_r_alt by done. rewrite Nat.sub_diag. by eexists. }
  assert (∀ method endpoint body,
            ∃ o, heap (authenticatedCall creds method endpoint
                         (Some (length (heap w))) body
                         (enter None w).2).2
                 = heap w ++ [o]) as Hfresh.
  { intros m ep b. rewrite authenticatedCall_heap_eq.
    destruct (getRequestSign_heap creds ep m [] (Some (length (heap w))) b
                (enter None w).2) as [-> | ->];
      cbn [enter fst snd heap].
    - by eexists.
    - rewrite alter_app_r_alt by done. rewrite Nat.sub_diag. by eexists. }
  split_and!.
  - destruct query as [l|]; [|apply Hnone].
    unfold run. rewrite authenticatedCall_heap_eq.
    destruct (getRequestSign_heap creds endpoint method [] (Some l) body w)
      as [-> | ->]; cbn [enter fst snd]; [done|].
    split; [by rewrite length_alter|].
    intros l' Hl'. by apply list_lookup_alter_ne.
  - unfold getDeviceStatus.
    destruct (Hnone "GET" ("/v1.0/devices/" +:+ deviceId +:+ "/status") None)
      as [o Ho].
    exists o. rewrite <- Ho. unfold bind.
    destruct (authenticatedCall creds "GET" _ None None w)
      as [[envelope|e] w1]; [|done].
    cbn [snd]. unfold lift at 1.
    destruct (get_prop "result" envelope) as [r|e]; [|done].
    by destruct r.
  - unfold turnOnOff. unfold bind at 1, alloc at 1. cbv beta iota zeta.
    change {| clock_reads := clock_reads w; heap := heap w ++ [[]];
              trace := trace w |} with (enter None w).2.
    unfold bind at 1.
    match goal with
    | |- context [authenticatedCall creds ?m ?ep _ ?b (enter None w).2] =>
        destruct (Hfresh m ep b) as [o Ho]
    end.
    exists o. rewrite <- Ho. unfold bind.
    destruct (authenticatedCall creds "POST" _ _ _ _)
      as [[envelope|e] w1]; reflexivity.
  - unfold changeColor. unfold bind at 1, alloc at 1. cbv beta iota zeta.
    change {| clock_reads := clock_reads w; heap := heap w ++ [[]];
              trace := trace w |} with (enter None w).2.
    unfold bind at 1.
    match goal with
    | |- context [authenticatedCall creds ?m ?ep _ ?b (enter None w).2] =>
        destruct (Hfresh m ep b) as [o Ho]
    end.
    exists o. rewrite <- Ho. unfold bind.
    destruct (authenticatedCall creds "POST" _ _ _ _)
      as [[envelope|e] w1]; [|done].
    cbn [snd]. unfold lift at 1.
    by destruct (get_prop "result" envelope).
Qed.

End Frame.

(** ** Decoding a status list *)

Section StatusProperties.

Context `{Runtime}.

Lemma field_of_code_fields code field :
  field_of_code code = Some field → field ∈ status_fields.
Proof.
  unfold field_of_code, status_fields.
  repeat case_match; intros [= <-]; rewrite !elem_of_cons; auto 10.
Qed.

Lemma status_step_cases status c status' :
  status_step status c = Ok status' →
  status' = status
  ∨ ∃ field v, field ∈ status_fields ∧ status' = obj_set field v status.
Proof.
  destruct c as [| | | | | |o|];
    try (intros [= <-]; by left); try done.
  rewrite status_step_obj.
  destruct (field_of_code (obj_get "code" o)) as [field|] eqn:Hfield.
  - destruct (decoded_value field _) as [v|]; [|done].
    cbn [mbind result_bind]. intros [= <-]. right. exists field, v.
    split; [by eapply field_of_code_fields|done].
  - intros [= <-]. by left.
Qed.

Lemma forEach_status_invariant cs status status' :
  forEach_status cs status = Ok status' →
  NoDup status.*1 → status.*1 ⊆ status_fields →
  NoDup status'.*1 ∧ status'.*1 ⊆ status_fields.
Proof.
  revert status. induction cs as [|c cs IH]; intros status.
  - by intros [= <-].
  - cbn [forEach_status].
    destruct (status_step status c) as [s1|] eqn:Hstep; [|done].
    cbn [mbind result_bind]. intros Hrest Hnd Hsub.
    apply (IH _ Hrest).
    + destruct (status_step_cases _ _ _ Hstep) as [-> | (f & v & _ & ->)];
        [done|]. by apply obj_set_NoDup.
    + destruct (status_step_cases _ _ _ Hstep) as [-> | (f & v & Hf & ->)];
        [done|].
      intros k Hk. apply obj_set_elem_of in Hk as [-> | Hk]; [done|].
      by apply Hsub.
Qed.

Lemma getDeviceStatus_Ok_inv creds deviceId w status w' :
  getDeviceStatus creds deviceId w = (Ok status, w') →
  ∃ envelope cs,
    authenticatedCall creds "GET"
      ("/v1.0/devices/" +:+ deviceId +:+ "/status") None None w
    = (Ok envelope, w')
    ∧ get_prop "result" envelope = Ok (VArr cs)
    ∧ forEach_status cs [] = Ok status.
Proof.
  unfold getDeviceStatus. intros Hrun.
  apply bind_inv_Ok in Hrun as (envelope & w1 & Hcall & Hrun).
  apply bind_inv_Ok in Hrun as (result & w2 & Hresult & Hrun).
  unfold lift in Hresult. injection Hresult as Hresult <-.
  destruct result; try done.
  unfold lift in Hrun. injection Hrun as Hrun <-.
  by exists envelope, vs.
Qed.

(** X11. A status that [getDeviceStatus] returns has no field twice and no
    field besides [onOff], [brightness], [temp] and [color]: at most four
    entries, however long the list of the platform. *)
Theorem getDeviceStatus_fields creds deviceId w status :
  (getDeviceStatus creds deviceId w).1 = Ok status →
  NoDup status.*1
  ∧ status.*1 ⊆ status_fields
  ∧ length status ≤ 4.
Proof.
  destruct (getDeviceStatus creds deviceId w) as [r w'] eqn:Hrun.
  cbn [fst]. intros ->.
  apply getDeviceStatus_Ok_inv in Hrun as (envelope & cs & _ & _ & Hfold).
  destruct (forEach_status_invariant _ _ _ Hfold) as [Hnd Hsub].
  { constructor. }
  { intros k Hk. by apply elem_of_nil in Hk. }
  split_and!; [done..|].
  rewrite <- (length_fmap fst).
  apply (submseteq_length _ status_fields), NoDup_submseteq; done.
Qed.

(** X12. Decoding is all or nothing.  If a pair of the list cannot be
    decoded, because the element is [null] or because the text of a colour
    is no JSON, [getDeviceStatus] throws the exception of that pair as it
    is, whatever was decoded before it and whatever follows. *)
Theorem getDeviceStatus_all_or_nothing
    creds deviceId w envelope w1 cs1 c cs2 status1 e :
  authenticatedCall creds "GET"
    ("/v1.0/devices/" +:+ deviceId +:+ "/status") None None w
    = (Ok (VObj envelope), w1) →
  obj_get "result" envelope = VArr (cs1 ++ c :: cs2) →
  forEach_status cs1 [] = Ok status1 →
  status_step status1 c = Throw e →
  getDeviceStatus creds deviceId w = (Throw e, w1)
  ∧ (c = VNull → exn_name e = "TypeError")
  ∧ (∀ v, c = VObj (status_pair "colour_data_v2" v) →
       JSON_parse (toString v) = Throw e).
Proof.
  intros Hcall Hresult Hprefix Hstep. split_and!.
  - unfold getDeviceStatus. rewrite (bind_Ok _ _ _ _ _ Hcall).
    unfold bind, lift at 1. cbn [get_prop]. rewrite Hresult.
    unfold lift. rewrite forEach_status_app, Hprefix.
    cbn [mbind result_bind forEach_status]. by rewrite Hstep.
  - intros ->. by injection Hstep as <-.
  - intros v ->. rewrite status_step_colour in Hstep.
    revert Hstep.
    destruct (JSON_parse (toString v)); cbn [mbind result_bind];
      [intros [=] | by intros [= ->]].
Qed.

(** X13. Degenerate elements of the list.  An element that is no object
    (a number, a string, a boolean, a list) is passed over; so is an object
    without [code] or with a [code] that is no string.  A recognised pair
    without [value] sets its field to [undefined], and an element [null]
    stops the decoding with a [TypeError]. *)
Theorem status_step_degenerate status :
  (∀ c, not_an_object c → status_step status c = Ok status)
  ∧ (∀ o, "code" ∉ o.*1 → status_step status (VObj o) = Ok status)
  ∧ (∀ o n, obj_get "code" o = VNum n → status_step status (VObj o) = Ok status)
  ∧ status_step status (VObj [("code", VStr "switch_led")])
    = Ok (obj_set "onOff" VUndef status)
  ∧ (∃ m, status_step status VNull = Throw (TypeError m))
  ∧ (∃ m, status_step status VUndef = Throw (TypeError m)).
Proof.
  split_and!.
  - intros c Hc. by destruct c.
  - intros o Hcode. rewrite status_step_obj.
    by rewrite (obj_get_notin _ _ Hcode).
  - intros o n Hcode. rewrite status_step_obj. by rewrite Hcode.
  - by rewrite status_step_obj.
  - by eexists.
  - by eexists.
Qed.

(** X14. An envelope whose [result] is no list: [getDeviceStatus] throws a
    [TypeError], as it is, after the two requests have been made. *)
Theorem getDeviceStatus_result_not_a_list creds deviceId w envelope w1 :
  authenticatedCall creds "GET"
    ("/v1.0/devices/" +:+ deviceId +:+ "/status") None None w
    = (Ok (VObj envelope), w1) →
  (∀ cs, obj_get "result" envelope ≠ VArr cs) →
  ∃ m, getDeviceStatus creds deviceId w = (Throw (TypeError m), w1).
Proof.
  intros Hcall Hresult. unfold getDeviceStatus.
  rewrite (bind_Ok _ _ _ _ _ Hcall). unfold bind, lift at 1.
  cbn [get_prop].
  destruct (obj_get "result" envelope) eqn:Hr; try by eexists.
  by destruct (Hresult vs).
Qed.

End StatusProperties.

(** ** [JSON.parse] undoes [JSON.stringify] *)

Lemma stringify_members ps :
  (fix go (l : obj) : list (string * option string) :=
     match l with
     | [] => []
     | (k, x) :: l' => (k, JSON_stringify x) :: go l'
     end) ps = (λ p, (p.1, JSON_stringify p.2)) <$> ps.
Proof. induction ps as [|[k x] ps IH]; [done|]. by rewrite IH. Qed.

Lemma JSON_stringify_obj ps :
  Forall (λ k, array_index k = None) ps.*1 → NoDup ps.*1 →
  JSON_stringify (VObj ps)
  = Some ("{" +:+ join ","
            (omap (λ p, s ← JSON_stringify p.2;
                        Some (json_quote p.1 +:+ ":" +:+ s)) ps) +:+ "}").
Proof.
  intros Hplain Hnd. cbn [JSON_stringify].
  rewrite stringify_members, (Object_keys_plain _ Hplain).
  assert (∀ qs, qs ⊆ ps →
    omap (λ k, mjoin (assoc k ((λ p, (p.1, JSON_stringify p.2)) <$> ps))
               ≫= λ s, Some (json_quote k +:+ ":" +:+ s)) qs.*1
    = omap (λ p, JSON_stringify p.2
                 ≫= λ s, Some (json_quote p.1 +:+ ":" +:+ s)) qs) as Hgen.
  2: { by rewrite Hgen. }
  assert (∀ k x, (k, x) ∈ ps →
    assoc k ((λ p, (p.1, JSON_stringify p.2)) <$> ps)
    = Some (JSON_stringify x)) as Hassoc.
  { clear Hplain. induction ps as [|[k' x'] ps IH]; intros k x Hin.
    - by apply elem_of_nil in Hin.
    - apply NoDup_cons in Hnd as [Hk' Hnd]. cbn. case_decide as Hk.
      + subst k'. apply elem_of_cons in Hin as [[= ->]|Hin]; [done|].
        destruct Hk'. apply (list_elem_of_fmap_2 fst _ (k, x)); done.
      + apply elem_of_cons in Hin as [[= -> ->]|Hin]; [done|]. by apply IH. }
  induction qs as [|[k x] qs IH]; intros Hsub; [done|].
  cbn [fmap list_fmap omap list_omap fst snd].
  rewrite (Hassoc k x) by (apply Hsub; left). cbn [mjoin option_join].
  rewrite <- IH; [done|]. intros p Hp. apply Hsub. by right.
Qed.

(** *** Numbers *)

Lemma pretty_N_go_append x s t :
  pretty_N_go x s +:+ t = pretty_N_go x (s +:+ t).
Proof.
  revert s. induction (N.lt_wf_0 x) as [x _ IH]; intros s.
  destruct (decide (x = 0)%N) as [->|Hx]; [by rewrite !pretty_N_go_0|].
  rewrite !(pretty_N_go_step x) by lia.
  rewrite IH; [done|]. apply N.div_lt; lia.
Qed.

Lemma is_nat_pretty_N_char d :
  (d < 10)%N → Ascii.is_nat (pretty_N_char d) = Some (N.to_nat d).
Proof.
  intros Hd.
  assert (d = 0 ∨ d = 1 ∨ d = 2 ∨ d = 3 ∨ d = 4 ∨ d = 5 ∨ d = 6 ∨ d = 7
          ∨ d = 8 ∨ d = 9)%N as Hcases by lia.
  repeat (destruct Hcases as [->|Hcases]; [reflexivity|]).
  by subst d.
Qed.

Lemma digits_pretty_N_go x s :
  Json.digits (pretty_N_go x s)
  = (pretty_N_go x (Json.digits s).1, (Json.digits s).2).
Proof.
  revert s. induction (N.lt_wf_0 x) as [x _ IH]; intros s.
  destruct (decide (x = 0)%N) as [->|Hx].
  { rewrite !pretty_N_go_0. by destruct (Json.digits s). }
  rewrite !(pretty_N_go_step x) by lia.
  rewrite IH by (apply N.div_lt; lia).
  cbn [Json.digits].
  rewrite is_nat_pretty_N_char by (apply N.mod_lt; lia).
  by destruct (Json.digits s).
Qed.

Lemma digits_value_pretty_N_go x d :
  digits_value 0 (pretty_N_go x d) = digits_value x d.
Proof.
  revert d. induction (N.lt_wf_0 x) as [x _ IH]; intros d.
  destruct (decide (x = 0)%N) as [->|Hx]; [by rewrite pretty_N_go_0|].
  rewrite (pretty_N_go_step x) by lia.
  rewrite IH by (apply N.div_lt; lia).
  cbn [digits_value].
  rewrite is_nat_pretty_N_char by (apply N.mod_lt; lia).
  f_equal. rewrite N2Nat.id. symmetry. apply N.div_mod. lia.
Qed.

Lemma pretty_N_go_head x s :
  (0 < x)%N →
  ∃ d t, pretty_N_go x s = String (pretty_N_char d) t ∧ (0 < d < 10)%N.
Proof.
  revert s. induction (N.lt_wf_0 x) as [x _ IH]; intros s Hx.
  rewrite pretty_N_go_step by done.
  destruct (decide (x < 10)%N) as [Hlt|Hge].
  - rewrite N.div_small, N.mod_small, pretty_N_go_0 by done.
    exists x, s. split; [done|lia].
  - apply IH; [apply N.div_lt; lia|].
    apply N.div_str_pos. lia.
Qed.

Lemma ends_digits_digits rest :
  ends_digits rest → Json.digits rest = ("", rest).
Proof. destruct rest as [|c rest]; [done|]. intros [Hc _]. cbn. by rewrite Hc. Qed.

Lemma ends_digits_number rest :
  ends_digits rest → Json.ends_number rest = true.
Proof.
  destruct rest as [|c rest]; [done|]. intros (_ & ? & ? & ?). cbn.
  rewrite bool_decide_false; [done|]. intros [?|[?|?]]; done.
Qed.

Lemma unsigned_pretty_N (n : N) rest :
  ends_digits rest →
  Json.unsigned (pretty n +:+ rest) = Some (Z.of_N n, rest).
Proof.
  intros Hrest. unfold Json.unsigned, pretty, pretty_N.
  case_decide as Hn.
  - subst n. change ("0" +:+ rest) with (String "0" rest).
    change (Json.digits (String "0" rest))
      with (let '(d, r) := Json.digits rest in (String "0" d, r)).
    rewrite (ends_digits_digits _ Hrest).
    by rewrite (ends_digits_number _ Hrest).
  - rewrite pretty_N_go_append. change ("" +:+ rest) with rest.
    rewrite digits_pretty_N_go, (ends_digits_digits _ Hrest). cbn [fst snd].
    destruct (pretty_N_go_head n "" ltac:(lia)) as (d & t & Heq & Hd).
    assert (digits_value 0 (pretty_N_go n "") = Some n) as Hval
      by by rewrite digits_value_pretty_N_go.
    rewrite Heq in Hval |- *.
    rewrite (ends_digits_number _ Hrest).
    assert (d = 1 ∨ d = 2 ∨ d = 3 ∨ d = 4 ∨ d = 5 ∨ d = 6 ∨ d = 7
            ∨ d = 8 ∨ d = 9)%N as Hcases by lia.
    repeat (destruct Hcases as [->|Hcases];
            [cbn [pretty_N_char] in *; by rewrite Hval|]).
    subst d. cbn [pretty_N_char] in *. by rewrite Hval.
Qed.

Lemma number_pretty (z : Z) rest :
  ends_digits rest →
  Json.number (pretty z +:+ rest) = Some (z, rest).
Proof.
  intros Hrest. destruct z as [|p|p].
  - apply (unsigned_pretty_N 0 _ Hrest).
  - change (pretty (Z.pos p)) with (pretty (N.pos p)).
    pose proof (unsigned_pretty_N (N.pos p) _ Hrest) as Hu.
    unfold pretty, pretty_N in Hu |- *.
    rewrite decide_False in Hu |- * by done.
    rewrite pretty_N_go_append in Hu |- *.
    destruct (pretty_N_go_head (N.pos p) ("" +:+ rest) ltac:(lia))
      as (d & t & Heq & Hd).
    rewrite Heq in Hu |- *.
    assert (d = 1 ∨ d = 2 ∨ d = 3 ∨ d = 4 ∨ d = 5 ∨ d = 6 ∨ d = 7
            ∨ d = 8 ∨ d = 9)%N as Hcases by lia.
    repeat (destruct Hcases as [->|Hcases]; [exact Hu|]).
    subst d. exact Hu.
  - change (pretty (Z.neg p)) with ("-" +:+ pretty (N.pos p)).
    change (("-" +:+ pretty (N.pos p)) +:+ rest)
      with (String "-" (pretty (N.pos p) +:+ rest)).
    unfold Json.number.
    by rewrite (unsigned_pretty_N (N.pos p) _ Hrest).
Qed.

Lemma pretty_Z_head (z : Z) rest :
  ∃ c t, pretty z +:+ rest = String c t
         ∧ c ∈ ["-"; "0"; "1"; "2"; "3"; "4"; "5"; "6"; "7"; "8"; "9"]%char.
Proof.
  assert (∀ p : positive, ∃ c t, pretty (N.pos p) +:+ rest = String c t
            ∧ c ∈ ["1"; "2"; "3"; "4"; "5"; "6"; "7"; "8"; "9"]%char) as Hpos.
  { intros p. unfold pretty, pretty_N. rewrite decide_False by done.
    rewrite pretty_N_go_append.
    destruct (pretty_N_go_head (N.pos p) ("" +:+ rest) ltac:(lia))
      as (d & t & -> & Hd).
    exists (pretty_N_char d), t. split; [done|].
    assert (d = 1 ∨ d = 2 ∨ d = 3 ∨ d = 4 ∨ d = 5 ∨ d = 6 ∨ d = 7
            ∨ d = 8 ∨ d = 9)%N as Hcases by lia.
    rewrite !elem_of_cons.
    repeat (destruct Hcases as [->|Hcases]; [auto 10|]). subst d. auto 10. }
  destruct z as [|p|p].
  - exists "0"%char, rest. split; [done|]. rewrite !elem_of_cons. auto.
  - destruct (Hpos p) as (c & t & Heq & Hc). exists c, t. split; [done|].
    do 2 (rewrite elem_of_cons; right). done.
  - exists "-"%char, (pretty (N.pos p) +:+ rest). split; [done|]. by left.
Qed.

Lemma parse_value_number_head n c t :
  Json.is_json_space c = false → Json.is_quote c = false →
  c ∉ ["{"; "["; "t"; "f"; "n"]%char →
  Json.parse_value (S n) (String c t)
  = Json.number (String c t) ≫= λ '(z, r), Some (VNum z, r).
Proof.
  intros Hspace Hquote Hc. rewrite !not_elem_of_cons in Hc.
  destruct Hc as (? & ? & ? & ? & ? & _).
  cbn [Json.parse_value Json.skip_ws]. rewrite Hspace, Hquote.
  by rewrite !decide_False by done.
Qed.

Lemma parse_value_number n (z : Z) rest :
  ends_digits rest →
  Json.parse_value (S n) (pretty z +:+ rest) = Some (VNum z, rest).
Proof.
  intros Hrest. pose proof (number_pretty z rest Hrest) as Hnum.
  destruct (pretty_Z_head z rest) as (c & t & Heq & Hc).
  rewrite Heq in Hnum |- *.
  rewrite !elem_of_cons in Hc.
  rewrite parse_value_number_head, Hnum; [done|..];
    repeat (destruct Hc as [->|Hc];
            [first [reflexivity | by apply (bool_decide_unpack _)]|]);
    by apply elem_of_nil in Hc.
Qed.

(** *** Strings *)

Lemma string_app_assoc (a b c : string) : (a +:+ b) +:+ c = a +:+ b +:+ c.
Proof.
  induction a as [|x a IH]; [done|].
  change (String x ((a +:+ b) +:+ c) = String x (a +:+ b +:+ c)).
  by rewrite IH.
Qed.

Lemma string_app_empty_r (a : string) : a +:+ "" = a.
Proof.
  induction a as [|x a IH]; [done|].
  change (String x (a +:+ "") = String x a). by rewrite IH.
Qed.

Lemma string_app_length (a b : string) :
  String.length (a +:+ b) = String.length a + String.length b.
Proof.
  induction a as [|x a IH]; [done|].
  change (S (String.length (a +:+ b)) = S (String.length a + String.length b)).
  by rewrite IH.
Qed.

Lemma string_literal_escape_char c t :
  Json.string_literal (json_escape_char c +:+ t)
  = Json.string_literal t ≫= λ '(u, rest), Some (String c u, rest).
Proof. destruct c as [[] [] [] [] [] [] [] []]; reflexivity. Qed.

Lemma string_literal_escape s rest :
  Json.string_literal (json_escape s +:+ dquote +:+ rest) = Some (s, rest).
Proof.
  induction s as [|c s IH]; [reflexivity|].
  cbn [json_escape].
  by rewrite string_app_assoc, string_literal_escape_char, IH.
Qed.

Lemma json_quote_app s rest :
  json_quote s +:+ rest
  = String "034" (json_escape s +:+ dquote +:+ rest).
Proof.
  unfold json_quote. by rewrite !string_app_assoc.
Qed.

Lemma parse_value_string n s rest :
  Json.parse_value (S n) (json_quote s +:+ rest) = Some (VStr s, rest).
Proof.
  rewrite json_quote_app.
  change (Json.parse_value (S n) (String "034" ?t))
    with (Json.string_literal t ≫= λ '(u, r), Some (VStr u, r)).
  by rewrite string_literal_escape.
Qed.

(** *** Values *)

Lemma join_cons sep x l : join sep (x :: l) = x +:+ join_tail sep l.
Proof.
  unfold join. revert x. induction l as [|y l IH]; intros x.
  - by rewrite string_app_empty_r.
  - cbn [foldl join_tail foldr]. rewrite IH. by rewrite !string_app_assoc.
Qed.

Lemma join_tail_cons sep x l :
  join_tail sep (x :: l) = sep +:+ join sep (x :: l).
Proof. by rewrite join_cons. Qed.

Lemma json_clean_arr vs : json_clean (VArr vs) = forallb json_clean vs.
Proof. induction vs as [|x vs IH]; [done|]. cbn in *. by rewrite IH. Qed.

Lemma json_clean_obj ps :
  json_clean (VObj ps)
  = bool_decide (NoDup ps.*1)
    && bool_decide (Forall (λ k, array_index k = None) ps.*1)
    && forallb (λ p, json_clean p.2) ps.
Proof.
  cbn [json_clean]. f_equal.
  induction ps as [|[k x] ps IH]; [done|]. cbn [forallb snd]. by rewrite IH.
Qed.

Lemma json_size_arr vs : json_size (VArr vs) = S (elements_size vs).
Proof.
  reflexivity.
Qed.

Lemma json_size_obj ps : json_size (VObj ps) = S (members_size ps).
Proof.
  induction ps as [|[k x] ps IH]; [done|].
  change (json_size (VObj ((k, x) :: ps)))
    with (S (S (json_size x) + Nat.pred (json_size (VObj ps)))).
  by rewrite IH.
Qed.

Lemma json_size_pos v : 1 ≤ json_size v.
Proof. destruct v; cbn [json_size]; lia. Qed.

Lemma json_text_arr vs :
  json_text (VArr vs) = "[" +:+ join "," (json_text <$> vs) +:+ "]".
Proof.
  reflexivity.
Qed.

Lemma JSON_stringify_clean v :
  json_clean v = true → JSON_stringify v = Some (json_text v).
Proof. destruct v as [| |[]| | | | |]; done. Qed.

Lemma json_text_obj ps :
  json_clean (VObj ps) = true →
  json_text (VObj ps) = "{" +:+ join "," (member_text <$> ps) +:+ "}".
Proof.
  rewrite json_clean_obj, !andb_true_iff.
  intros [[Hnd%bool_decide_eq_true Hplain%bool_decide_eq_true] Hclean].
  unfold json_text at 1. rewrite JSON_stringify_obj by done.
  match goal with
  | |- default _ (Some ?x) = _ => change (default "null" (Some x)) with x
  end.
  assert (omap (λ p : string * value,
                  JSON_stringify p.2
                  ≫= λ s, Some (json_quote p.1 +:+ ":" +:+ s)) ps
          = member_text <$> ps) as ->; [|done].
  clear Hnd Hplain.
  induction ps as [|[k x] ps IH]; [done|].
  cbn [forallb snd] in Hclean. apply andb_true_iff in Hclean as [Hx Hps].
  cbn [omap list_omap fmap list_fmap fst snd]. rewrite IH by done.
  by rewrite (JSON_stringify_clean x Hx).
Qed.

Lemma obj_set_fresh k v (o : obj) : k ∉ o.*1 → obj_set k v o = o ++ [(k, v)].
Proof.
  induction o as [|[k' x] o IH]; [done|]. cbn [fmap list_fmap fst].
  rewrite not_elem_of_cons. intros [Hk Ho]. cbn [obj_set].
  rewrite decide_False by done. by rewrite IH.
Qed.

Lemma json_text_head v rest :
  json_clean v = true →
  ∃ c t, json_text v +:+ rest = String c t ∧ c ∈ value_heads.
Proof.
  intros Hv. unfold value_heads.
  destruct v as [| |[]|z|s|vs|ps|]; try done.
  - eexists _, _. split; [reflexivity|]. by apply (bool_decide_unpack _).
  - eexists _, _. split; [reflexivity|]. by apply (bool_decide_unpack _).
  - eexists _, _. split; [reflexivity|]. by apply (bool_decide_unpack _).
  - destruct (pretty_Z_head z rest) as (c & t & Heq & Hc).
    exists c, t. split; [done|]. rewrite !elem_of_cons, elem_of_nil in Hc.
    repeat (destruct Hc as [->|Hc]; [by apply (bool_decide_unpack _)|]).
    done.
  - exists "034"%char. eexists. split; [apply json_quote_app|].
    by apply (bool_decide_unpack _).
  - rewrite json_text_arr. eexists _, _. split; [reflexivity|].
    rewrite !elem_of_cons. auto 10.
  - rewrite json_text_obj by done. eexists _, _. split; [reflexivity|].
    rewrite !elem_of_cons. auto 10.
Qed.

Lemma parse_value_array n c t :
  c ∈ value_heads →
  Json.parse_value (S n) (String "[" (String c t))
  = Json.parse_elements n (String c t) [].
Proof.
  unfold value_heads. rewrite !elem_of_cons, elem_of_nil.
  intros Hc. repeat (destruct Hc as [->|Hc]; [reflexivity|]). done.
Qed.

Lemma parse_value_object n t :
  Json.parse_value (S n) (String "{" (String "034" t))
  = Json.parse_members n (String "034" t) [].
Proof. reflexivity. Qed.

Lemma parse_elements_step n s acc :
  Json.parse_elements (S n) s acc
  = Json.parse_value n s ≫= λ '(v, rest),
      match Json.skip_ws rest with
      | String "," r => Json.parse_elements n r (acc ++ [v])
      | String "]" r => Some (VArr (acc ++ [v]), r)
      | _ => None
      end.
Proof. reflexivity. Qed.

Lemma parse_members_step n k t acc :
  Json.parse_members (S n) (json_quote k +:+ ":" +:+ t) acc
  = Json.parse_value n t ≫= λ '(v, rest),
      match Json.skip_ws rest with
      | String "," r => Json.parse_members n r (obj_set k v acc)
      | String "}" r => Some (VObj (obj_set k v acc), r)
      | _ => None
      end.
Proof.
  rewrite json_quote_app.
  change (Json.parse_members (S n) (String "034" ?s) acc)
    with (Json.string_literal s ≫= λ '(k, rest1),
            match Json.skip_ws rest1 with
            | String ":" rest2 =>
                Json.parse_value n rest2 ≫= λ '(v, rest3),
                  match Json.skip_ws rest3 with
                  | String "," r => Json.parse_members n r (obj_set k v acc)
                  | String "}" r => Some (VObj (obj_set k v acc), r)
                  | _ => None
                  end
            | _ => None
            end).
  by rewrite string_literal_escape.
Qed.

Lemma ends_digits_sep c r :
  c ∈ [","; "]"; "}"]%char → ends_digits (String c r).
Proof.
  rewrite !elem_of_cons, elem_of_nil.
  intros [->|[->|[->|[]]]]; by cbn.
Qed.

Lemma skip_ws_sep c r :
  c ∈ [","; "]"; "}"]%char → Json.skip_ws (String c r) = String c r.
Proof.
  rewrite !elem_of_cons, elem_of_nil.
  intros [->|[->|[->|[]]]]; reflexivity.
Qed.

Lemma parse_text n :
  (∀ v rest,
     json_clean v = true → json_size v ≤ n → ends_digits rest →
     Json.parse_value n (json_text v +:+ rest) = Some (v, rest))
  ∧ (∀ vs acc rest,
       vs ≠ [] → forallb json_clean vs = true → elements_size vs ≤ n →
       Json.parse_elements n
         (join "," (json_text <$> vs) +:+ "]" +:+ rest) acc
       = Some (VArr (acc ++ vs), rest))
  ∧ (∀ ps (acc : obj) rest,
       ps ≠ [] → forallb (λ p, json_clean p.2) ps = true →
       NoDup (acc.*1 ++ ps.*1) → members_size ps ≤ n →
       Json.parse_members n
         (join "," (member_text <$> ps) +:+ "}" +:+ rest) acc
       = Some (VObj (acc ++ ps), rest)).
Proof.
  induction n as [|n (IHv & IHe & IHm)].
  { split_and!.
    - intros v ? _ Hsize. pose proof (json_size_pos v). lia.
    - intros [|x vs] ? ? Hne _ Hsize; [done|].
      cbn [elements_size foldr] in Hsize. lia.
    - intros [|p ps] ? ? Hne _ _ Hsize; [done|].
      cbn [members_size foldr] in Hsize. lia. }
  split_and!.
  - intros v rest Hv Hsize Hrest.
    destruct v as [| |[]|z|s|vs|ps|]; try done.
    + by apply parse_value_number.
    + by apply parse_value_string.
    + rewrite json_size_arr in Hsize. rewrite json_clean_arr in Hv.
      rewrite json_text_arr. destruct vs as [|x vs]; [reflexivity|].
      rewrite !string_app_assoc.
      change ("[" +:+ ?t) with (String "[" t).
      cbn [forallb] in Hv. pose proof Hv as [Hx _]%andb_true_iff.
      cbn [fmap list_fmap]. rewrite join_cons, string_app_assoc.
      destruct (json_text_head x
                  (join_tail "," (json_text <$> vs) +:+ "]" +:+ rest) Hx)
        as (c & t & Heq & Hc).
      rewrite Heq, (parse_value_array _ _ _ Hc), <- Heq.
      rewrite <- string_app_assoc, <- join_cons.
      apply (IHe (x :: vs) []); [done|done|lia].
    + rewrite json_size_obj in Hsize. rewrite json_text_obj by done.
      rewrite json_clean_obj, !andb_true_iff in Hv.
      destruct Hv as [[Hnd%bool_decide_eq_true _] Hclean].
      destruct ps as [|[k x] ps]; [reflexivity|].
      rewrite !string_app_assoc.
      change ("{" +:+ ?t) with (String "{" t).
      assert (∃ t, join "," (member_text <$> (k, x) :: ps) +:+ "}" +:+ rest
                   = String "034" t) as [t Heq].
      { cbn [fmap list_fmap]. rewrite join_cons. unfold member_text at 1.
        rewrite !string_app_assoc, json_quote_app. eauto. }
      rewrite Heq, parse_value_object, <- Heq.
      apply (IHm ((k, x) :: ps) []); [done|done|done|lia].
  - intros [|x vs] acc rest Hne Hv Hsize; [done|]. clear Hne.
    cbn [forallb] in Hv. apply andb_true_iff in Hv as [Hx Hvs].
    cbn [elements_size foldr] in Hsize. fold (elements_size vs) in Hsize.
    rewrite parse_elements_step. cbn [fmap list_fmap].
    destruct vs as [|y vs].
    + rewrite join_cons. cbn [fmap list_fmap join_tail foldr].
      rewrite string_app_empty_r.
      rewrite IHv; [|done|lia|apply ends_digits_sep, (bool_decide_unpack _); done].
      cbn [mbind option_bind].
      change ("]" +:+ rest) with (String "]" rest).
      rewrite skip_ws_sep by (by apply (bool_decide_unpack _)).
      reflexivity.
    + rewrite join_cons. cbn [fmap list_fmap].
      rewrite join_tail_cons, !string_app_assoc.
      rewrite IHv; [|done|lia|apply ends_digits_sep, (bool_decide_unpack _); done].
      cbn [mbind option_bind].
      change ("," +:+ ?t) with (String "," t).
      rewrite skip_ws_sep by (by apply (bool_decide_unpack _)).
      cbn [elements_size foldr] in Hsize.
      change (json_text y :: (json_text <$> vs))
        with (json_text <$> y :: vs).
      rewrite IHe; [by rewrite <- app_assoc|done|done|].
      cbn [elements_size foldr]. lia.
  - intros [|[k x] ps] acc rest Hne Hv Hnd Hsize; [done|]. clear Hne.
    cbn [forallb snd] in Hv. apply andb_true_iff in Hv as [Hx Hps].
    cbn [members_size foldr snd] in Hsize. fold (members_size ps) in Hsize.
    cbn [fmap list_fmap fst] in Hnd.
    assert (k ∉ acc.*1) as Hfresh.
    { apply NoDup_app in Hnd as (_ & Hdisj & _). intros Hin.
      apply (Hdisj k Hin). by left. }
    assert (NoDup ((acc ++ [(k, x)]).*1 ++ ps.*1)) as Hnd'.
    { rewrite fmap_app, <- app_assoc. done. }
    cbn [fmap list_fmap].
    destruct ps as [|q ps].
    + rewrite join_cons. cbn [fmap list_fmap join_tail foldr].
      rewrite string_app_empty_r. unfold member_text. cbn [fst snd].
      rewrite !string_app_assoc, parse_members_step.
      rewrite IHv; [|done|lia|apply ends_digits_sep, (bool_decide_unpack _); done].
      cbn [mbind option_bind].
      change ("}" +:+ rest) with (String "}" rest).
      rewrite skip_ws_sep by (by apply (bool_decide_unpack _)).
      by rewrite obj_set_fresh.
    + rewrite join_cons. cbn [fmap list_fmap].
      rewrite join_tail_cons. unfold member_text at 1.
      cbn [fst snd]. rewrite !string_app_assoc, parse_members_step.
      rewrite IHv; [|done|lia|apply ends_digits_sep, (bool_decide_unpack _); done].
      cbn [mbind option_bind].
      change ("," +:+ ?t) with (String "," t).
      rewrite skip_ws_sep by (by apply (bool_decide_unpack _)).
      rewrite obj_set_fresh by done.
      cbn [members_size foldr] in Hsize.
      change (member_text q :: (member_text <$> ps))
        with (member_text <$> q :: ps).
      rewrite IHm; [by rewrite <- app_assoc|done|done|done|].
      cbn [members_size foldr]. lia.
Qed.

Lemma join_length_bound {A} (f : A → string) (g : A → nat) sep l :
  (∀ x, x ∈ l → g x ≤ 2 * String.length (f x)) →
  foldr (λ x n, g x + n) 0 l ≤ 2 * String.length (join sep (f <$> l)).
Proof.
  intros Hl. destruct l as [|x l]; [done|].
  cbn [fmap list_fmap]. rewrite join_cons, string_app_length.
  cbn [foldr]. pose proof (Hl x ltac:(left)) as Hx.
  assert (foldr (λ x n, g x + n) 0 l
          ≤ 2 * String.length (join_tail sep (f <$> l))) as Htail; [|lia].
  assert (∀ y, y ∈ l → g y ≤ 2 * String.length (f y)) as Hl'
    by (intros y Hy; apply Hl; by right).
  clear Hl Hx. induction l as [|y l IH]; [done|].
  cbn [fmap list_fmap foldr].
  change (join_tail sep (f y :: (f <$> l)))
    with (sep +:+ f y +:+ join_tail sep (f <$> l)).
  rewrite !string_app_length.
  pose proof (Hl' y ltac:(left)) as Hy.
  assert (foldr (λ x n, g x + n) 0 l
          ≤ 2 * String.length (join_tail sep (f <$> l))); [|lia].
  apply IH. intros z Hz. apply Hl'. by right.
Qed.

Lemma json_size_element x vs : x ∈ vs → json_size x < elements_size vs.
Proof.
  induction vs as [|y vs IH]; [by intros ?%elem_of_nil|].
  cbn [elements_size foldr]. fold (elements_size vs).
  intros [->|Hx]%elem_of_cons; [lia|]. specialize (IH Hx). lia.
Qed.

Lemma json_size_member p ps : p ∈ ps → json_size p.2 < members_size ps.
Proof.
  induction ps as [|q ps IH]; [by intros ?%elem_of_nil|].
  cbn [members_size foldr]. fold (members_size ps).
  intros [->|Hp]%elem_of_cons; [lia|]. specialize (IH Hp). lia.
Qed.

Lemma json_text_length v :
  json_clean v = true → json_size v + 1 ≤ 2 * String.length (json_text v).
Proof.
  assert (∀ m v, json_size v ≤ m → json_clean v = true →
            json_size v + 1 ≤ 2 * String.length (json_text v)) as Haux;
    [|by apply (Haux (json_size v))].
  clear v. intros m. induction m as [|m IH]; intros v Hle Hv.
  { pose proof (json_size_pos v). lia. }
  destruct v as [| |[]|z|s|vs|ps|]; try done; try (cbn; lia).
  - destruct (pretty_Z_head z "") as (c & t & Heq & _).
    rewrite string_app_empty_r in Heq.
    unfold json_text. cbn [JSON_stringify json_size]. 
    change (default "null" (Some (pretty z))) with (pretty z).
    rewrite Heq. cbn [String.length]. lia.
  - change (json_text (VStr s)) with (json_quote s).
    rewrite <- (string_app_empty_r (json_quote s)), json_quote_app.
    cbn [String.length json_size]. lia.
  - rewrite json_size_arr in Hle |- *. rewrite json_text_arr.
    rewrite json_clean_arr in Hv. rewrite forallb_forall in Hv.
    rewrite !string_app_length.
    assert (elements_size vs
            ≤ 2 * String.length (join "," (json_text <$> vs))) as Hb.
    { apply (join_length_bound json_text (λ x, S (json_size x))).
      intros x Hx. pose proof (json_size_element x vs Hx).
      assert (json_size x + 1 ≤ 2 * String.length (json_text x)); [|lia].
      apply IH; [lia|]. apply Hv. by apply list_elem_of_In. }
    change (String.length "[") with 1. change (String.length "]") with 1. lia.
  - rewrite json_size_obj in Hle |- *. rewrite json_text_obj by done.
    rewrite json_clean_obj, !andb_true_iff in Hv.
    destruct Hv as [_ Hv]. rewrite forallb_forall in Hv.
    rewrite !string_app_length.
    assert (members_size ps
            ≤ 2 * String.length (join "," (member_text <$> ps))) as Hb.
    { apply (join_length_bound member_text (λ p, S (json_size p.2))).
      intros p Hp. pose proof (json_size_member p ps Hp).
      unfold member_text. rewrite !string_app_length.
      assert (json_size p.2 + 1 ≤ 2 * String.length (json_text p.2)); [|lia].
      apply IH; [lia|]. apply Hv. by apply list_elem_of_In. }
    change (String.length "{") with 1. change (String.length "}") with 1. lia.
Qed.

(** On a clean value the reference parser reads back what
    [JSON.stringify] wrote. *)
Lemma parse_stringify v s :
  json_clean v = true → JSON_stringify v = Some s → Json.parse s = Ok v.
Proof.
  intros Hv Hs. rewrite (JSON_stringify_clean v Hv) in Hs.
  injection Hs as <-. unfold Json.parse.
  pose proof (json_text_length v Hv) as Hlen.
  destruct (parse_text (2 * String.length (json_text v) + 2)) as (Hp & _ & _).
  specialize (Hp v "" Hv ltac:(lia) I).
  rewrite string_app_empty_r in Hp. by rewrite Hp.
Qed.

(** ** What the device operations write and read *)

Lemma JSON_stringify_hsv h s v :
  JSON_stringify (hsv_record h s v) = Some (hsv_json h s v).
Proof.
  unfold hsv_record. rewrite JSON_stringify_obj.
  - cbn [omap list_omap JSON_stringify mbind option_bind fst snd].
    cbn [join foldl]. unfold hsv_json. by rewrite !string_app_assoc.
  - repeat constructor.
  - by apply (bool_decide_unpack _).
Qed.

Section Texts.

Context `{Runtime}.

Lemma authenticatedCall_Ok_inv creds method endpoint query body w envelope w1 :
  authenticatedCall creds method endpoint query body w = (Ok envelope, w1) →
  ∃ success, get_prop "success" envelope = Ok success ∧ truthy success = true.
Proof.
  intros Hcall.
  destruct (getRequestSign creds endpoint method [] query body w)
    as [[hdrs|e] w0] eqn:Hsign.
  2: { by rewrite (authenticatedCall_unsigned _ _ _ _ _ _ _ _ Hsign) in Hcall. }
  rewrite (authenticatedCall_signed _ _ _ _ _ _ _ _ Hsign) in Hcall.
  cbv zeta in Hcall.
  destruct (network _ _) as [resp|e0]; [|done].
  destruct (ok resp); [|done].
  destruct (JSON_parse (text resp)) as [res|e1]; [|done].
  cbn [mbind result_bind] in Hcall. unfold envelope_outcome in Hcall.
  destruct (get_prop "success" res) as [success|e2] eqn:Hsuccess; [|done].
  cbn [mbind result_bind] in Hcall.
  destruct (truthy success) eqn:Htruthy; cbn [negb] in Hcall.
  - injection Hcall as <- <-. by exists success.
  - destruct (get_prop "msg" res); [|done]. cbn in Hcall.
    by destruct (get_prop "code" res).
Qed.

Lemma get_prop_defined k k' v x :
  get_prop k v = Ok x → ∃ y, get_prop k' v = Ok y.
Proof. destruct v; cbn; try done; eauto. Qed.

Lemma confirmation_clean deviceId onOff h s v :
  json_clean (switch_confirmation deviceId onOff) = true
  ∧ json_clean (colour_confirmation deviceId h s v) = true.
Proof. split; by destruct onOff. Qed.

(** X15. Once the call to the platform has returned, [turnOnOff] returns
    a confirmation whatever the envelope says: the envelope is logged and
    not looked at.  The confirmation is JSON text that reads back as the
    record of the message, the device identifier as it was given, whatever
    characters it holds, and the requested state. *)
Theorem turnOnOff_confirmation creds deviceId onOff w envelope w1 :
  authenticatedCall creds "POST" (commands_endpoint deviceId)
    (Some (enter None w).1) (Some (commands_body (switch_commands onOff)))
    (enter None w).2 = (Ok envelope, w1) →
  ∃ text,
    turnOnOff creds deviceId onOff w
    = (Ok (Some text), log_events [ELogValue envelope] w1)
    ∧ Json.parse text = Ok (switch_confirmation deviceId onOff).
Proof.
  intros Hcall.
  destruct (confirmation_clean deviceId onOff 0 0 0) as [Hclean _].
  exists (json_text (switch_confirmation deviceId onOff)). split.
  - unfold turnOnOff. unfold bind at 1, alloc at 1.
    change {| clock_reads := clock_reads w; heap := heap w ++ [[]];
              trace := trace w |} with (enter None w).2.
    change (length (heap w)) with (enter None w).1.
    unfold bind at 1.
    fold (commands_endpoint deviceId).
    change (VArr [VObj [("code", VStr "switch_led"); ("value", VBool onOff)]])
      with (VArr (switch_commands onOff)).
    fold (commands_body (switch_commands onOff)).
    rewrite Hcall. unfold bind, emit, ret. cbn [trace heap clock_reads].
    fold (switch_confirmation deviceId onOff).
    by rewrite (JSON_stringify_clean _ Hclean).
  - apply parse_stringify; [done|]. by apply JSON_stringify_clean.
Qed.

(** X16. [changeColor] neither checks the range of the three components
    nor looks at the result of the platform.  For components that are
    safe integers, whatever their size within that range and whatever
    their sign: once the call has returned, it returns a confirmation for
    every envelope, it logs nothing, and the reading of [result] cannot
    fail.  The confirmation reads back as the record of the message, the
    device identifier as it was given and the three components in
    decimal. *)
Theorem changeColor_confirmation creds deviceId h s v w envelope w1 :
  safe_integer h → safe_integer s → safe_integer v →
  authenticatedCall creds "POST" (commands_endpoint deviceId)
    (Some (enter None w).1) (Some (commands_body (colour_commands h s v)))
    (enter None w).2 = (Ok envelope, w1) →
  ∃ text,
    changeColor creds deviceId (VNum h) (VNum s) (VNum v) w
    = (Ok (Some text), w1)
    ∧ Json.parse text = Ok (colour_confirmation deviceId h s v).
Proof.
  intros _ _ _ Hcall.
  destruct (confirmation_clean deviceId true h s v) as [_ Hclean].
  exists (json_text (colour_confirmation deviceId h s v)). split.
  - destruct (authenticatedCall_Ok_inv _ _ _ _ _ _ _ _ Hcall)
      as (success & Hsuccess & _).
    destruct (get_prop_defined _ "result" _ _ Hsuccess) as [result Hresult].
    unfold changeColor. unfold bind at 1, alloc at 1.
    change {| clock_reads := clock_reads w; heap := heap w ++ [[]];
              trace := trace w |} with (enter None w).2.
    change (length (heap w)) with (enter None w).1.
    unfold bind at 1.
    fold (commands_endpoint deviceId). fold (hsv_record h s v).
    change (VArr [VObj [("code", VStr "colour_data_v2");
                        ("value",
                         opt_value (JSON_stringify (hsv_record h s v)))]])
      with (VArr (colour_commands h s v)).
    fold (commands_body (colour_commands h s v)).
    rewrite Hcall. unfold bind, lift, ret. rewrite Hresult.
    change (VObj [("message", VStr "The color has changed");
                  ("deviceId", VStr deviceId);
                  ("currentState",
                   VStr ("h: " +:+ toString (VNum h) +:+ ", s: "
                         +:+ toString (VNum s) +:+ ", v: "
                         +:+ toString (VNum v)))])
      with (colour_confirmation deviceId h s v).
    by rewrite (JSON_stringify_clean _ Hclean).
  - apply parse_stringify; [done|]. by apply JSON_stringify_clean.
Qed.

Lemma run_command_call creds deviceId c w :
  ∃ evs,
    trace (run_command creds deviceId c w).2
    = trace (authenticatedCall creds "POST" (commands_endpoint deviceId)
               (Some (enter None w).1) (Some (commands_body (commands_of c)))
               (enter None w).2).2 ++ evs
    ∧ requested_urls evs = [].
Proof.
  destruct c as [onOff|h s v]; cbn [run_command commands_of].
  - unfold turnOnOff. unfold bind at 1, alloc at 1.
    change {| clock_reads := clock_reads w; heap := heap w ++ [[]];
              trace := trace w |} with (enter None w).2.
    change (length (heap w)) with (enter None w).1.
    unfold bind at 1. fold (commands_endpoint deviceId).
    change (VArr [VObj [("code", VStr "switch_led"); ("value", VBool onOff)]])
      with (VArr (switch_commands onOff)).
    fold (commands_body (switch_commands onOff)).
    destruct (authenticatedCall _ _ _ _ _ _) as [[envelope|e] w1].
    + exists [ELogValue envelope]. by split.
    + exists []. by rewrite app_nil_r.
  - unfold changeColor. unfold bind at 1, alloc at 1.
    change {| clock_reads := clock_reads w; heap := heap w ++ [[]];
              trace := trace w |} with (enter None w).2.
    change (length (heap w)) with (enter None w).1.
    unfold bind at 1. fold (commands_endpoint deviceId).
    fold (hsv_record h s v).
    change (VArr [VObj [("code", VStr "colour_data_v2");
                        ("value",
                         opt_value (JSON_stringify (hsv_record h s v)))]])
      with (VArr (colour_commands h s v)).
    fold (commands_body (colour_commands h s v)).
    destruct (authenticatedCall _ _ _ _ _ _) as [[envelope|e] w1].
    + exists []. unfold bind, lift, ret.
      destruct (get_prop "result" envelope); by rewrite app_nil_r.
    + exists []. by rewrite app_nil_r.
Qed.

Lemma commands_clean c : forallb json_clean (commands_of c) = true.
Proof.
  destruct c as [onOff|h s v]; [done|].
  unfold commands_of, colour_commands. by rewrite JSON_stringify_hsv.
Qed.

(** X17. A device command does not travel as a JSON list.  The body of
    the request that [turnOnOff] and [changeColor] send after signing is
    the text of an object whose single field [commands] is a string, and
    that string is in turn the JSON text of the command list.  For a colour
    there is a third level: the value of the command is a string holding
    the text [{"h":H,"s":S,"v":V}].  Every level reads back as what was
    written, for both states and for all components that are safe
    integers. *)
Theorem commands_travel_as_text creds deviceId c w hdrs w1 :
  safe_command c →
  getRequestSign creds (commands_endpoint deviceId) "POST" []
    (Some (enter None w).1) (Some (commands_body (commands_of c)))
    (enter None w).2 = (Ok hdrs, w1) →
  ∃ req evs json ctext,
    trace (run_command creds deviceId c w).2 = trace w1 ++ EFetch req :: evs
    ∧ requested_urls evs = []
    ∧ req_body req = Some json
    ∧ Json.parse json = Ok (VObj [("commands", VStr ctext)])
    ∧ Json.parse ctext = Ok (VArr (commands_of c))
    ∧ ∀ h s v,
        c = Colour h s v →
        commands_of c
        = [VObj [("code", VStr "colour_data_v2");
                 ("value", VStr (hsv_json h s v))]]
        ∧ Json.parse (hsv_json h s v) = Ok (hsv_record h s v).
Proof.
  intros _ Hsign.
  destruct (run_command_call creds deviceId c w) as (evs1 & Htrace & Hevs1).
  destruct (authenticatedCall_sends _ _ _ _ _ _ _ _ Hsign)
    as (evs2 & Hcall & Hevs2).
  pose proof (commands_clean c) as Hclean.
  assert (json_clean (VArr (commands_of c)) = true) as Harr
    by by rewrite json_clean_arr.
  set (ctext := json_text (VArr (commands_of c))).
  assert (JSON_stringify (VArr (commands_of c)) = Some ctext) as Hctext
    by by apply JSON_stringify_clean.
  set (body := VObj [("commands", VStr ctext)]).
  assert (json_clean body = true) as Hbody by done.
  exists (call_request creds "POST" (commands_endpoint deviceId) hdrs
            (Some (commands_body (commands_of c)))),
         (evs2 ++ evs1), (json_text body), ctext.
  split_and!.
  - rewrite Htrace, Hcall. by rewrite <- app_assoc.
  - by rewrite requested_urls_app, Hevs1, Hevs2.
  - unfold call_request, commands_body. cbn [req_body String.eqb].
    rewrite Hctext. cbn [opt_value].
    by apply JSON_stringify_clean.
  - apply parse_stringify; [done|]. by apply JSON_stringify_clean.
  - by apply parse_stringify.
  - intros h s v ->. unfold commands_of, colour_commands.
    rewrite JSON_stringify_hsv. split; [done|].
    apply parse_stringify; [done|]. apply JSON_stringify_hsv.
Qed.

(** X18. What [changeColor] writes, [getDeviceStatus] reads.  For
    components that are safe integers, the value of the colour command is
    the text [{"h":H,"s":S,"v":V}].  When the parser of the runtime reads
    that text as the reference parser does, and the platform answers a
    status request with the command lists of [turnOnOff] and
    [changeColor], the status record holds the state under [onOff] and,
    under [color], the record of the three integers the colour command was
    built from. *)
Theorem getDeviceStatus_reads_commands
    creds deviceId onOff h s v w envelope w1 :
  safe_integer h → safe_integer s → safe_integer v →
  JSON_parse (hsv_json h s v) = Json.parse (hsv_json h s v) →
  authenticatedCall creds "GET" (status_endpoint deviceId) None None w
    = (Ok envelope, w1) →
  get_prop "result" envelope
    = Ok (VArr (switch_commands onOff ++ colour_commands h s v)) →
  colour_commands h s v
  = [VObj [("code", VStr "colour_data_v2");
           ("value", VStr (hsv_json h s v))]]
  ∧ getDeviceStatus creds deviceId w
    = (Ok [("onOff", VBool onOff); ("color", hsv_record h s v)], w1).
Proof.
  intros _ _ _ Hparse Hcall Hresult.
  assert (colour_commands h s v
          = [VObj [("code", VStr "colour_data_v2");
                   ("value", VStr (hsv_json h s v))]]) as Hcommands.
  { unfold colour_commands. by rewrite JSON_stringify_hsv. }
  split; [exact Hcommands|].
  unfold getDeviceStatus.
  fold (status_endpoint deviceId). unfold bind at 1. rewrite Hcall.
  unfold bind at 1, lift at 1. rewrite Hresult, Hcommands.
  unfold lift. f_equal.
  assert (JSON_parse (hsv_json h s v) = Ok (hsv_record h s v)) as Hcolour.
  { rewrite Hparse. apply parse_stringify; [done|]. apply JSON_stringify_hsv. }
  unfold switch_commands. cbn [app forEach_status].
  change [("code", VStr "switch_led"); ("value", VBool onOff)]
    with (status_pair "switch_led" (VBool onOff)).
  change [("code", VStr "colour_data_v2"); ("value", VStr (hsv_json h s v))]
    with (status_pair "colour_data_v2" (VStr (hsv_json h s v))).
  rewrite (status_step_plain [] "switch_led" "onOff") by done.
  cbn [mbind result_bind]. rewrite status_step_colour.
  cbn [toString]. by rewrite Hcolour.
Qed.

End Texts.

(** ** Room names, again *)

Lemma strip_lower_app a b :
  ascii_strip (ascii_toLowerCase (a +:+ b))
  = ascii_strip (ascii_toLowerCase a) +:+ ascii_strip (ascii_toLowerCase b).
Proof.
  induction a as [|c a IH]; [done|].
  change (String c a +:+ b) with (String c (a +:+ b)).
  cbn [ascii_toLowerCase string_map ascii_strip].
  fold (ascii_toLowerCase (a +:+ b)). fold (ascii_toLowerCase a). rewrite IH.
  by destruct (ascii_whitespace (ascii_lower c)).
Qed.

Lemma strip_lower_fixed s :
  Forall (λ c, ascii_whitespace c = false ∧ ascii_lower c = c)
    (list_ascii_of_string s) →
  ascii_strip (ascii_toLowerCase s) = s.
Proof.
  induction s as [|c s IH]; [done|].
  cbn [list_ascii_of_string]. intros Hs.
  apply Forall_cons in Hs as [[Hspace Hlower] Hs].
  cbn [ascii_toLowerCase string_map ascii_strip]. fold (ascii_toLowerCase s).
  rewrite Hlower, Hspace. by rewrite IH.
Qed.

Lemma ascii_text_normal s :
  ascii_text s → ascii_text (ascii_strip (ascii_toLowerCase s)).
Proof. intros Hs. by apply ascii_text_strip, ascii_text_toLowerCase. Qed.

(** X19. On room names of ASCII characters, where the string methods of
    the engine are the ASCII ones, the normalisation of the tool is
    idempotent and distributes over concatenation, so ASCII white space
    anywhere in the name and the case of its letters play no part.  The
    tool gives the same answer and writes the same log line for such a
    name and for its normal form. *)
Theorem normalize_idempotent `{StringMethods}
    (a b : string) (env : Env) (w : World) :
  ascii_methods → ascii_text a → ascii_text b →
  normalize (normalize a) = normalize a
  ∧ normalize (a +:+ b) = normalize a +:+ normalize b
  ∧ getDeviceId_execute (normalize a) env w = getDeviceId_execute a env w.
Proof.
  intros Hm Ha Hb.
  assert (normalize (normalize a) = normalize a) as Hidem.
  { rewrite (normalize_ascii a) by done.
    rewrite normalize_ascii; [|done|by apply ascii_text_normal].
    apply strip_lower_fixed, strip_whitespace_clean. }
  split_and!; [done| |].
  - rewrite !normalize_ascii; [|done..|by apply ascii_text_app].
    apply strip_lower_app.
  - unfold getDeviceId_execute. fold (normalize a).
    fold (normalize (normalize a)). by rewrite Hidem.
Qed.

(** X20. Whenever the tool returns a text, the text reads back as the
    entry of the table, provided the configured identifiers are strings;
    the normalised name is then one of the four rooms or [__proto__].  For
    every other normalised name there is no text at all. *)
Theorem getDeviceId_text_reads_back `{StringMethods} roomName env w text :
  (∀ p, p ∈ devices env → ∃ id, p.2 = VStr id) →
  returned (getDeviceId_execute roomName env w) = Some (Some text) →
  Json.parse text = Ok (obj_lookup (normalize roomName) (devices env))
  ∧ (normalize roomName ∈ room_names ∨ normalize roomName = "__proto__").
Proof.
  intros Hids Htext.
  assert (JSON_stringify (obj_lookup (normalize roomName) (devices env))
          = Some text) as Hs.
  { revert Htext. unfold returned, getDeviceId_execute, getDeviceId.
    fold (normalize roomName). fold (devices env).
    unfold bind, ret, emit. cbn [fst]. by intros [= ->]. }
  destruct (decide (normalize roomName ∈ room_names)) as [Hin|Hnin].
  - split; [|by left]. apply parse_stringify; [|done].
    unfold obj_lookup.
    destruct (assoc (normalize roomName) (devices env)) as [id|] eqn:Hid.
    + assert ((normalize roomName, id) ∈ devices env) as Hp.
      { clear -Hid. induction (devices env) as [|[k x] o IH]; [done|].
        cbn [assoc] in Hid. case_decide as Hk.
        - injection Hid as ->. subst k. by left.
        - right. by apply IH. }
      destruct (Hids _ Hp) as [t Ht]. cbn [snd] in Ht. by rewrite Ht.
    + apply assoc_None in Hid. by destruct Hid.
  - destruct (decide (normalize roomName = "__proto__")) as [Hproto|Hne].
    + split; [|by right]. apply parse_stringify; [|done]. by rewrite Hproto.
    + by rewrite obj_lookup_unknown in Hs.
Qed.

(** ** The further properties at work on the sample runtime *)

Lemma getToken_failures_witness :
  (@getToken (Sample.runtime []) Sample.creds Sample.world0).1
  = Throw (TypeError "fetch failed")
  ∧ (@getToken (Sample.runtime [Ok (text_response "<html>")]) Sample.creds
       Sample.world0).1
    = Throw (Json.SyntaxError "Unexpected token in JSON")
  ∧ (@getToken (Sample.runtime [Ok (text_response "5")]) Sample.creds
       Sample.world0).1
    = Throw (Error "Fetch failed: undefined")
  ∧ (@getToken (Sample.runtime [Ok Sample.token_refused]) Sample.creds
       Sample.world0).1
    = Throw (AuthError (VStr "invalid signature")).
Proof.
  split_and!.
  - destruct (@getToken_failures (Sample.runtime []) Sample.creds
                Sample.world0) as (Hnet & _).
    rewrite (Hnet (TypeError "fetch failed")); [reflexivity|].
    vm_compute. reflexivity.
  - destruct (@getToken_failures
                (Sample.runtime [Ok (text_response "<html>")]) Sample.creds
                Sample.world0) as (_ & Hsyntax & _).
    rewrite (Hsyntax (text_response "<html>")
               (Json.SyntaxError "Unexpected token in JSON"));
      [reflexivity | vm_compute; reflexivity | vm_compute; reflexivity].
  - destruct (@getToken_failures
                (Sample.runtime [Ok (text_response "5")]) Sample.creds
                Sample.world0) as (_ & _ & _ & Hprim & _).
    apply (Hprim (text_response "5") (VNum 5));
      [vm_compute; reflexivity | vm_compute; reflexivity | exact I].
  - destruct (@getToken_failures
                (Sample.runtime [Ok Sample.token_refused]) Sample.creds
                Sample.world0) as (_ & _ & _ & _ & Hrefused).
    apply (Hrefused Sample.token_refused
             [("code", VNum 1004); ("msg", VStr "invalid signature");
              ("success", VBool false); ("t", VNum 1700000000123);
              ("tid", VStr "abc")]);
      vm_compute; reflexivity.
Defined.

Lemma getToken_ignores_status_witness :
  @getToken (with_network (Sample.runtime [])
               (scripted [Ok Sample.token_ok])) Sample.creds Sample.world0
  = @getToken (with_network (Sample.runtime [])
                 (scripted [Ok {| status := 401;
                                  text := text Sample.token_ok |}]))
      Sample.creds Sample.world0.
Proof.
  apply (getToken_ignores_status (Sample.runtime []) Sample.creds
           Sample.world0 _ _ Sample.token_ok
           {| status := 401; text := text Sample.token_ok |});
    vm_compute; reflexivity.
Defined.

Lemma token_failure_propagates_witness :
  (@turnOnOff (Sample.runtime [Ok Sample.token_refused]) Sample.creds
     "dev-1" true Sample.world0).1
  = Throw (AuthError (VStr "invalid signature"))
  ∧ (@changeColor (Sample.runtime [Ok Sample.token_refused]) Sample.creds
       "dev-1" (VNum 10) (VNum 500) (VNum 800) Sample.world0).1
    = Throw (AuthError (VStr "invalid signature")).
Proof.
  set (rt := Sample.runtime [Ok Sample.token_refused]).
  set (run := @getToken rt Sample.creds (tick (enter None Sample.world0).2)).
  assert (run = (Throw (AuthError (VStr "invalid signature")), run.2))
    as Hrun by (vm_compute; reflexivity).
  destruct (@token_failure_propagates rt Sample.creds "dev-1" true (VNum 10) (VNum 500) (VNum 800)
              Sample.world0 _ _ Hrun) as (_ & Hswitch & Hcolour & _).
  rewrite Hswitch, Hcolour. split; reflexivity.
Defined.

Lemma authenticatedCall_failures_wrapped_witness :
  (@authenticatedCall
     (Sample.runtime [Ok Sample.token_ok; Ok (text_response "<html>")])
     Sample.creds "GET" "/v1.0/devices/dev-1/status" None None
     Sample.world0).1
  = Throw (Error "SyntaxError: Unexpected token in JSON").
Proof.
  set (rt := Sample.runtime [Ok Sample.token_ok; Ok (text_response "<html>")]).
  set (run := @getRequestSign rt Sample.creds "/v1.0/devices/dev-1/status"
                "GET" [] None None Sample.world0).
  assert (run = (Ok (default [] (returned run)), run.2)) as Hrun
    by (vm_compute; reflexivity).
  destruct (@authenticatedCall_failures_wrapped rt Sample.creds "GET"
              "/v1.0/devices/dev-1/status" None None Sample.world0
              (default [] (returned run)) run.2 Hrun)
    as (_ & _ & _ & Hsyntax & _).
  rewrite (Hsyntax (text_response "<html>")
             (Json.SyntaxError "Unexpected token in JSON"));
    [reflexivity | vm_compute; reflexivity | reflexivity
    | vm_compute; reflexivity].
Defined.

Lemma getRequestSign_effects_witness :
  let run :=
    @getRequestSign (Sample.runtime [Ok Sample.token_ok]) Sample.creds
      "/v1.0/devices/dev-1/status" "GET" [] None None Sample.world0 in
  clock_reads run.2 = 2
  ∧ obj_get "t" (default [] (returned run)) = VStr "1700000000000".
Proof.
  intros run.
  assert (run = (Ok (default [] (returned run)), run.2)) as Hrun
    by (vm_compute; reflexivity).
  destruct (@getRequestSign_effects (Sample.runtime [Ok Sample.token_ok])
              Sample.creds "/v1.0/devices/dev-1/status" "GET" [] None None
              Sample.world0 (default [] (returned run)) run.2 Hrun)
    as (Hclock & _ & Ht & _).
  rewrite Hclock, Ht. split; reflexivity.
Defined.

Lemma authenticatedCall_request_witness :
  let rt := Sample.runtime [Ok Sample.token_ok; Ok Sample.command_ok] in
  let run :=
    @authenticatedCall rt Sample.creds "POST" "/v1.0/devices/dev-1/commands"
      None (Some [("commands", VStr "[]")]) Sample.world0 in
  ∃ req,
    EFetch req ∈ trace run.2
    ∧ req_url req = "https://openapi.example/v1.0/devices/dev-1/commands"
    ∧ req_method req = Some "POST".
Proof.
  intros rt run.
  set (sign := @getRequestSign rt Sample.creds "/v1.0/devices/dev-1/commands"
                 "POST" [] None (Some [("commands", VStr "[]")])
                 Sample.world0).
  assert (sign = (Ok (default [] (returned sign)), sign.2)) as Hsign
    by (vm_compute; reflexivity).
  destruct (@authenticatedCall_request rt Sample.creds "POST"
              "/v1.0/devices/dev-1/commands" None
              (Some [("commands", VStr "[]")]) Sample.world0
              (default [] (returned sign)) sign.2 Hsign)
    as (req & evs & Htrace & _ & Hurl & Hmethod & _).
  exists req. split_and!; [|exact Hurl|exact Hmethod].
  unfold run. rewrite Htrace. apply elem_of_app. right. left.
Defined.

Lemma signed_body_not_sent_witness :
  let rt := Sample.runtime [Ok Sample.token_ok; Ok Sample.command_ok] in
  let run :=
    @authenticatedCall rt Sample.creds "PUT" "/v1.0/devices/dev-1/commands"
      None (Some [("commands", VStr "[]")]) Sample.world0 in
  ∃ req,
    EFetch req ∈ trace run.2
    ∧ req_method req = Some "PUT"
    ∧ req_body req = None.
Proof.
  intros rt run.
  set (sign := @getRequestSign rt Sample.creds "/v1.0/devices/dev-1/commands"
                 "PUT" [] None (Some [("commands", VStr "[]")])
                 Sample.world0).
  assert (sign = (Ok (default [] (returned sign)), sign.2)) as Hsign
    by (vm_compute; reflexivity).
  destruct (@signed_body_not_sent rt Sample.creds "PUT"
              "/v1.0/devices/dev-1/commands" None
              (Some [("commands", VStr "[]")]) Sample.world0
              (default [] (returned sign)) sign.2 Hsign)
    as (req & evs & url & Htrace & _ & Hmethod & Hbody & _).
  - discriminate.
  - left. discriminate.
  - exists req. split_and!; [|exact Hmethod|exact Hbody].
    unfold run. rewrite Htrace. apply elem_of_app. right. left.
Defined.

Lemma getRequestSign_path_pieces_witness :
  path_uri "/v1.0/x?c=3" = "/v1.0/x"
  ∧ path_query "/v1.0/x?c=3" = Some "c=3".
Proof.
  destruct (@getRequestSign_path_pieces (Sample.runtime []) Sample.creds
              "GET" [] None None Sample.world0 "/v1.0/x" "c=3" "d=4")
    as (_ & _ & Huri & Hquery & _).
  - apply (bool_decide_unpack _). vm_compute. exact I.
  - apply (bool_decide_unpack _). vm_compute. exact I.
  - split; [exact Huri | exact Hquery].
Defined.

Lemma calls_change_only_the_query_witness :
  let run :=
    @authenticatedCall (Sample.runtime [Ok Sample.token_ok; Ok Sample.command_ok])
      Sample.creds "GET" "/v1.0/x?c=3" (Some 0) None Sample.world_query in
  length (heap run.2) = 1.
Proof.
  intros run.
  destruct (@calls_change_only_the_query
              (Sample.runtime [Ok Sample.token_ok; Ok Sample.command_ok])
              Sample.creds "GET" "/v1.0/x?c=3" (Some 0) None "dev-1" true
              (VNum 10) (VNum 500) (VNum 800) Sample.world_query) as ((Hlen & _) & _).
  exact Hlen.
Defined.

Lemma getDeviceStatus_fields_witness :
  let run :=
    @getDeviceStatus
      (Sample.runtime [Ok Sample.token_ok; Ok (echo_response true 10 500 800)])
      Sample.creds "dev-1" Sample.world0 in
  length (default [] (returned run)) ≤ 4.
Proof.
  intros run.
  assert (run.1 = Ok (default [] (returned run))) as Hrun
    by (vm_compute; reflexivity).
  apply (@getDeviceStatus_fields _ Sample.creds "dev-1" Sample.world0 _ Hrun).
Defined.

Lemma getDeviceStatus_all_or_nothing_witness :
  (@getDeviceStatus
     (Sample.runtime [Ok Sample.token_ok; Ok status_broken])
     Sample.creds "dev-1" Sample.world0).1
  = Throw (Json.SyntaxError "Unexpected token in JSON").
Proof.
  set (rt := Sample.runtime [Ok Sample.token_ok; Ok status_broken]).
  set (call := @authenticatedCall rt Sample.creds "GET"
                 "/v1.0/devices/dev-1/status" None None Sample.world0).
  assert (call = (Ok (VObj (returned_object call)), call.2)) as Hcall
    by (vm_compute; reflexivity).
  destruct (@getDeviceStatus_all_or_nothing rt Sample.creds "dev-1"
              Sample.world0 (returned_object call) call.2
              [VObj (status_pair "switch_led" (VBool true))]
              (VObj (status_pair "colour_data_v2" (VStr "{h:1")))
              [VObj (status_pair "bright_value_v2" (VNum 10))]
              [("onOff", VBool true)]
              (Json.SyntaxError "Unexpected token in JSON") Hcall)
    as (Hrun & _).
  - vm_compute. reflexivity.
  - vm_compute. reflexivity.
  - vm_compute. reflexivity.
  - rewrite Hrun. reflexivity.
Defined.

Lemma status_step_degenerate_witness :
  @status_step (Sample.runtime []) [("onOff", VBool true)] (VNum 5)
  = Ok [("onOff", VBool true)]
  ∧ @status_step (Sample.runtime []) [("onOff", VBool true)]
      (VObj [("value", VBool false)])
    = Ok [("onOff", VBool true)].
Proof.
  destruct (@status_step_degenerate (Sample.runtime [])
              [("onOff", VBool true)]) as (Hprim & Hcode & _).
  split.
  - apply Hprim. exact I.
  - apply Hcode. apply (bool_decide_unpack _). vm_compute. exact I.
Defined.

Lemma getDeviceStatus_result_not_a_list_witness :
  ∃ m,
    (@getDeviceStatus
       (Sample.runtime [Ok Sample.token_ok; Ok Sample.command_ok])
       Sample.creds "dev-1" Sample.world0).1
    = Throw (TypeError m).
Proof.
  set (rt := Sample.runtime [Ok Sample.token_ok; Ok Sample.command_ok]).
  set (call := @authenticatedCall rt Sample.creds "GET"
                 "/v1.0/devices/dev-1/status" None None Sample.world0).
  assert (call = (Ok (VObj (returned_object call)), call.2)) as Hcall
    by (vm_compute; reflexivity).
  destruct (@getDeviceStatus_result_not_a_list rt Sample.creds "dev-1"
              Sample.world0 (returned_object call) call.2 Hcall)
    as [m Hrun].
  - intros cs. vm_compute. discriminate.
  - exists m. rewrite Hrun. reflexivity.
Defined.

Lemma turnOnOff_confirmation_witness :
  let run :=
    @turnOnOff (Sample.runtime [Ok Sample.token_ok; Ok command_no_effect])
      Sample.creds odd_device true Sample.world0 in
  ∃ text,
    returned run = Some (Some text)
    ∧ Json.parse text = Ok (switch_confirmation odd_device true).
Proof.
  intros run.
  set (rt := Sample.runtime [Ok Sample.token_ok; Ok command_no_effect]).
  set (call := @authenticatedCall rt Sample.creds "POST"
                 (commands_endpoint odd_device)
                 (Some (enter None Sample.world0).1)
                 (Some (commands_body (switch_commands true)))
                 (enter None Sample.world0).2).
  assert (call = (Ok (default VUndef (returned call)), call.2)) as Hcall
    by (vm_compute; reflexivity).
  destruct (@turnOnOff_confirmation rt Sample.creds odd_device true
              Sample.world0 _ _ Hcall) as (text & Hrun & Hparse).
  exists text. split; [|exact Hparse].
  unfold run, returned. fold rt. rewrite Hrun. reflexivity.
Defined.

Lemma changeColor_confirmation_witness :
  let run :=
    @changeColor (Sample.runtime [Ok Sample.token_ok; Ok command_no_effect])
      Sample.creds odd_device (VNum 9999) (VNum (-5)) (VNum 0)
      Sample.world0 in
  ∃ text,
    returned run = Some (Some text)
    ∧ Json.parse text = Ok (colour_confirmation odd_device 9999 (-5) 0).
Proof.
  intros run.
  set (rt := Sample.runtime [Ok Sample.token_ok; Ok command_no_effect]).
  set (call := @authenticatedCall rt Sample.creds "POST"
                 (commands_endpoint odd_device)
                 (Some (enter None Sample.world0).1)
                 (Some (commands_body (colour_commands 9999 (-5) 0)))
                 (enter None Sample.world0).2).
  assert (call = (Ok (default VUndef (returned call)), call.2)) as Hcall
    by (vm_compute; reflexivity).
  destruct (@changeColor_confirmation rt Sample.creds odd_device 9999 (-5) 0
              Sample.world0 (default VUndef (returned call)) call.2)
    as (text & Hrun & Hparse).
  - unfold safe_integer. lia.
  - unfold safe_integer. lia.
  - unfold safe_integer. lia.
  - exact Hcall.
  - exists text. split; [|exact Hparse].
    unfold run, returned. fold rt. rewrite Hrun. reflexivity.
Defined.

Lemma commands_travel_as_text_witness :
  let rt := Sample.runtime [Ok Sample.token_ok; Ok Sample.command_ok] in
  let run :=
    @run_command rt Sample.creds "dev-1" (Colour 10 500 800) Sample.world0 in
  ∃ req json ctext,
    EFetch req ∈ trace run.2
    ∧ req_body req = Some json
    ∧ Json.parse json = Ok (VObj [("commands", VStr ctext)])
    ∧ Json.parse ctext
      = Ok (VArr [VObj [("code", VStr "colour_data_v2");
                        ("value", VStr (hsv_json 10 500 800))]]).
Proof.
  intros rt run.
  set (sign := @getRequestSign rt Sample.creds (commands_endpoint "dev-1")
                 "POST" [] (Some (enter None Sample.world0).1)
                 (Some (commands_body (commands_of (Colour 10 500 800))))
                 (enter None Sample.world0).2).
  assert (sign = (Ok (default [] (returned sign)), sign.2)) as Hsign
    by (vm_compute; reflexivity).
  destruct (@commands_travel_as_text rt Sample.creds "dev-1"
              (Colour 10 500 800) Sample.world0
              (default [] (returned sign)) sign.2)
    as (req & evs & json & ctext & Htrace & _ & Hbody & Hjson & Hctext
        & Hcolour); [|exact Hsign|].
  { unfold safe_command, safe_integer. lia. }
  destruct (Hcolour 10%Z 500%Z 800%Z eq_refl) as [Hcommands _].
  exists req, json, ctext. split_and!; [|exact Hbody|exact Hjson|].
  - unfold run. rewrite Htrace. apply elem_of_app. right. left.
  - exact (eq_trans Hctext (f_equal (λ x, Ok (VArr x)) Hcommands)).
Defined.

Lemma getDeviceStatus_reads_commands_witness :
  (@getDeviceStatus
     (Sample.runtime [Ok Sample.token_ok; Ok (echo_response true 10 500 800)])
     Sample.creds "dev-1" Sample.world0).1
  = Ok [("onOff", VBool true); ("color", hsv_record 10 500 800)].
Proof.
  set (rt := Sample.runtime
               [Ok Sample.token_ok; Ok (echo_response true 10 500 800)]).
  set (call := @authenticatedCall rt Sample.creds "GET"
                 (status_endpoint "dev-1") None None Sample.world0).
  assert (call = (Ok (default VUndef (returned call)), call.2)) as Hcall
    by (vm_compute; reflexivity).
  destruct (@getDeviceStatus_reads_commands rt Sample.creds "dev-1" true
              10 500 800 Sample.world0 (default VUndef (returned call))
              call.2) as [_ Hrun].
  - unfold safe_integer. lia.
  - unfold safe_integer. lia.
  - unfold safe_integer. lia.
  - reflexivity.
  - exact Hcall.
  - vm_compute. reflexivity.
  - rewrite Hrun. reflexivity.
Defined.

Lemma normalize_idempotent_witness :
  @normalize Sample.strings ("Living " +:+ "Room") = "livingroom".
Proof.
  destruct (@normalize_idempotent Sample.strings "Living " "Room" Sample.env
              Sample.world0 ascii_methods_sample) as (_ & Happ & _).
  - apply (bool_decide_unpack _). vm_compute. exact I.
  - apply (bool_decide_unpack _). vm_compute. exact I.
  - rewrite Happ. reflexivity.
Defined.

Lemma getDeviceId_text_reads_back_witness :
  Json.parse (json_quote "dev-living") = Ok (VStr "dev-living").
Proof.
  destruct (@getDeviceId_text_reads_back Sample.strings "Living Room "
              Sample.env Sample.world0 (json_quote "dev-living"))
    as [Hparse _].
  - intros p Hp. unfold devices in Hp.
    repeat (apply elem_of_cons in Hp as [->|Hp]; [eexists; reflexivity|]).
    exfalso. exact (proj1 (elem_of_nil p) Hp).
  - vm_compute. reflexivity.
  - rewrite Hparse. reflexivity.
Defined.
